(** * gst-nvinfercustom: batching, history cache and ordering core

    A shallow embedding of the scheduling logic of [gstnvinfer.cpp]:
    the reinference policy ([should_infer_object]), the per-source object
    history maps and their trimming ([cleanup_history_map]), the batch
    builder ([gst_nvinfer_process_objects]), the two worker loops
    ([gst_nvinfer_input_queue_loop], [gst_nvinfer_output_loop]) and the
    event serialisation of [gst_nvinfer_sink_event].

    Conventions.
    - [gulong], [guint64] and [GstClockTime] values are [Z] in [0, 2^64);
      subtraction wraps ([u64_sub]).  [gint]/[guint] are [Z].
    - [float] and [double] values are [spec_float] of the Standard
      Library, with the binary32 and binary64 parameters.
    - A [std::shared_ptr<GstNvinfercustomObjectHistory>] is a location in
      a store of history records; a [std::weak_ptr] is a location whose
      [lock()] is a lookup in that store.
    - Calls that leave the element (buffer pool, surface transforms, the
      inference context, pad pushes, logging) are inputs (outcomes) or
      appended to logs carried in the state. *)

From Stdlib Require Import ZArith QArith Floats.SpecFloat.
From stdpp Require Import gmap list strings.

Local Open Scope Z_scope.

(** ** Machine numbers *)

Module Num.

(** Unsigned 64-bit wrap-around ([gulong], [guint64], [GstClockTime]). *)
Definition u64 (x : Z) : Z := x mod 2 ^ 64.

(** [a - b] on [gulong]. *)
Definition u64_sub (a b : Z) : Z := u64 (a - b).

(** Conversion to [int] ([gint]): the cast [(int) x] of a size, and the
    implicit conversion of a [guint] key. *)
Definition s32 (x : Z) : Z := (x + 2 ^ 31) mod 2 ^ 32 - 2 ^ 31.

(** binary32 ([float]) and binary64 ([double]) arithmetic, round to
    nearest even. *)
Definition f32_mul : spec_float -> spec_float -> spec_float := SFmul 24 128.
Definition f64_mul : spec_float -> spec_float -> spec_float := SFmul 53 1024.
Definition f64_add : spec_float -> spec_float -> spec_float := SFadd 53 1024.

(** Integer to [float] and to [double] conversions. *)
Definition f32_of_Z (n : Z) : spec_float := binary_normalize 24 128 n 0 false.
Definition f64_of_Z (n : Z) : spec_float := binary_normalize 53 1024 n 0 false.

(** Promotion of a [float] to [double]: exact, the mantissa is only
    re-aligned to the 53-bit format. *)
Definition f64_of_f32 (x : spec_float) : spec_float :=
  match x with
  | S754_finite s m e => binary_round 53 1024 s m e
  | _ => x
  end.

(** [a < b] and [a > b] on floating-point values (false on NaN). *)
Definition f_lt (a b : spec_float) : bool := SFltb a b.
Definition f_gt (a b : spec_float) : bool := SFltb b a.

(** The exact rational value of a finite floating-point number. *)
Definition SF2Q (x : spec_float) : option Q :=
  match x with
  | S754_zero _ => Some 0%Q
  | S754_finite s m e =>
      Some ((if s then Qopp 1 else 1) * inject_Z (Zpos m) * Qpower 2 e)%Q
  | _ => None
  end.

End Num.

Import Num.

(** ** Constants of the element *)

(** [#define REINFER_AREA_THRESHOLD 0.2]: the [double] nearest to 0.2. *)
Definition REINFER_AREA_THRESHOLD : spec_float :=
  S754_finite false 7205759403792794 (-55).

Definition CLEANUP_ACCESS_CRITERIA : Z := 150.
Definition MAP_CLEANUP_INTERVAL : Z := 1800.

(** GStreamer: [GST_CLOCK_TIME_NONE] is [(GstClockTime) -1], [GST_SECOND]
    is 10^9 nanoseconds. *)
Definition GST_CLOCK_TIME_NONE : Z := 2 ^ 64 - 1.
Definition GST_SECOND : Z := 1000000000.
Definition UNTRACKED_OBJECT_WARN_INTERVAL : Z := GST_SECOND * 60 * 5.

(** DeepStream metadata: [UNTRACKED_OBJECT_ID] is [0xFFFFFFFFFFFFFFFF]. *)
Definition UNTRACKED_OBJECT_ID : Z := 2 ^ 64 - 1.

(** ** Metadata and configuration *)

Inductive NvDsInferNetworkType :=
  | NvDsInferNetworkType_Detector
  | NvDsInferNetworkType_Classifier
  | NvDsInferNetworkType_Segmentation
  | NvDsInferNetworkType_Other.

Global Instance NvDsInferNetworkType_eq_dec : EqDecision NvDsInferNetworkType.
Proof. solve_decision. Defined.

(** [NvOSD_RectParams]: the fields are [float] (the source casts them to
    [unsigned int] before rounding them to even pixels). *)
Record NvOSD_RectParams := {
  rect_left : spec_float;
  rect_top : spec_float;
  width : spec_float;
  height : spec_float
}.

(** One classifier attribute of [NvDsInferClassificationOutput]. *)
Record NvDsInferAttribute := {
  attributeIndex : nat;
  attributeValue : nat;
  attributeLabel : string
}.

(** [GstNvinfercustomObjectInfo]: the attribute vector and the label. *)
Record GstNvinfercustomObjectInfo := {
  attributes : list NvDsInferAttribute;
  label : string
}.

(** The fields of [NvDsObjectMeta] the element reads. *)
Record NvDsObjectMeta := {
  unique_component_id : Z;
  class_id : Z;
  object_id : Z;
  rect_params : NvOSD_RectParams
}.

(** The properties of the element that the core reads.  They are fixed
    while the element runs.  The structure is declared in [gstnvinfer.h],
    which is not among the sources; the fields are those that
    [gstnvinfer.cpp] reads, with the types of their uses there: the sizes
    are [guint], [operate_on_gie_id] is a [gint]. *)
Record GstNvinfercustom := {
  operate_on_gie_id : Z;
  min_input_object_width : Z;
  min_input_object_height : Z;
  max_input_object_width : Z;
  max_input_object_height : Z;
  operate_on_class_ids : list bool;
  secondary_reinfer_interval : Z;
  networkType : NvDsInferNetworkType;
  classifier_async_mode : bool;
  max_batch_size : Z;
  output_tensor_meta : bool
}.

Definition IS_DETECTOR_INSTANCE (nvinfer : GstNvinfercustom) : bool :=
  bool_decide (networkType nvinfer = NvDsInferNetworkType_Detector).
Definition IS_CLASSIFIER_INSTANCE (nvinfer : GstNvinfercustom) : bool :=
  bool_decide (networkType nvinfer = NvDsInferNetworkType_Classifier).
Definition IS_SEGMENTATION_INSTANCE (nvinfer : GstNvinfercustom) : bool :=
  bool_decide (networkType nvinfer = NvDsInferNetworkType_Segmentation).

(** [GstNvinfercustomObjectHistory], declared in [gstnvinfer.h]: the fields
    that [gstnvinfer.cpp] reads and writes.  The frame numbers are
    [gulong], as the argument [frame_num] of [should_infer_object]. *)
Record GstNvinfercustomObjectHistory := {
  under_inference : bool;
  last_inferred_coords : NvOSD_RectParams;
  last_inferred_frame_num : Z;
  last_accessed_frame_num : Z;
  cached_info : GstNvinfercustomObjectInfo
}.

(** ** Reinference policy *)

(** [std::vector::at]: [None] stands for the [std::out_of_range] it
    throws.  The index is converted to [size_t]. *)
Definition vector_at {A} (v : list A) (i : Z) : option A :=
  if decide (0 <= i) then v !! Z.to_nat i else None.

(** The test on the area of [should_infer_object]:
    [last.width * last.height * (1 + REINFER_AREA_THRESHOLD)
       < cur.width * cur.height].
    The two products are [float] products; the left one is promoted to
    [double] for the multiplication by the [double] constant, the right
    one for the comparison. *)
Definition area_threshold (last : NvOSD_RectParams) : spec_float :=
  f64_mul (f64_of_f32 (f32_mul (width last) (height last)))
          (f64_add (f64_of_Z 1) REINFER_AREA_THRESHOLD).

Definition object_area (r : NvOSD_RectParams) : spec_float :=
  f64_of_f32 (f32_mul (width r) (height r)).

Definition area_grown (last cur : NvOSD_RectParams) : bool :=
  f_lt (area_threshold last) (object_area cur).

(** The test on the frame numbers:
    [frame_num - last_inferred_frame_num > secondary_reinfer_interval]. *)
Definition reinfer_interval_elapsed (nvinfer : GstNvinfercustom)
    (frame_num : Z) (history : GstNvinfercustomObjectHistory) : bool :=
  secondary_reinfer_interval nvinfer
    <? u64_sub frame_num (last_inferred_frame_num history).

(** The condition of the class filter,
    [!ids->empty () && ((int) ids->size () <= class_id
                        || ids->at (class_id) == FALSE)];
    [None] when [at] throws. *)
Definition class_id_excluded (nvinfer : GstNvinfercustom)
    (obj_meta : NvDsObjectMeta) : option bool :=
  match operate_on_class_ids nvinfer with
  | [] => Some false
  | _ :: _ =>
      if s32 (Z.of_nat (length (operate_on_class_ids nvinfer)))
           <=? class_id obj_meta
      then Some true
      else negb <$> vector_at (operate_on_class_ids nvinfer) (class_id obj_meta)
  end.

(** [should_infer_object].  The result is [None] when the lookup in
    [operate_on_class_ids] throws. *)
Definition should_infer_object (nvinfer : GstNvinfercustom)
    (obj_meta : NvDsObjectMeta) (frame_num : Z)
    (history : option GstNvinfercustomObjectHistory) : option bool :=
  if (-1 <? operate_on_gie_id nvinfer)
     && negb (unique_component_id obj_meta =? operate_on_gie_id nvinfer)
  then Some false
  else if f_lt (width (rect_params obj_meta))
               (f32_of_Z (min_input_object_width nvinfer))
  then Some false
  else if f_lt (height (rect_params obj_meta))
               (f32_of_Z (min_input_object_height nvinfer))
  then Some false
  else if (0 <? max_input_object_width nvinfer)
          && f_gt (width (rect_params obj_meta))
                  (f32_of_Z (max_input_object_width nvinfer))
  then Some false
  else if (0 <? max_input_object_height nvinfer)
          && f_gt (height (rect_params obj_meta))
                  (f32_of_Z (max_input_object_height nvinfer))
  then Some false
  else
    match class_id_excluded nvinfer obj_meta with
    | None => None
    | Some true => Some false
    | Some false =>
        match history with
        | Some h =>
            if IS_CLASSIFIER_INSTANCE nvinfer then
              let should_reinfer := false in
              let should_reinfer :=
                if area_grown (last_inferred_coords h) (rect_params obj_meta)
                then true else should_reinfer in
              let should_reinfer :=
                if reinfer_interval_elapsed nvinfer frame_num h
                then true else should_reinfer in
              Some should_reinfer
            else Some true
        | None => Some true
        end
    end.

(** The filters of [should_infer_object] that do not look at the history:
    component id, minimum and maximum size, class id. *)
Definition passes_filters (nvinfer : GstNvinfercustom)
    (obj_meta : NvDsObjectMeta) : Prop :=
  should_infer_object nvinfer obj_meta 0 None = Some true.

(** The rule as the specification words it: the exact area of the object
    is at least [(1 + 0.2)] times the exact area at the last inference. *)
Definition exact_area (r : NvOSD_RectParams) : option Q :=
  w ← SF2Q (width r); h ← SF2Q (height r); Some (w * h)%Q.

Definition area_at_least_threshold (last cur : NvOSD_RectParams) : Prop :=
  match exact_area last, exact_area cur with
  | Some a0, Some a1 => ((1 + (2 # 10)) * a0 <= a1)%Q
  | _, _ => False
  end.

Definition frames_elapsed_exceed (nvinfer : GstNvinfercustom)
    (frame_num : Z) (history : GstNvinfercustomObjectHistory) : Prop :=
  secondary_reinfer_interval nvinfer
    < u64_sub frame_num (last_inferred_frame_num history).

Definition reinfer_rule_as_specified (nvinfer : GstNvinfercustom)
    (obj_meta : NvDsObjectMeta) (frame_num : Z)
    (history : GstNvinfercustomObjectHistory) : Prop :=
  should_infer_object nvinfer obj_meta frame_num (Some history) = Some true
  <-> area_at_least_threshold (last_inferred_coords history)
        (rect_params obj_meta)
      \/ frames_elapsed_exceed nvinfer frame_num history.

(** ** Batches *)

(** [GstFlowReturn], as far as the element tells the values apart. *)
Inductive GstFlowReturn :=
  | GST_FLOW_OK
  | GST_FLOW_NOT_LINKED
  | GST_FLOW_FLUSHING
  | GST_FLOW_EOS
  | GST_FLOW_NOT_NEGOTIATED
  | GST_FLOW_ERROR.

Global Instance GstFlowReturn_eq_dec : EqDecision GstFlowReturn.
Proof. solve_decision. Defined.

(** [GstNvinfercustomFrame], declared in [gstnvinfer.h]: one region queued
    for inference, with the fields that the core of [gstnvinfer.cpp] sets
    (the scale ratios and the pointers into the input surface are left
    out).  [history] is the [std::weak_ptr] to the history record of the
    object ([None] for an empty pointer); [obj_meta] is null in
    asynchronous mode. *)
Record GstNvinfercustomFrame := {
  converted_frame_ptr : nat;
  obj_meta : option NvDsObjectMeta;
  frame_num : Z;
  batch_index : Z;
  history : option nat
}.

(** [GstNvinfercustomBatch], declared in [gstnvinfer.h].  [inbuf] and
    [conv_buf] are handles of [GstBuffer]s, [None] for null; the entries
    of [objs_pending_meta_attach] hold a weak pointer, which the output
    loop locks. *)
Record GstNvinfercustomBatch := {
  frames : list GstNvinfercustomFrame;
  inbuf : option Z;
  inbuf_batch_num : Z;
  push_buffer : bool;
  event_marker : bool;
  conv_buf : option Z;
  objs_pending_meta_attach : list (nat * NvDsObjectMeta)
}.

(** ** State of a running element *)

(** [GstNvinfercustomSourceInfo], declared in [gstnvinfer.h]; the history
    map holds shared pointers, that is, locations of the record store. *)
Record GstNvinfercustomSourceInfo := {
  object_history_map : gmap Z nat;
  last_cleanup_frame_num : Z;
  last_seen_frame_num : Z
}.

(** What the element reports on the bus and in the debug log. *)
Inductive Report :=
  | WARN_untracked_objects
  | WARN_source_info_not_found (pad_index : Z)
  | ERROR_batch_meta_not_found
  | ERROR_ensure_next_context_failed
  | ERROR_buffer_conversion_failed
  | ERROR_transform_failed
  | ERROR_queue_input_batch_failed
  | ERROR_dequeue_output_failed
  | ERROR_internal_data_stream (flow_ret : GstFlowReturn).

(** Metadata handed to the functions of [gstnvinfer_meta_utils.h]. *)
Inductive Attachment :=
  | Attach_classifier (o : option NvDsObjectMeta)
      (info : GstNvinfercustomObjectInfo)
  | Attach_detector (f : GstNvinfercustomFrame) (detectionOutput : nat)
  | Attach_segmentation (f : GstNvinfercustomFrame) (segmentationOutput : nat)
  | Attach_tensor_output (b : GstNvinfercustomBatch).

(** The events [gst_nvinfer_sink_event] tells apart.  The three
    DeepStream events carry a source id ([guint]). *)
Inductive GstEvent :=
  | GST_NVEVENT_PAD_ADDED (source_id : Z)
  | GST_NVEVENT_PAD_DELETED (source_id : Z)
  | GST_NVEVENT_STREAM_EOS (source_id : Z)
  | GST_EVENT_EOS
  | GST_EVENT_TAG
  | GST_EVENT_OTHER (serialized : bool).

(** [GST_EVENT_IS_SERIALIZED]: EOS, TAG and the DeepStream events are
    serialized with the data flow. *)
Definition GST_EVENT_IS_SERIALIZED (event : GstEvent) : bool :=
  match event with
  | GST_EVENT_OTHER serialized => serialized
  | _ => true
  end.

(** What leaves the element on its source pad. *)
Inductive Downstream :=
  | PushedBuffer (buf : option Z)
  | ForwardedEvent (event : GstEvent).

(** The mutable part of [GstNvinfercustom] that the core touches, the
    store of history records, and the effects observed from outside
    ([reports], [attached], [downstream], [released_conv_bufs]). *)
Record State := {
  source_info : gmap Z GstNvinfercustomSourceInfo;
  histories : gmap nat GstNvinfercustomObjectHistory;
  next_history : nat;
  input_queue : list GstNvinfercustomBatch;
  process_queue : list GstNvinfercustomBatch;
  stop : bool;
  untracked_object_warn_pts : Z;
  current_batch_num : Z;
  last_map_cleanup_frame_num : Z;
  interval_counter : Z;
  last_flow_ret : GstFlowReturn;
  reports : list Report;
  attached : list Attachment;
  downstream : list Downstream;
  released_conv_bufs : list (option Z)
}.

Definition set_source_info (f : gmap Z GstNvinfercustomSourceInfo ->
                                gmap Z GstNvinfercustomSourceInfo)
    (st : State) : State :=
  {| source_info := f (source_info st); histories := histories st;
     next_history := next_history st; input_queue := input_queue st;
     process_queue := process_queue st; stop := stop st;
     untracked_object_warn_pts := untracked_object_warn_pts st;
     current_batch_num := current_batch_num st;
     last_map_cleanup_frame_num := last_map_cleanup_frame_num st;
     interval_counter := interval_counter st;
     last_flow_ret := last_flow_ret st; reports := reports st;
     attached := attached st; downstream := downstream st;
     released_conv_bufs := released_conv_bufs st |}.

Definition set_histories (f : gmap nat GstNvinfercustomObjectHistory ->
                              gmap nat GstNvinfercustomObjectHistory)
    (st : State) : State :=
  {| source_info := source_info st; histories := f (histories st);
     next_history := next_history st; input_queue := input_queue st;
     process_queue := process_queue st; stop := stop st;
     untracked_object_warn_pts := untracked_object_warn_pts st;
     current_batch_num := current_batch_num st;
     last_map_cleanup_frame_num := last_map_cleanup_frame_num st;
     interval_counter := interval_counter st;
     last_flow_ret := last_flow_ret st; reports := reports st;
     attached := attached st; downstream := downstream st;
     released_conv_bufs := released_conv_bufs st |}.

Definition set_next_history (n : nat) (st : State) : State :=
  {| source_info := source_info st; histories := histories st;
     next_history := n; input_queue := input_queue st;
     process_queue := process_queue st; stop := stop st;
     untracked_object_warn_pts := untracked_object_warn_pts st;
     current_batch_num := current_batch_num st;
     last_map_cleanup_frame_num := last_map_cleanup_frame_num st;
     interval_counter := interval_counter st;
     last_flow_ret := last_flow_ret st; reports := reports st;
     attached := attached st; downstream := downstream st;
     released_conv_bufs := released_conv_bufs st |}.

Definition set_input_queue (f : list GstNvinfercustomBatch ->
                                list GstNvinfercustomBatch)
    (st : State) : State :=
  {| source_info := source_info st; histories := histories st;
     next_history := next_history st; input_queue := f (input_queue st);
     process_queue := process_queue st; stop := stop st;
     untracked_object_warn_pts := untracked_object_warn_pts st;
     current_batch_num := current_batch_num st;
     last_map_cleanup_frame_num := last_map_cleanup_frame_num st;
     interval_counter := interval_counter st;
     last_flow_ret := last_flow_ret st; reports := reports st;
     attached := attached st; downstream := downstream st;
     released_conv_bufs := released_conv_bufs st |}.

Definition set_process_queue (f : list GstNvinfercustomBatch ->
                                  list GstNvinfercustomBatch)
    (st : State) : State :=
  {| source_info := source_info st; histories := histories st;
     next_history := next_history st; input_queue := input_queue st;
     process_queue := f (process_queue st); stop := stop st;
     untracked_object_warn_pts := untracked_object_warn_pts st;
     current_batch_num := current_batch_num st;
     last_map_cleanup_frame_num := last_map_cleanup_frame_num st;
     interval_counter := interval_counter st;
     last_flow_ret := last_flow_ret st; reports := reports st;
     attached := attached st; downstream := downstream st;
     released_conv_bufs := released_conv_bufs st |}.

Definition set_untracked_object_warn_pts (pts : Z) (st : State) : State :=
  {| source_info := source_info st; histories := histories st;
     next_history := next_history st; input_queue := input_queue st;
     process_queue := process_queue st; stop := stop st;
     untracked_object_warn_pts := pts;
     current_batch_num := current_batch_num st;
     last_map_cleanup_frame_num := last_map_cleanup_frame_num st;
     interval_counter := interval_counter st;
     last_flow_ret := last_flow_ret st; reports := reports st;
     attached := attached st; downstream := downstream st;
     released_conv_bufs := released_conv_bufs st |}.

Definition set_current_batch_num (n : Z) (st : State) : State :=
  {| source_info := source_info st; histories := histories st;
     next_history := next_history st; input_queue := input_queue st;
     process_queue := process_queue st; stop := stop st;
     untracked_object_warn_pts := untracked_object_warn_pts st;
     current_batch_num := n;
     last_map_cleanup_frame_num := last_map_cleanup_frame_num st;
     interval_counter := interval_counter st;
     last_flow_ret := last_flow_ret st; reports := reports st;
     attached := attached st; downstream := downstream st;
     released_conv_bufs := released_conv_bufs st |}.

Definition set_last_map_cleanup_frame_num (n : Z) (st : State) : State :=
  {| source_info := source_info st; histories := histories st;
     next_history := next_history st; input_queue := input_queue st;
     process_queue := process_queue st; stop := stop st;
     untracked_object_warn_pts := untracked_object_warn_pts st;
     current_batch_num := current_batch_num st;
     last_map_cleanup_frame_num := n;
     interval_counter := interval_counter st;
     last_flow_ret := last_flow_ret st; reports := reports st;
     attached := attached st; downstream := downstream st;
     released_conv_bufs := released_conv_bufs st |}.

Definition set_interval_counter (n : Z) (st : State) : State :=
  {| source_info := source_info st; histories := histories st;
     next_history := next_history st; input_queue := input_queue st;
     process_queue := process_queue st; stop := stop st;
     untracked_object_warn_pts := untracked_object_warn_pts st;
     current_batch_num := current_batch_num st;
     last_map_cleanup_frame_num := last_map_cleanup_frame_num st;
     interval_counter := n;
     last_flow_ret := last_flow_ret st; reports := reports st;
     attached := attached st; downstream := downstream st;
     released_conv_bufs := released_conv_bufs st |}.

Definition set_last_flow_ret (r : GstFlowReturn) (st : State) : State :=
  {| source_info := source_info st; histories := histories st;
     next_history := next_history st; input_queue := input_queue st;
     process_queue := process_queue st; stop := stop st;
     untracked_object_warn_pts := untracked_object_warn_pts st;
     current_batch_num := current_batch_num st;
     last_map_cleanup_frame_num := last_map_cleanup_frame_num st;
     interval_counter := interval_counter st;
     last_flow_ret := r; reports := reports st;
     attached := attached st; downstream := downstream st;
     released_conv_bufs := released_conv_bufs st |}.

Definition report (r : Report) (st : State) : State :=
  {| source_info := source_info st; histories := histories st;
     next_history := next_history st; input_queue := input_queue st;
     process_queue := process_queue st; stop := stop st;
     untracked_object_warn_pts := untracked_object_warn_pts st;
     current_batch_num := current_batch_num st;
     last_map_cleanup_frame_num := last_map_cleanup_frame_num st;
     interval_counter := interval_counter st;
     last_flow_ret := last_flow_ret st; reports := reports st ++ [r];
     attached := attached st; downstream := downstream st;
     released_conv_bufs := released_conv_bufs st |}.

Definition attach (a : Attachment) (st : State) : State :=
  {| source_info := source_info st; histories := histories st;
     next_history := next_history st; input_queue := input_queue st;
     process_queue := process_queue st; stop := stop st;
     untracked_object_warn_pts := untracked_object_warn_pts st;
     current_batch_num := current_batch_num st;
     last_map_cleanup_frame_num := last_map_cleanup_frame_num st;
     interval_counter := interval_counter st;
     last_flow_ret := last_flow_ret st; reports := reports st;
     attached := attached st ++ [a]; downstream := downstream st;
     released_conv_bufs := released_conv_bufs st |}.

Definition send_downstream (d : Downstream) (st : State) : State :=
  {| source_info := source_info st; histories := histories st;
     next_history := next_history st; input_queue := input_queue st;
     process_queue := process_queue st; stop := stop st;
     untracked_object_warn_pts := untracked_object_warn_pts st;
     current_batch_num := current_batch_num st;
     last_map_cleanup_frame_num := last_map_cleanup_frame_num st;
     interval_counter := interval_counter st;
     last_flow_ret := last_flow_ret st; reports := reports st;
     attached := attached st; downstream := downstream st ++ [d];
     released_conv_bufs := released_conv_bufs st |}.

Definition release_conv_buf (b : option Z) (st : State) : State :=
  {| source_info := source_info st; histories := histories st;
     next_history := next_history st; input_queue := input_queue st;
     process_queue := process_queue st; stop := stop st;
     untracked_object_warn_pts := untracked_object_warn_pts st;
     current_batch_num := current_batch_num st;
     last_map_cleanup_frame_num := last_map_cleanup_frame_num st;
     interval_counter := interval_counter st;
     last_flow_ret := last_flow_ret st; reports := reports st;
     attached := attached st; downstream := downstream st;
     released_conv_bufs := released_conv_bufs st ++ [b] |}.

(** ** Object history store *)

(** The locations held by the shared pointers of the history maps. *)
Definition history_owners (si : gmap Z GstNvinfercustomSourceInfo)
    : gset nat :=
  ⋃ ((λ s, map_img (object_history_map s)) <$> (map_to_list si).*2).

(** A history record is destroyed with the last shared pointer to it.
    The pointers that outlive a critical section are those of the history
    maps, so that the records left after a change of the maps are those
    the maps still hold. *)
Definition release_unowned (si : gmap Z GstNvinfercustomSourceInfo)
    (hs : gmap nat GstNvinfercustomObjectHistory)
    : gmap nat GstNvinfercustomObjectHistory :=
  filter (λ kv, kv.1 ∈ history_owners si) hs.

(** Replace the history maps, and release the records they dropped. *)
Definition update_source_info (si : gmap Z GstNvinfercustomSourceInfo)
    (st : State) : State :=
  set_histories (release_unowned si) (set_source_info (λ _, si) st).

(** [weak_ptr::lock]. *)
Definition lock (st : State) (w : option nat)
    : option GstNvinfercustomObjectHistory :=
  w ≫= λ l, histories st !! l.

(** The erase condition of [cleanup_history_map], on the record a map
    entry points to. *)
Definition cleanup_criteria (hs : gmap nat GstNvinfercustomObjectHistory)
    (last_seen : Z) (l : nat) : bool :=
  match hs !! l with
  | Some history =>
      negb (under_inference history)
      && (CLEANUP_ACCESS_CRITERIA
            <? u64_sub last_seen (last_accessed_frame_num history))
  | None => false
  end.

(** The body of the loop of [cleanup_history_map] for one source. *)
Definition cleanup_source (hs : gmap nat GstNvinfercustomObjectHistory)
    (s : GstNvinfercustomSourceInfo) : GstNvinfercustomSourceInfo :=
  if u64_sub (last_seen_frame_num s) (last_cleanup_frame_num s)
       <? MAP_CLEANUP_INTERVAL
  then s
  else
    {| object_history_map :=
         filter
           (λ kv, cleanup_criteria hs (last_seen_frame_num s) kv.2 = false)
           (object_history_map s);
       last_cleanup_frame_num := last_seen_frame_num s;
       last_seen_frame_num := last_seen_frame_num s |}.

(** [cleanup_history_map]: every source is trimmed on its own. *)
Definition cleanup_history_map (st : State) : State :=
  update_source_info (cleanup_source (histories st) <$> source_info st) st.

(** The record of object [oid] of source [pad], through the history map. *)
Definition find_history (st : State) (pad oid : Z) : option nat :=
  source_info st !! pad ≫= λ s, object_history_map s !! oid.

(** ** Events on the sink pad *)

(** Whether [gst_nvinfer_sink_event] waits for the queues to drain. *)
Definition event_waits (nvinfer : GstNvinfercustom) (event : GstEvent)
    : bool :=
  let ignore_serialized_event :=
    match event with GST_EVENT_TAG => true | _ => false end in
  GST_EVENT_IS_SERIALIZED event && negb ignore_serialized_event
  && negb (classifier_async_mode nvinfer).

(** [GstNvinfercustomSourceInfo ()]. *)
Definition new_source_info : GstNvinfercustomSourceInfo :=
  {| object_history_map := ∅; last_cleanup_frame_num := 0;
     last_seen_frame_num := 0 |}.

(** [object_history_map.clear ()]. *)
Definition clear_history_map (s : GstNvinfercustomSourceInfo)
    : GstNvinfercustomSourceInfo :=
  {| object_history_map := ∅;
     last_cleanup_frame_num := last_cleanup_frame_num s;
     last_seen_frame_num := last_seen_frame_num s |}.

(** The part of [gst_nvinfer_sink_event] after the wait: the bookkeeping
    of the sources and of the interval counter.  The key of [source_info]
    is a [gint], the source id of the event a [guint]. *)
Definition sink_event_bookkeeping (event : GstEvent) (st : State) : State :=
  match event with
  | GST_NVEVENT_PAD_ADDED source_id =>
      match source_info st !! s32 source_id with
      | Some _ => st
      | None =>
          set_source_info <[s32 source_id := new_source_info]> st
      end
  | GST_NVEVENT_PAD_DELETED source_id =>
      update_source_info (delete (s32 source_id) (source_info st)) st
  | GST_NVEVENT_STREAM_EOS source_id =>
      match source_info st !! s32 source_id with
      | Some s =>
          update_source_info
            (<[s32 source_id := clear_history_map s]> (source_info st)) st
      | None => st
      end
  | GST_EVENT_EOS => set_interval_counter 0 st
  | _ => st
  end.

(** ** Batch builder *)

(** The frames of the batch metadata of an input buffer.  Every object
    comes with the outcomes of the calls that leave the element while it
    is processed: the buffer pool, the two conversions, and the surface
    transforms of [convert_batch_and_push_to_input_thread]. *)
Record PushEnv := {
  session_params_ok : bool;
  surf_transform_ok : bool
}.

Record ObjectEnv := {
  acquire_buffer : GstFlowReturn;
  acquired_buf : Z;
  buffer_memory : bool;
  converted_mat_ok : bool;
  converted_buffer_ok : bool;
  push_env : PushEnv
}.

Record NvDsFrameMeta := {
  pad_index : Z;
  fm_frame_num : Z;
  batch_id : Z;
  obj_meta_list : list (NvDsObjectMeta * ObjectEnv)
}.

(** An input [GstBuffer]: its handle, its PTS, its batch metadata (if
    any), and the outcome of the transforms of the last, partial batch. *)
Record InputBuffer := {
  buf : Z;
  pts : Z;
  batch_meta : option (list NvDsFrameMeta);
  final_push_env : PushEnv
}.

(** How a call ends: it returns, or [std::out_of_range] leaves it. *)
Inductive Outcome :=
  | Returned (flow_ret : GstFlowReturn)
  | Thrown.

(** The locals of [gst_nvinfer_process_objects] that live across the
    iterations: the batch under construction and the warning flag. *)
Record Locals := {
  batch : option GstNvinfercustomBatch;
  warn_untracked_object : bool
}.

(** One iteration of a loop either goes on or leaves the function. *)
Inductive LoopStep :=
  | Continue (loc : Locals) (st : State)
  | Return (r : Outcome) (st : State).

Fixpoint for_each {A} (body : A -> Locals -> State -> LoopStep)
    (l : list A) (loc : Locals) (st : State) : LoopStep :=
  match l with
  | [] => Continue loc st
  | x :: l' =>
      match body x loc st with
      | Continue loc' st' => for_each body l' loc' st'
      | Return r st' => Return r st'
      end
  end.

(** [convert_batch_and_push_to_input_thread]. *)
Definition convert_batch_and_push_to_input_thread (env : PushEnv)
    (b : GstNvinfercustomBatch) (st : State) : bool * State :=
  if negb (session_params_ok env)
  then (false, report ERROR_transform_failed st)
  else if (0 <? Z.of_nat (length (frames b))) && negb (surf_transform_ok env)
  then (false, report ERROR_transform_failed st)
  else (true, set_input_queue (λ q, q ++ [b]) st).

(** The allocation of a batch when there is none:
    [batch.reset (new GstNvinfercustomBatch)], the fields set by the
    caller, and a conversion buffer from the pool. *)
Definition ensure_batch (inbuf_field : option Z) (env : ObjectEnv)
    (st : State) (b : option GstNvinfercustomBatch)
    : GstNvinfercustomBatch + GstFlowReturn :=
  match b with
  | Some b => inl b
  | None =>
      if decide (acquire_buffer env = GST_FLOW_OK) then
        if buffer_memory env then
          inl {| frames := []; inbuf := inbuf_field;
                 inbuf_batch_num := current_batch_num st;
                 push_buffer := false; event_marker := false;
                 conv_buf := Some (acquired_buf env);
                 objs_pending_meta_attach := [] |}
        else inr GST_FLOW_ERROR
      else inr (acquire_buffer env)
  end.

Definition add_pending (l : nat) (o : NvDsObjectMeta)
    (b : GstNvinfercustomBatch) : GstNvinfercustomBatch :=
  {| frames := frames b; inbuf := inbuf b;
     inbuf_batch_num := inbuf_batch_num b; push_buffer := push_buffer b;
     event_marker := event_marker b; conv_buf := conv_buf b;
     objs_pending_meta_attach := objs_pending_meta_attach b ++ [(l, o)] |}.

Definition add_frame (f : GstNvinfercustomFrame)
    (b : GstNvinfercustomBatch) : GstNvinfercustomBatch :=
  {| frames := frames b ++ [f]; inbuf := inbuf b;
     inbuf_batch_num := inbuf_batch_num b; push_buffer := push_buffer b;
     event_marker := event_marker b; conv_buf := conv_buf b;
     objs_pending_meta_attach := objs_pending_meta_attach b |}.

(** Updates of a history record through a shared pointer. *)
Definition set_last_accessed (n : Z) (h : GstNvinfercustomObjectHistory)
    : GstNvinfercustomObjectHistory :=
  {| under_inference := under_inference h;
     last_inferred_coords := last_inferred_coords h;
     last_inferred_frame_num := last_inferred_frame_num h;
     last_accessed_frame_num := n;
     cached_info := cached_info h |}.

Definition set_submitted (n : Z) (r : NvOSD_RectParams)
    (h : GstNvinfercustomObjectHistory) : GstNvinfercustomObjectHistory :=
  {| under_inference := true;
     last_inferred_coords := r;
     last_inferred_frame_num := n;
     last_accessed_frame_num := n;
     cached_info := cached_info h |}.

Definition set_under_inference (b : bool) (h : GstNvinfercustomObjectHistory)
    : GstNvinfercustomObjectHistory :=
  {| under_inference := b;
     last_inferred_coords := last_inferred_coords h;
     last_inferred_frame_num := last_inferred_frame_num h;
     last_accessed_frame_num := last_accessed_frame_num h;
     cached_info := cached_info h |}.

Definition set_cached_info (i : GstNvinfercustomObjectInfo)
    (h : GstNvinfercustomObjectHistory) : GstNvinfercustomObjectHistory :=
  {| under_inference := under_inference h;
     last_inferred_coords := last_inferred_coords h;
     last_inferred_frame_num := last_inferred_frame_num h;
     last_accessed_frame_num := last_accessed_frame_num h;
     cached_info := i |}.

(** [std::make_shared<GstNvinfercustomObjectHistory> ()]. *)
Definition new_history : GstNvinfercustomObjectHistory :=
  {| under_inference := false;
     last_inferred_coords :=
       {| rect_left := S754_zero false; rect_top := S754_zero false;
          width := S754_zero false; height := S754_zero false |};
     last_inferred_frame_num := 0;
     last_accessed_frame_num := 0;
     cached_info := {| attributes := []; label := EmptyString |} |}.

(** [object_history_map.emplace (object_id, std::make_shared<...> ())] in
    the entry of source [pad], for an object that has no entry. *)
Definition emplace_history (pad oid : Z) (st : State) : nat * State :=
  let l := next_history st in
  (l,
   set_next_history (S l)
     (set_histories <[l := new_history]>
        (set_source_info
           (alter (λ s, {| object_history_map :=
                             <[oid := l]> (object_history_map s);
                           last_cleanup_frame_num := last_cleanup_frame_num s;
                           last_seen_frame_num := last_seen_frame_num s |})
                  pad) st))).

(** The shared pointer found in the history map, with its record. *)
Definition find_object_history (st : State) (pad oid : Z)
    : option (nat * GstNvinfercustomObjectHistory) :=
  find_history st pad oid ≫= λ l, (λ h, (l, h)) <$> histories st !! l.

(** The body of the loop over the objects of a frame of source [pad], in
    four parts: the skip of an untracked object in asynchronous mode, the
    deferred attachment for an object that is not inferred on, the update
    of the history of an object that is, and the addition of its frame to
    the batch. *)
Definition skip_untracked_object (inbuf : InputBuffer) (loc : Locals)
    (st : State) : LoopStep :=
  let st :=
    if warn_untracked_object loc then st
    else if (untracked_object_warn_pts st =? GST_CLOCK_TIME_NONE)
            || (UNTRACKED_OBJECT_WARN_INTERVAL
                  <? u64_sub (pts inbuf) (untracked_object_warn_pts st))
    then set_untracked_object_warn_pts (pts inbuf)
           (report WARN_untracked_objects st)
    else st in
  Continue {| batch := batch loc; warn_untracked_object := true |} st.

Definition defer_object (nvinfer : GstNvinfercustom) (inbuf : InputBuffer)
    (frame_num : Z) (object_meta : NvDsObjectMeta) (env : ObjectEnv)
    (obj_history : option (nat * GstNvinfercustomObjectHistory))
    (loc : Locals) (st : State) : LoopStep :=
  match obj_history with
  | Some (l, _) =>
      if IS_CLASSIFIER_INSTANCE nvinfer
         && negb (classifier_async_mode nvinfer)
      then
        match ensure_batch (Some (buf inbuf)) env st (batch loc) with
        | inr flow_ret => Return (Returned flow_ret) st
        | inl b =>
            Continue
              {| batch := Some (add_pending l object_meta b);
                 warn_untracked_object := warn_untracked_object loc |}
              (set_histories (alter (set_last_accessed frame_num) l) st)
        end
      else Continue loc st
  | None => Continue loc st
  end.

Definition record_submission (nvinfer : GstNvinfercustom) (pad frame_num : Z)
    (object_meta : NvDsObjectMeta)
    (obj_history : option (nat * GstNvinfercustomObjectHistory))
    (st : State) : option nat * State :=
  (* Asynchronous mode: attach the previous results. *)
  let st :=
    match obj_history with
    | Some (l, h) =>
        if classifier_async_mode nvinfer
        then set_histories (alter (set_last_accessed frame_num) l)
               (attach (Attach_classifier (Some object_meta)
                          (cached_info h)) st)
        else st
    | None => st
    end in
  (* A tracked object without history gets an entry in the map. *)
  let '(obj_history, st) :=
    match obj_history with
    | Some (l, _) => (Some l, st)
    | None =>
        if object_id object_meta =? UNTRACKED_OBJECT_ID
        then (None, st)
        else let '(l, st) :=
               emplace_history pad (object_id object_meta) st in
             (Some l, st)
    end in
  (* Update the object history if it is found. *)
  match obj_history with
  | Some l =>
      (obj_history,
       set_histories
         (alter (set_submitted frame_num (rect_params object_meta)) l) st)
  | None => (obj_history, st)
  end.

Definition queue_object (nvinfer : GstNvinfercustom) (inbuf : InputBuffer)
    (frame_meta : NvDsFrameMeta) (frame_num : Z)
    (object_meta : NvDsObjectMeta) (env : ObjectEnv)
    (obj_history : option nat) (loc : Locals) (st : State) : LoopStep :=
  match ensure_batch
          (if classifier_async_mode nvinfer then None
           else Some (buf inbuf)) env st (batch loc) with
  | inr flow_ret => Return (Returned flow_ret) st
  | inl b =>
      if negb (converted_mat_ok env) then
        Continue {| batch := Some b;
                    warn_untracked_object := warn_untracked_object loc |}
                 st
      else if negb (converted_buffer_ok env) then
        Return (Returned GST_FLOW_ERROR)
               (report ERROR_buffer_conversion_failed st)
      else
        let idx := length (frames b) in
        let frame :=
          {| converted_frame_ptr := idx;
             obj_meta := if classifier_async_mode nvinfer then None
                         else Some object_meta;
             frame_num := frame_num;
             batch_index := batch_id frame_meta;
             history := obj_history |} in
        let b := add_frame frame b in
        (* Submit batch if the batch size has reached max_batch_size. *)
        if Z.of_nat (length (frames b)) =? max_batch_size nvinfer then
          match convert_batch_and_push_to_input_thread (push_env env)
                  b st with
          | (false, st) => Return (Returned GST_FLOW_ERROR) st
          | (true, st) =>
              Continue
                {| batch := None;
                   warn_untracked_object := warn_untracked_object loc |}
                st
          end
        else
          Continue
            {| batch := Some b;
               warn_untracked_object := warn_untracked_object loc |}
            st
  end.

Definition process_object (nvinfer : GstNvinfercustom) (inbuf : InputBuffer)
    (frame_meta : NvDsFrameMeta) (pad : Z)
    (item : NvDsObjectMeta * ObjectEnv) (loc : Locals) (st : State)
    : LoopStep :=
  let '(object_meta, env) := item in
  let frame_num := u64 (fm_frame_num frame_meta) in
  (* Cannot infer on untracked objects in asynchronous mode. *)
  if classifier_async_mode nvinfer
     && (object_id object_meta =? UNTRACKED_OBJECT_ID)
  then skip_untracked_object inbuf loc st
  else
    (* Find the object history only when the tracking id is valid. *)
    let obj_history :=
      if object_id object_meta =? UNTRACKED_OBJECT_ID then None
      else find_object_history st pad (object_id object_meta) in
    match should_infer_object nvinfer object_meta frame_num
            (snd <$> obj_history) with
    | None => Return Thrown st
    | Some false =>
        defer_object nvinfer inbuf frame_num object_meta env obj_history
          loc st
    | Some true =>
        let '(obj_history, st) :=
          record_submission nvinfer pad frame_num object_meta obj_history
            st in
        queue_object nvinfer inbuf frame_meta frame_num object_meta env
          obj_history loc st
    end.

(** The body of the loop over the frames of the batch metadata. *)
Definition process_frame (nvinfer : GstNvinfercustom) (inbuf : InputBuffer)
    (frame_meta : NvDsFrameMeta) (loc : Locals) (st : State) : LoopStep :=
  let pad := s32 (pad_index frame_meta) in
  match source_info st !! pad with
  | None =>
      Continue loc
        (report (WARN_source_info_not_found (pad_index frame_meta)) st)
  | Some s =>
      let st :=
        set_source_info
          <[pad := {| object_history_map := object_history_map s;
                      last_cleanup_frame_num := last_cleanup_frame_num s;
                      last_seen_frame_num := u64 (fm_frame_num frame_meta) |}]>
          st in
      for_each (process_object nvinfer inbuf frame_meta pad)
               (obj_meta_list frame_meta) loc st
  end.

(** [gst_nvinfer_process_objects]. *)
Definition gst_nvinfer_process_objects (nvinfer : GstNvinfercustom)
    (inbuf : InputBuffer) (st : State) : Outcome * State :=
  match batch_meta inbuf with
  | None => (Returned GST_FLOW_ERROR, report ERROR_batch_meta_not_found st)
  | Some frame_meta_list =>
      match for_each (process_frame nvinfer inbuf) frame_meta_list
              {| batch := None; warn_untracked_object := false |} st with
      | Return r st => (r, st)
      | Continue loc st =>
          (* Submit a non-full batch. *)
          let pushed :=
            match batch loc with
            | Some b =>
                let st :=
                  if decide (length (frames b) = 0%nat)
                  then release_conv_buf (conv_buf b) st else st in
                convert_batch_and_push_to_input_thread (final_push_env inbuf)
                  b st
            | None => (true, st)
            end in
          match pushed with
          | (false, st) => (Returned GST_FLOW_ERROR, st)
          | (true, st) =>
              let st :=
                if MAP_CLEANUP_INTERVAL
                     <? u64_sub (current_batch_num st)
                          (last_map_cleanup_frame_num st)
                then set_last_map_cleanup_frame_num (current_batch_num st)
                       (cleanup_history_map st)
                else st in
              (Returned GST_FLOW_OK, st)
          end
      end
  end.

(** The outcomes of the calls of [gst_nvinfer_submit_input_buffer] that
    leave the element. *)
Record SubmitEnv := {
  replace_context_ok : bool;
  buffer_map_ok : bool;
  pad_push_ret : GstFlowReturn
}.

(** The report of a failed pad push, made when the result changes. *)
Definition note_pad_push (flow_ret : GstFlowReturn) (st : State) : State :=
  let st :=
    if decide (last_flow_ret st = flow_ret) then st
    else
      match flow_ret with
      | GST_FLOW_ERROR | GST_FLOW_NOT_LINKED | GST_FLOW_NOT_NEGOTIATED =>
          report (ERROR_internal_data_stream flow_ret) st
      | _ => st
      end in
  set_last_flow_ret flow_ret st.

(** The batch that carries the input buffer through the two queues. *)
Definition push_buffer_batch (inbuf : InputBuffer) : GstNvinfercustomBatch :=
  {| frames := []; inbuf := Some (buf inbuf); inbuf_batch_num := 0;
     push_buffer := true; event_marker := false; conv_buf := None;
     objs_pending_meta_attach := [] |}.

(** [gst_nvinfer_submit_input_buffer]. *)
Definition gst_nvinfer_submit_input_buffer (nvinfer : GstNvinfercustom)
    (env : SubmitEnv) (inbuf : InputBuffer) (st : State) : Outcome * State :=
  if negb (replace_context_ok env)
  then (Returned GST_FLOW_ERROR, report ERROR_ensure_next_context_failed st)
  else
    let st := set_current_batch_num (u64 (current_batch_num st + 1)) st in
    if negb (buffer_map_ok env) then (Returned GST_FLOW_ERROR, st)
    else
      match gst_nvinfer_process_objects nvinfer inbuf st with
      | (Thrown, st) => (Thrown, st)
      | (Returned GST_FLOW_ERROR, st) => (Returned GST_FLOW_ERROR, st)
      | (Returned _, st) =>
          if classifier_async_mode nvinfer then
            (* Push the buffer immediately instead of waiting for the
               results. *)
            let st := send_downstream (PushedBuffer (Some (buf inbuf))) st in
            (Returned (pad_push_ret env), note_pad_push (pad_push_ret env) st)
          else
            (* Queue a push buffer batch. *)
            (Returned GST_FLOW_OK,
             set_input_queue (λ q, q ++ [push_buffer_batch inbuf]) st)
      end.

(** The batch [gst_nvinfer_sink_event] queues before it waits:
    [new GstNvinfercustomBatch] with [event_marker = TRUE]. *)
Definition event_marker_batch : GstNvinfercustomBatch :=
  {| frames := []; inbuf := None; inbuf_batch_num := 0;
     push_buffer := false; event_marker := true; conv_buf := None;
     objs_pending_meta_attach := [] |}.

(** [gst_nvinfer_sink_event] up to its wait: for an event that is
    serialised with the buffers, the marker goes to the tail of the input
    queue.  The flag tells whether the caller waits. *)
Definition sink_event_enter (nvinfer : GstNvinfercustom) (event : GstEvent)
    (st : State) : bool * State :=
  if event_waits nvinfer event
  then (true, set_input_queue (λ q, q ++ [event_marker_batch]) st)
  else (false, st).

(** [gst_nvinfer_sink_event] after its wait: the bookkeeping, and the
    sink event handler of the base class, which sends the event on. *)
Definition sink_event_leave (event : GstEvent) (st : State) : State :=
  send_downstream (ForwardedEvent event) (sink_event_bookkeeping event st).

(** ** Input queue thread *)

Inductive NvDsInferStatus :=
  | NVDSINFER_SUCCESS
  | NVDSINFER_ERROR (code : nat).

Global Instance NvDsInferStatus_eq_dec : EqDecision NvDsInferStatus.
Proof. solve_decision. Defined.

(** What a worker does with the batch it popped while it still holds the
    lock: it is done with it, or it keeps it and releases the lock for a
    call that blocks. *)
Inductive Popped :=
  | Finished (b : GstNvinfercustomBatch) (st : State)
  | Held (b : GstNvinfercustomBatch) (st : State).

(** [gst_nvinfer_input_queue_loop], from the head of an iteration to the
    release of the lock ([None]: the queue is empty, the thread waits).
    Push buffer batches, event markers and batches without frames go to
    the process queue at once. *)
Definition input_queue_loop_pop (st : State) : option Popped :=
  match input_queue st with
  | [] => None
  | b :: q =>
      let st := set_input_queue (λ _, q) st in
      if push_buffer b || event_marker b
         || (Z.of_nat (length (frames b)) =? 0)
      then Some (Finished b (set_process_queue (λ p, p ++ [b]) st))
      else Some (Held b st)
  end.

(** The rest of the iteration, with the status of [queueInputBatch]. *)
Definition input_queue_loop_queued (status : NvDsInferStatus)
    (b : GstNvinfercustomBatch) (st : State) : State :=
  if decide (status = NVDSINFER_SUCCESS)
  then set_process_queue (λ p, p ++ [b]) st
  else report ERROR_queue_input_batch_failed st.

(** One whole iteration of [gst_nvinfer_input_queue_loop]. *)
Definition input_queue_loop_iteration (status : NvDsInferStatus)
    (st : State) : State :=
  match input_queue_loop_pop st with
  | None => st
  | Some (Finished _ st) => st
  | Some (Held b st) => input_queue_loop_queued status b st
  end.

(** ** Output thread *)

(** Modelled from the spec: [merge_classification_output] is declared in
    [gstnvinfer_meta_utils.h] and called by the output loop; its body is
    not part of the sources.  The specification gives the rule: the new
    result's attribute is taken for a slot unless the new result leaves
    the slot unset, in which case the previous one is kept.  A slot is an
    [attributeIndex]; it is unset in a result whose attribute vector has
    no attribute of that index.  The label is that of the new result. *)
Definition attribute_slot (info : GstNvinfercustomObjectInfo) (i : nat)
    : option NvDsInferAttribute :=
  find (λ a, attributeIndex a =? i)%nat (attributes info).

Definition slot_unset (info : GstNvinfercustomObjectInfo) (i : nat) : bool :=
  negb (existsb (λ a, attributeIndex a =? i)%nat (attributes info)).

Definition merge_info (cached new_result : GstNvinfercustomObjectInfo)
    : GstNvinfercustomObjectInfo :=
  {| attributes :=
       attributes new_result
       ++ List.filter (λ a, slot_unset new_result (attributeIndex a))
            (attributes cached);
     label := label new_result |}.

Definition merge_classification_output
    (history : GstNvinfercustomObjectHistory)
    (new_result : GstNvinfercustomObjectInfo)
    : GstNvinfercustomObjectHistory :=
  set_cached_info (merge_info (cached_info history) new_result) history.

(** One entry of [NvDsInferContextBatchOutput::frames]. *)
Record NvDsInferFrameOutput := {
  detectionOutput : nat;
  classificationOutput : GstNvinfercustomObjectInfo;
  segmentationOutput : nat
}.

(** The outcomes of the calls of an iteration of the output loop that
    leave the element. *)
Record OutputEnv := {
  pad_push : GstFlowReturn;
  dequeue_status : NvDsInferStatus;
  batch_output : nat -> NvDsInferFrameOutput
}.

(** The attachment of the latest classification of the objects that were
    not inferred on.  [None]: an expired weak pointer is dereferenced. *)
Fixpoint attach_pending (pending : list (nat * NvDsObjectMeta)) (st : State)
    : option State :=
  match pending with
  | [] => Some st
  | (l, o) :: pending' =>
      match histories st !! l with
      | Some h =>
          attach_pending pending'
            (attach (Attach_classifier (Some o) (cached_info h)) st)
      | None => None
      end
  end.

(** The body of the loop over the frames of a batch whose output was
    dequeued. *)
Definition collect_frame (nvinfer : GstNvinfercustom)
    (frame : GstNvinfercustomFrame) (frame_output : NvDsInferFrameOutput)
    (st : State) : State :=
  let obj_history :=
    match history frame with
    | Some l => match histories st !! l with Some _ => Some l | None => None end
    | None => None
    end in
  (* Mark the object as not being inferred if this is its last
     submission. *)
  let st :=
    match obj_history with
    | Some l =>
        set_histories
          (alter (λ h, if last_inferred_frame_num h =? frame_num frame
                       then set_under_inference false h else h) l) st
    | None => st
    end in
  if IS_DETECTOR_INSTANCE nvinfer then
    attach (Attach_detector frame (detectionOutput frame_output)) st
  else if IS_CLASSIFIER_INSTANCE nvinfer then
    let new_info := classificationOutput frame_output in
    let st :=
      match obj_history with
      | Some l =>
          set_histories
            (alter (λ h, merge_classification_output h new_info) l) st
      | None => st
      end in
    let info :=
      match obj_history ≫= λ l, histories st !! l with
      | Some h => cached_info h
      | None => new_info
      end in
    if negb (classifier_async_mode nvinfer)
    then attach (Attach_classifier (obj_meta frame) info) st
    else st
  else if IS_SEGMENTATION_INSTANCE nvinfer then
    attach (Attach_segmentation frame (segmentationOutput frame_output)) st
  else st.

Fixpoint collect_frames (nvinfer : GstNvinfercustom)
    (batch_output : nat -> NvDsInferFrameOutput) (i : nat)
    (fs : list GstNvinfercustomFrame) (st : State) : State :=
  match fs with
  | [] => st
  | frame :: fs' =>
      collect_frames nvinfer batch_output (S i) fs'
        (collect_frame nvinfer frame (batch_output i) st)
  end.

(** [gst_nvinfer_output_loop], from the head of an iteration to the
    release of the lock.  [None]: the queue is empty and the thread
    waits, or an expired weak pointer is dereferenced. *)
Definition output_loop_pop (st : State) : option Popped :=
  match process_queue st with
  | [] => None
  | b :: q =>
      let st := set_process_queue (λ _, q) st in
      if event_marker b then Some (Finished b st)
      else if (Z.of_nat (length (frames b)) =? 0) && negb (push_buffer b)
      then Finished b <$> attach_pending (objs_pending_meta_attach b) st
      else Some (Held b st)
  end.

(** The rest of the iteration: the pad push of a push buffer batch, or
    the dequeue of the output and the attachment of the results.  The
    optional dump of the raw layers and the user callback do not touch the
    state and are left out. *)
Definition output_loop_collect (nvinfer : GstNvinfercustom) (env : OutputEnv)
    (b : GstNvinfercustomBatch) (st : State) : option State :=
  if push_buffer b then
    Some (note_pad_push (pad_push env)
            (send_downstream (PushedBuffer (inbuf b)) st))
  else if decide (dequeue_status env = NVDSINFER_SUCCESS) then
    let st := collect_frames nvinfer (batch_output env) 0 (frames b) st in
    st ← attach_pending (objs_pending_meta_attach b) st;
    Some (if output_tensor_meta nvinfer
             && negb (classifier_async_mode nvinfer)
          then attach (Attach_tensor_output b) st else st)
  else Some (report ERROR_dequeue_output_failed st).

(** One whole iteration of [gst_nvinfer_output_loop]. *)
Definition output_loop_iteration (nvinfer : GstNvinfercustom)
    (env : OutputEnv) (st : State) : option State :=
  match output_loop_pop st with
  | None => None
  | Some (Finished _ st) => Some st
  | Some (Held b st) => output_loop_collect nvinfer env b st
  end.

(** ** The three threads together *)

(** Where the streaming thread is in [gst_nvinfer_sink_event]. *)
Inductive StreamingThread :=
  | Streaming
  | WaitInputQueue (event : GstEvent)
  | WaitProcessQueue (event : GstEvent).

(** The element with its threads.  [submitted] lists the batches in the
    order they were put in the input queue, [collected] those the output
    thread is done with, in the order it finished them, [dropped] those
    the input queue thread gave up. *)
Record System := {
  shared : State;
  input_thread : option GstNvinfercustomBatch;
  output_thread : option GstNvinfercustomBatch;
  streaming_thread : StreamingThread;
  submitted : list GstNvinfercustomBatch;
  collected : list GstNvinfercustomBatch;
  dropped : list GstNvinfercustomBatch
}.

(** The batches inside the element, oldest first. *)
Definition in_progress (s : System) : list GstNvinfercustomBatch :=
  option_list (output_thread s) ++ process_queue (shared s)
  ++ option_list (input_thread s) ++ input_queue (shared s).

(** Batches that pass the input queue thread without a call to the
    inference engine. *)
Definition passes_through (b : GstNvinfercustomBatch) : bool :=
  push_buffer b || event_marker b || (Z.of_nat (length (frames b)) =? 0).

(** The steps of the system.  Every step is one critical section of
    [process_lock], together with the blocking call that precedes it.

    Outside [gst_nvinfer_sink_event] the streaming thread does what
    [gst_nvinfer_submit_input_buffer] may do to the queues, in any number
    of critical sections: it appends batches to the input queue. *)
Inductive step (nvinfer : GstNvinfercustom) : System -> System -> Prop :=
  | step_streaming s st' bs :
      streaming_thread s = Streaming ->
      input_queue st' = input_queue (shared s) ++ bs ->
      process_queue st' = process_queue (shared s) ->
      stop st' = stop (shared s) ->
      step nvinfer s
        {| shared := st'; input_thread := input_thread s;
           output_thread := output_thread s;
           streaming_thread := Streaming;
           submitted := submitted s ++ bs; collected := collected s;
           dropped := dropped s |}
  | step_event_pass s event st' :
      streaming_thread s = Streaming ->
      sink_event_enter nvinfer event (shared s) = (false, st') ->
      step nvinfer s
        {| shared := sink_event_leave event st';
           input_thread := input_thread s;
           output_thread := output_thread s;
           streaming_thread := Streaming;
           submitted := submitted s; collected := collected s;
           dropped := dropped s |}
  | step_event_enter s event st' :
      streaming_thread s = Streaming ->
      sink_event_enter nvinfer event (shared s) = (true, st') ->
      step nvinfer s
        {| shared := st'; input_thread := input_thread s;
           output_thread := output_thread s;
           streaming_thread := WaitInputQueue event;
           submitted := submitted s ++ [event_marker_batch];
           collected := collected s; dropped := dropped s |}
  | step_event_input_queue_empty s event :
      streaming_thread s = WaitInputQueue event ->
      input_queue (shared s) = [] ->
      step nvinfer s
        {| shared := shared s; input_thread := input_thread s;
           output_thread := output_thread s;
           streaming_thread := WaitProcessQueue event;
           submitted := submitted s; collected := collected s;
           dropped := dropped s |}
  | step_event_leave s event :
      streaming_thread s = WaitProcessQueue event ->
      process_queue (shared s) = [] ->
      step nvinfer s
        {| shared := sink_event_leave event (shared s);
           input_thread := input_thread s;
           output_thread := output_thread s;
           streaming_thread := Streaming;
           submitted := submitted s; collected := collected s;
           dropped := dropped s |}
  | step_input_pass s b st' :
      input_thread s = None ->
      stop (shared s) = false ->
      input_queue_loop_pop (shared s) = Some (Finished b st') ->
      step nvinfer s
        {| shared := st'; input_thread := None;
           output_thread := output_thread s;
           streaming_thread := streaming_thread s;
           submitted := submitted s; collected := collected s;
           dropped := dropped s |}
  | step_input_hold s b st' :
      input_thread s = None ->
      stop (shared s) = false ->
      input_queue_loop_pop (shared s) = Some (Held b st') ->
      step nvinfer s
        {| shared := st'; input_thread := Some b;
           output_thread := output_thread s;
           streaming_thread := streaming_thread s;
           submitted := submitted s; collected := collected s;
           dropped := dropped s |}
  | step_input_queued s b status :
      input_thread s = Some b ->
      step nvinfer s
        {| shared := input_queue_loop_queued status b (shared s);
           input_thread := None;
           output_thread := output_thread s;
           streaming_thread := streaming_thread s;
           submitted := submitted s; collected := collected s;
           dropped := if decide (status = NVDSINFER_SUCCESS)
                      then dropped s else dropped s ++ [b] |}
  | step_output_pass s b st' :
      output_thread s = None ->
      stop (shared s) = false ->
      output_loop_pop (shared s) = Some (Finished b st') ->
      step nvinfer s
        {| shared := st'; input_thread := input_thread s;
           output_thread := None;
           streaming_thread := streaming_thread s;
           submitted := submitted s; collected := collected s ++ [b];
           dropped := dropped s |}
  | step_output_hold s b st' :
      output_thread s = None ->
      stop (shared s) = false ->
      output_loop_pop (shared s) = Some (Held b st') ->
      step nvinfer s
        {| shared := st'; input_thread := input_thread s;
           output_thread := Some b;
           streaming_thread := streaming_thread s;
           submitted := submitted s; collected := collected s;
           dropped := dropped s |}
  | step_output_collect s b env st' :
      output_thread s = Some b ->
      output_loop_collect nvinfer env b (shared s) = Some st' ->
      step nvinfer s
        {| shared := st'; input_thread := input_thread s;
           output_thread := None;
           streaming_thread := streaming_thread s;
           submitted := submitted s; collected := collected s ++ [b];
           dropped := dropped s |}.

(** A started element: both queues empty, the threads at the head of
    their loops, nothing submitted yet. *)
Definition started (s : System) : Prop :=
  input_queue (shared s) = [] /\ process_queue (shared s) = []
  /\ input_thread s = None /\ output_thread s = None
  /\ streaming_thread s = Streaming
  /\ submitted s = [] /\ collected s = [] /\ dropped s = [].

Inductive reachable (nvinfer : GstNvinfercustom) : System -> Prop :=
  | reachable_started s : started s -> reachable nvinfer s
  | reachable_step s s' :
      reachable nvinfer s -> step nvinfer s s' -> reachable nvinfer s'.

(** ** Predicates on the batch builder *)

(** A batch as the input queue may hold it. *)
Definition within_max_batch_size (nvinfer : GstNvinfercustom)
    (b : GstNvinfercustomBatch) : Prop :=
  Z.of_nat (length (frames b)) <= max_batch_size nvinfer.

(** The batch under construction has room for one more frame. *)
Definition under_construction (nvinfer : GstNvinfercustom) (loc : Locals)
    : Prop :=
  forall b, batch loc = Some b ->
    Z.of_nat (length (frames b)) < max_batch_size nvinfer.

(** [st'] has the input queue of [st] and more batches, all bounded; the
    process queue and the stop flag are those of [st]. *)
Definition queued_bounded (nvinfer : GstNvinfercustom) (st st' : State)
    : Prop :=
  (exists new, input_queue st' = input_queue st ++ new
               /\ Forall (within_max_batch_size nvinfer) new)
  /\ process_queue st' = process_queue st
  /\ stop st' = stop st.

(** The frames of the batch under construction, if there is one. *)
Definition frames_under_construction (loc : Locals)
    : list GstNvinfercustomFrame :=
  from_option frames [] (batch loc).

(** ** Order of the batches *)

(** The batches the output thread is done with, then those still inside
    the element, oldest first. *)
Definition pipeline (s : System) : list GstNvinfercustomBatch :=
  collected s ++ in_progress s.

(** First in, first out: the batches go through the element in the order
    of their submission; none that passes through without a call of the
    engine is lost; none at all is lost when the engine drops none. *)
Definition fifo_order (s : System) : Prop :=
  sublist (pipeline s) (submitted s)
  /\ List.filter passes_through (pipeline s)
     = List.filter passes_through (submitted s)
  /\ (dropped s = [] -> pipeline s = submitted s).

(** The input queue thread holds a batch only for a call of the engine. *)
Definition engine_call_pending (s : System) : Prop :=
  forall b, input_thread s = Some b -> passes_through b = false.

(** Where the event marker is while the streaming thread waits: at the
    tail of the input queue, at the tail of the process queue with
    nothing behind it, or gone with everything that was before it. *)
Definition marker_pending (s : System) : Prop :=
  (exists q, input_queue (shared s) = q ++ [event_marker_batch])
  \/ (input_queue (shared s) = [] /\ input_thread s = None
      /\ exists q, process_queue (shared s) = q ++ [event_marker_batch])
  \/ (input_queue (shared s) = [] /\ input_thread s = None
      /\ process_queue (shared s) = [] /\ output_thread s = None).

Definition barrier_invariant (s : System) : Prop :=
  match streaming_thread s with
  | Streaming => True
  | WaitInputQueue _ => marker_pending s
  | WaitProcessQueue _ => input_queue (shared s) = [] /\ marker_pending s
  end.

(** ** Schedules *)

(** A schedule is a list of actions; [run] plays it, and gives [None]
    when an action is not enabled. *)
Inductive Action :=
  | Submit (bs : list GstNvinfercustomBatch)
  | Event (event : GstEvent)
  | EventInputQueueEmpty
  | EventLeave
  | InputPop
  | InputQueued (status : NvDsInferStatus)
  | OutputPop
  | OutputCollect (env : OutputEnv).

Definition act (nvinfer : GstNvinfercustom) (a : Action) (s : System)
    : option System :=
  match a with
  | Submit bs =>
      match streaming_thread s with
      | Streaming =>
          Some {| shared := set_input_queue (fun q => q ++ bs) (shared s);
                  input_thread := input_thread s;
                  output_thread := output_thread s;
                  streaming_thread := Streaming;
                  submitted := submitted s ++ bs; collected := collected s;
                  dropped := dropped s |}
      | _ => None
      end
  | Event event =>
      match streaming_thread s with
      | Streaming =>
          match sink_event_enter nvinfer event (shared s) with
          | (true, st') =>
              Some {| shared := st'; input_thread := input_thread s;
                      output_thread := output_thread s;
                      streaming_thread := WaitInputQueue event;
                      submitted := submitted s ++ [event_marker_batch];
                      collected := collected s; dropped := dropped s |}
          | (false, st') =>
              Some {| shared := sink_event_leave event st';
                      input_thread := input_thread s;
                      output_thread := output_thread s;
                      streaming_thread := Streaming;
                      submitted := submitted s; collected := collected s;
                      dropped := dropped s |}
          end
      | _ => None
      end
  | EventInputQueueEmpty =>
      match streaming_thread s, input_queue (shared s) with
      | WaitInputQueue event, [] =>
          Some {| shared := shared s; input_thread := input_thread s;
                  output_thread := output_thread s;
                  streaming_thread := WaitProcessQueue event;
                  submitted := submitted s; collected := collected s;
                  dropped := dropped s |}
      | _, _ => None
      end
  | EventLeave =>
      match streaming_thread s, process_queue (shared s) with
      | WaitProcessQueue event, [] =>
          Some {| shared := sink_event_leave event (shared s);
                  input_thread := input_thread s;
                  output_thread := output_thread s;
                  streaming_thread := Streaming;
                  submitted := submitted s; collected := collected s;
                  dropped := dropped s |}
      | _, _ => None
      end
  | InputPop =>
      match input_thread s, stop (shared s),
            input_queue_loop_pop (shared s) with
      | None, false, Some (Finished b st') =>
          Some {| shared := st'; input_thread := None;
                  output_thread := output_thread s;
                  streaming_thread := streaming_thread s;
                  submitted := submitted s; collected := collected s;
                  dropped := dropped s |}
      | None, false, Some (Held b st') =>
          Some {| shared := st'; input_thread := Some b;
                  output_thread := output_thread s;
                  streaming_thread := streaming_thread s;
                  submitted := submitted s; collected := collected s;
                  dropped := dropped s |}
      | _, _, _ => None
      end
  | InputQueued status =>
      match input_thread s with
      | Some b =>
          Some {| shared := input_queue_loop_queued status b (shared s);
                  input_thread := None;
                  output_thread := output_thread s;
                  streaming_thread := streaming_thread s;
                  submitted := submitted s; collected := collected s;
                  dropped := if decide (status = NVDSINFER_SUCCESS)
                             then dropped s else dropped s ++ [b] |}
      | None => None
      end
  | OutputPop =>
      match output_thread s, stop (shared s),
            output_loop_pop (shared s) with
      | None, false, Some (Finished b st') =>
          Some {| shared := st'; input_thread := input_thread s;
                  output_thread := None;
                  streaming_thread := streaming_thread s;
                  submitted := submitted s; collected := collected s ++ [b];
                  dropped := dropped s |}
      | None, false, Some (Held b st') =>
          Some {| shared := st'; input_thread := input_thread s;
                  output_thread := Some b;
                  streaming_thread := streaming_thread s;
                  submitted := submitted s; collected := collected s;
                  dropped := dropped s |}
      | _, _, _ => None
      end
  | OutputCollect env =>
      match output_thread s with
      | Some b =>
          match output_loop_collect nvinfer env b (shared s) with
          | Some st' =>
              Some {| shared := st'; input_thread := input_thread s;
                      output_thread := None;
                      streaming_thread := streaming_thread s;
                      submitted := submitted s;
                      collected := collected s ++ [b];
                      dropped := dropped s |}
          | None => None
          end
      | None => None
      end
  end.

Fixpoint run (nvinfer : GstNvinfercustom) (schedule : list Action)
    (s : System) : option System :=
  match schedule with
  | [] => Some s
  | a :: schedule' =>
      match act nvinfer a s with
      | Some s' => run nvinfer schedule' s'
      | None => None
      end
  end.

(** ** Concrete data used by the examples *)

(** The scenario of the specification: a classifier with a reinference
    interval of 30 frames, and object 7 inferred at frame 10 with an
    area of 100 pixels. *)
Definition rect_of_size (w h : Z) : NvOSD_RectParams :=
  {| rect_left := f32_of_Z 0; rect_top := f32_of_Z 0;
     width := f32_of_Z w; height := f32_of_Z h |}.

Definition scenario_nvinfer : GstNvinfercustom :=
  {| operate_on_gie_id := -1;
     min_input_object_width := 0; min_input_object_height := 0;
     max_input_object_width := 0; max_input_object_height := 0;
     operate_on_class_ids := [];
     secondary_reinfer_interval := 30;
     networkType := NvDsInferNetworkType_Classifier;
     classifier_async_mode := false;
     max_batch_size := 1;
     output_tensor_meta := false |}.

Definition scenario_object (w h : Z) : NvDsObjectMeta :=
  {| unique_component_id := 1; class_id := 0; object_id := 7;
     rect_params := rect_of_size w h |}.

Definition scenario_history : GstNvinfercustomObjectHistory :=
  {| under_inference := false;
     last_inferred_coords := rect_of_size 10 10;
     last_inferred_frame_num := 10;
     last_accessed_frame_num := 10;
     cached_info := {| attributes := []; label := EmptyString |} |}.


(** A source with two tracked objects, both last seen at frame 100. *)
Definition idle_history (under : bool) : GstNvinfercustomObjectHistory :=
  {| under_inference := under;
     last_inferred_coords := rect_of_size 10 10;
     last_inferred_frame_num := 100;
     last_accessed_frame_num := 100;
     cached_info := {| attributes := []; label := EmptyString |} |}.

Definition stale_source : GstNvinfercustomSourceInfo :=
  {| object_history_map := {[ 7 := 0%nat; 8 := 1%nat ]};
     last_cleanup_frame_num := 0;
     last_seen_frame_num := 2000 |}.

Definition stale_state : State :=
  {| source_info := {[ 0 := stale_source ]};
     histories := {[ 0%nat := idle_history false; 1%nat := idle_history true ]};
     next_history := 2;
     input_queue := []; process_queue := []; stop := false;
     untracked_object_warn_pts := GST_CLOCK_TIME_NONE;
     current_batch_num := 0; last_map_cleanup_frame_num := 0;
     interval_counter := 0; last_flow_ret := GST_FLOW_OK;
     reports := []; attached := []; downstream := [];
     released_conv_bufs := [] |}.

(** A buffer of source 0 at frame 105 with three objects of 10 x 10
    pixels; every call that leaves the element succeeds. *)
Definition calls_succeed : ObjectEnv :=
  {| acquire_buffer := GST_FLOW_OK; acquired_buf := 1;
     buffer_memory := true; converted_mat_ok := true;
     converted_buffer_ok := true;
     push_env := {| session_params_ok := true; surf_transform_ok := true |} |}.

Definition tracked_object (oid : Z) : NvDsObjectMeta :=
  {| unique_component_id := 1; class_id := 0; object_id := oid;
     rect_params := rect_of_size 10 10 |}.

Definition three_objects_buffer : InputBuffer :=
  {| buf := 42; pts := 0;
     batch_meta :=
       Some [ {| pad_index := 0; fm_frame_num := 105; batch_id := 0;
                 obj_meta_list :=
                   [ (tracked_object 7, calls_succeed);
                     (tracked_object 8, calls_succeed);
                     (tracked_object 9, calls_succeed) ] |} ];
     final_push_env :=
       {| session_params_ok := true; surf_transform_ok := true |} |}.

Definition submit_succeeds : SubmitEnv :=
  {| replace_context_ok := true; buffer_map_ok := true;
     pad_push_ret := GST_FLOW_OK |}.

Definition async_nvinfer : GstNvinfercustom :=
  {| operate_on_gie_id := -1;
     min_input_object_width := 0; min_input_object_height := 0;
     max_input_object_width := 0; max_input_object_height := 0;
     operate_on_class_ids := [];
     secondary_reinfer_interval := 30;
     networkType := NvDsInferNetworkType_Classifier;
     classifier_async_mode := true;
     max_batch_size := 1;
     output_tensor_meta := false |}.

Definition no_locals : Locals :=
  {| batch := None; warn_untracked_object := false |}.

Definition untracked_object : NvDsObjectMeta :=
  {| unique_component_id := 1; class_id := 0;
     object_id := UNTRACKED_OBJECT_ID;
     rect_params := rect_of_size 10 10 |}.

Definition plain_frame_meta : NvDsFrameMeta :=
  {| pad_index := 0; fm_frame_num := 105; batch_id := 0;
     obj_meta_list := [] |}.

(** The classifier results of the specification's example: the history
    has "dog" in slot 0, the new result has "cat" in slot 1. *)
Definition dog_attribute : NvDsInferAttribute :=
  {| attributeIndex := 0; attributeValue := 3; attributeLabel := "dog" |}.
Definition cat_attribute : NvDsInferAttribute :=
  {| attributeIndex := 1; attributeValue := 5; attributeLabel := "cat" |}.

Definition dog_history : GstNvinfercustomObjectHistory :=
  {| under_inference := true;
     last_inferred_coords := rect_of_size 10 10;
     last_inferred_frame_num := 100;
     last_accessed_frame_num := 100;
     cached_info := {| attributes := [dog_attribute]; label := "dog" |} |}.

Definition cat_result : GstNvinfercustomObjectInfo :=
  {| attributes := [cat_attribute]; label := "cat" |}.

(** A frame of object 8 of [stale_state], submitted at frame 100. *)
Definition frame_of_object_8 : GstNvinfercustomFrame :=
  {| converted_frame_ptr := 0; obj_meta := Some (tracked_object 8);
     frame_num := 100; batch_index := 0; history := Some 1%nat |}.

Definition cat_output : NvDsInferFrameOutput :=
  {| detectionOutput := 0; classificationOutput := cat_result;
     segmentationOutput := 0 |}.

(** A started element in synchronous mode, and a run of three batches:
    an inference batch with the frame of object 8, the push buffer batch
    of its input buffer, and the marker of an EOS event. *)
Definition inference_batch : GstNvinfercustomBatch :=
  {| frames := [frame_of_object_8]; inbuf := Some 42; inbuf_batch_num := 1;
     push_buffer := false; event_marker := false; conv_buf := Some 1;
     objs_pending_meta_attach := [] |}.

Definition started_system : System :=
  {| shared := stale_state; input_thread := None; output_thread := None;
     streaming_thread := Streaming;
     submitted := []; collected := []; dropped := [] |}.

Definition engine_answers : OutputEnv :=
  {| pad_push := GST_FLOW_OK; dequeue_status := NVDSINFER_SUCCESS;
     batch_output := fun _ => cat_output |}.

Definition three_batches_schedule : list Action :=
  [ Submit [inference_batch; push_buffer_batch three_objects_buffer];
    Event GST_EVENT_EOS;
    InputPop; InputQueued NVDSINFER_SUCCESS; InputPop; InputPop;
    EventInputQueueEmpty;
    OutputPop; OutputCollect engine_answers;
    OutputPop; OutputCollect engine_answers;
    OutputPop ].

(** A state whose input queue holds the inference batch and the push
    buffer batch of the same input buffer. *)
Definition two_batches_queued : State :=
  set_input_queue
    (fun _ => [inference_batch; push_buffer_batch three_objects_buffer])
    stale_state.

(** The reading of the specification under which every serialized event
    is waited for in synchronous mode. *)
Definition all_serialized_events_wait (nvinfer : GstNvinfercustom) : Prop :=
  forall event st,
    GST_EVENT_IS_SERIALIZED event = true ->
    classifier_async_mode nvinfer = false ->
    sink_event_enter nvinfer event st
    = (true, set_input_queue (fun q => q ++ [event_marker_batch]) st).

(** A buffer without PTS that holds one untracked object. *)
Definition untimestamped_buffer : InputBuffer :=
  {| buf := 43; pts := GST_CLOCK_TIME_NONE;
     batch_meta :=
       Some [ {| pad_index := 0; fm_frame_num := 106; batch_id := 0;
                 obj_meta_list := [ (untracked_object, calls_succeed) ] |} ];
     final_push_env :=
       {| session_params_ok := true; surf_transform_ok := true |} |}.

(** The warnings among the reports. *)
Definition untracked_warnings (st : State) : nat :=
  length (List.filter
            (fun r => match r with WARN_untracked_objects => true
                               | _ => false end)
            (reports st)).

(** ** Properties and start of the element *)

From Stdlib Require Import Sorting.Sorted Strings.Ascii.

(** GLib: [G_MAXINT], the largest [gint]. *)
Definition G_MAXINT : Z := 2 ^ 31 - 1.

Definition MIN_INPUT_OBJECT_WIDTH : Z := 16.
Definition MIN_INPUT_OBJECT_HEIGHT : Z := 16.

(** [gst_nvinfer_set_property], case [PROP_OPERATE_ON_CLASS_IDS], from
    the class ids that the loop reads from the string, in the order it
    reads them.  [operate_on_class_ids->at (cid) = TRUE] throws for an id
    that is not an index of the vector ([None]). *)
Definition set_class_id_flag (v : option (list bool)) (cid : Z)
    : option (list bool) :=
  v ← v; _ ← vector_at v cid; Some (<[Z.to_nat cid := true]> v).

(** [max_class_id] is a [gint] that starts at -1; [max_class_id + 1]
    overflows for [G_MAXINT], and no vector of that size is made
    ([None]). *)
Definition set_operate_on_class_ids (class_ids : list Z)
    : option (list bool) :=
  let max_class_id := foldl Z.max (-1) class_ids in
  if decide (max_class_id + 1 <= G_MAXINT)
  then foldl set_class_id_flag
         (Some (replicate (Z.to_nat (max_class_id + 1)) false)) class_ids
  else None.

(** [gst_nvinfer_get_property], case [PROP_OPERATE_ON_CLASS_IDS]: the
    numbers written to the string, each followed by a colon; they are
    the indices [i], from 0 up, with [operate_on_class_ids->at (i)]. *)
Fixpoint class_ids_from (i : nat) (v : list bool) : list Z :=
  match v with
  | [] => []
  | flag :: v' =>
      (if flag then [Z.of_nat i] else []) ++ class_ids_from (S i) v'
  end.

Definition get_operate_on_class_ids (v : list bool) : list Z :=
  class_ids_from 0 v.

(** What [gst_nvinfer_start] does to the settings on its way to
    [return TRUE]: the minimum object size is raised to 16 x 16, and the
    asynchronous mode is turned off unless the element is a classifier
    that works on objects.  [process_full_frame] is the process mode set
    through the property.  The resources, the inference context and the
    two threads it creates are left out. *)
Definition gst_nvinfer_start (process_full_frame : bool)
    (nvinfer : GstNvinfercustom) : GstNvinfercustom :=
  {| operate_on_gie_id := operate_on_gie_id nvinfer;
     min_input_object_width :=
       Z.max MIN_INPUT_OBJECT_WIDTH (min_input_object_width nvinfer);
     min_input_object_height :=
       Z.max MIN_INPUT_OBJECT_HEIGHT (min_input_object_height nvinfer);
     max_input_object_width := max_input_object_width nvinfer;
     max_input_object_height := max_input_object_height nvinfer;
     operate_on_class_ids := operate_on_class_ids nvinfer;
     secondary_reinfer_interval := secondary_reinfer_interval nvinfer;
     networkType := networkType nvinfer;
     classifier_async_mode :=
       if classifier_async_mode nvinfer
       then
         if process_full_frame || negb (IS_CLASSIFIER_INSTANCE nvinfer)
         then false else true
       else false;
     max_batch_size := max_batch_size nvinfer;
     output_tensor_meta := output_tensor_meta nvinfer |}.

(** [gst_nvinfer_generate_output]: the result of the latest pad push. *)
Definition gst_nvinfer_generate_output (st : State) : GstFlowReturn :=
  last_flow_ret st.

(** ** More predicates on the batch builder *)

(** The filters of [should_infer_object] that come before the class
    filter: component id, minimum and maximum size. *)
Definition passes_component_and_size_filters (nvinfer : GstNvinfercustom)
    (obj_meta : NvDsObjectMeta) : bool :=
  negb ((-1 <? operate_on_gie_id nvinfer)
        && negb (unique_component_id obj_meta =? operate_on_gie_id nvinfer))
  && negb (f_lt (width (rect_params obj_meta))
             (f32_of_Z (min_input_object_width nvinfer)))
  && negb (f_lt (height (rect_params obj_meta))
             (f32_of_Z (min_input_object_height nvinfer)))
  && negb ((0 <? max_input_object_width nvinfer)
           && f_gt (width (rect_params obj_meta))
                (f32_of_Z (max_input_object_width nvinfer)))
  && negb ((0 <? max_input_object_height nvinfer)
           && f_gt (height (rect_params obj_meta))
                (f32_of_Z (max_input_object_height nvinfer))).

(** The frames of the batch metadata of a buffer, none without it. *)
Definition frame_meta_list (inbuf : InputBuffer) : list NvDsFrameMeta :=
  default [] (batch_meta inbuf).

(** [object_meta] is an object of a frame of [inbuf]. *)
Definition object_of_buffer (inbuf : InputBuffer)
    (frame_meta : NvDsFrameMeta) (object_meta : NvDsObjectMeta) : Prop :=
  frame_meta ∈ frame_meta_list inbuf
  /\ exists env, (object_meta, env) ∈ obj_meta_list frame_meta.

(** Frame [i] of a batch built for [inbuf]: it uses slot [i] of the
    conversion buffer and stems from an object of a frame of [inbuf]; it
    points to the object unless the mode is asynchronous, in which case
    it has a history to put the result in. *)
Definition frame_built_for (nvinfer : GstNvinfercustom) (inbuf : InputBuffer)
    (i : nat) (f : GstNvinfercustomFrame) : Prop :=
  converted_frame_ptr f = i
  /\ (classifier_async_mode nvinfer = true -> is_Some (history f))
  /\ exists frame_meta object_meta,
       object_of_buffer inbuf frame_meta object_meta
       /\ frame_num f = u64 (fm_frame_num frame_meta)
       /\ batch_index f = batch_id frame_meta
       /\ obj_meta f = (if classifier_async_mode nvinfer then None
                        else Some object_meta).

(** A batch built by [gst_nvinfer_process_objects] for the buffer
    [input] when the batch number is [n]. *)
Definition built_for (nvinfer : GstNvinfercustom) (input : InputBuffer)
    (n : Z) (b : GstNvinfercustomBatch) : Prop :=
  push_buffer b = false /\ event_marker b = false
  /\ is_Some (conv_buf b)
  /\ inbuf b = (if classifier_async_mode nvinfer then None
                else Some (buf input))
  /\ inbuf_batch_num b = n
  /\ (classifier_async_mode nvinfer = true ->
      objs_pending_meta_attach b = [])
  /\ (forall i f, frames b !! i = Some f ->
        frame_built_for nvinfer input i f)
  /\ (forall l o, (l, o) ∈ objs_pending_meta_attach b ->
        exists frame_meta, object_of_buffer input frame_meta o).

(** [st'] has the input queue of [st] and more batches, all built for
    [inbuf] with batch number [n]; nothing went downstream and the batch
    number is still [n]. *)
Definition builds (nvinfer : GstNvinfercustom) (inbuf : InputBuffer)
    (n : Z) (st st' : State) : Prop :=
  (exists new, input_queue st' = input_queue st ++ new
               /\ Forall (built_for nvinfer inbuf n) new)
  /\ downstream st' = downstream st
  /\ current_batch_num st' = n.

(** The batch under construction is built for [inbuf]. *)
Definition building (nvinfer : GstNvinfercustom) (inbuf : InputBuffer)
    (n : Z) (loc : Locals) : Prop :=
  forall b, batch loc = Some b -> built_for nvinfer inbuf n b.

(** What an iteration of the loops of [gst_nvinfer_process_objects]
    keeps. *)
Definition keeps_building (nvinfer : GstNvinfercustom) (inbuf : InputBuffer)
    (n : Z) (st : State) (r : LoopStep) : Prop :=
  match r with
  | Continue loc' st' =>
      building nvinfer inbuf n loc' /\ builds nvinfer inbuf n st st'
  | Return _ st' => builds nvinfer inbuf n st st'
  end.

(** The warnings for the frames of sources without source info. *)
Definition source_info_warnings (frames : list NvDsFrameMeta) : list Report :=
  (fun frame_meta => WARN_source_info_not_found (pad_index frame_meta))
    <$> frames.

(** The attachments of the output thread for the objects that were not
    inferred on, from the records as they are in [hs]. *)
Definition pending_attachments
    (hs : gmap nat GstNvinfercustomObjectHistory)
    (pending : list (nat * NvDsObjectMeta)) : list Attachment :=
  omap (fun p : nat * NvDsObjectMeta =>
          (fun h => Attach_classifier (Some p.2) (cached_info h))
            <$> hs !! p.1)
       pending.

(** ** More concrete data *)

Definition detector_nvinfer : GstNvinfercustom :=
  {| operate_on_gie_id := -1;
     min_input_object_width := 0; min_input_object_height := 0;
     max_input_object_width := 0; max_input_object_height := 0;
     operate_on_class_ids := [];
     secondary_reinfer_interval := 0;
     networkType := NvDsInferNetworkType_Detector;
     classifier_async_mode := false;
     max_batch_size := 4;
     output_tensor_meta := false |}.

(** A classifier that operates on the classes 0 and 2. *)
Definition two_classes_nvinfer : GstNvinfercustom :=
  {| operate_on_gie_id := -1;
     min_input_object_width := 0; min_input_object_height := 0;
     max_input_object_width := 0; max_input_object_height := 0;
     operate_on_class_ids := [true; false; true];
     secondary_reinfer_interval := 30;
     networkType := NvDsInferNetworkType_Classifier;
     classifier_async_mode := false;
     max_batch_size := 1;
     output_tensor_meta := false |}.

Definition object_of_class (cid : Z) : NvDsObjectMeta :=
  {| unique_component_id := 1; class_id := cid; object_id := 7;
     rect_params := rect_of_size 10 10 |}.

(** The first conversion of the object fails. *)
Definition converted_mat_fails : ObjectEnv :=
  {| acquire_buffer := GST_FLOW_OK; acquired_buf := 1;
     buffer_memory := true; converted_mat_ok := false;
     converted_buffer_ok := true;
     push_env := {| session_params_ok := true; surf_transform_ok := true |} |}.

(** A buffer with two frames of sources 3 and 4, unknown to
    [stale_state]. *)
Definition unknown_sources_buffer : InputBuffer :=
  {| buf := 44; pts := 0;
     batch_meta :=
       Some [ {| pad_index := 3; fm_frame_num := 105; batch_id := 0;
                 obj_meta_list := [ (tracked_object 7, calls_succeed) ] |};
              {| pad_index := 4; fm_frame_num := 105; batch_id := 1;
                 obj_meta_list := [] |} ];
     final_push_env :=
       {| session_params_ok := true; surf_transform_ok := true |} |}.

(** A batch that only carries two objects whose cached classification
    is to be attached. *)
Definition pending_only_batch : GstNvinfercustomBatch :=
  {| frames := []; inbuf := Some 42; inbuf_batch_num := 1;
     push_buffer := false; event_marker := false; conv_buf := Some 1;
     objs_pending_meta_attach :=
       [ (0%nat, tracked_object 7); (1%nat, tracked_object 8) ] |}.

Definition dequeue_fails : OutputEnv :=
  {| pad_push := GST_FLOW_OK; dequeue_status := NVDSINFER_ERROR 1;
     batch_output := fun _ => cat_output |}.

Definition push_not_linked : OutputEnv :=
  {| pad_push := GST_FLOW_NOT_LINKED; dequeue_status := NVDSINFER_SUCCESS;
     batch_output := fun _ => cat_output |}.

(** A batch as the builder makes it in asynchronous mode: it holds
    neither the buffer nor the object. *)
Definition async_inference_batch : GstNvinfercustomBatch :=
  {| frames :=
       [ {| converted_frame_ptr := 0; obj_meta := None; frame_num := 100;
            batch_index := 0; history := Some 1%nat |} ];
     inbuf := None; inbuf_batch_num := 1;
     push_buffer := false; event_marker := false; conv_buf := Some 1;
     objs_pending_meta_attach := [] |}.

(** A buffer of source 0 at frame 105 with object 7 only, which
    [stale_state] knows and inferred on at frame 100. *)
Definition reuse_frame_meta : NvDsFrameMeta :=
  {| pad_index := 0; fm_frame_num := 105; batch_id := 0;
     obj_meta_list := [ (tracked_object 7, calls_succeed) ] |}.

Definition reuse_buffer : InputBuffer :=
  {| buf := 45; pts := 0;
     batch_meta := Some [ reuse_frame_meta ];
     final_push_env :=
       {| session_params_ok := true; surf_transform_ok := true |} |}.



(** ** Dump of the layers *)

(** [gst_nvinfer_output_generated_file_write]: the loop that replaces
    ['/'] by ['_'] in the name of a file. *)
Fixpoint replace_slashes (file_name : string) : string :=
  match file_name with
  | EmptyString => EmptyString
  | String c rest =>
      String (if Ascii.eqb c "/" then "_"%char else c) (replace_slashes rest)
  end.

(** The name of the file of a layer, from the text that [g_snprintf]
    formats: the buffer takes 255 characters of it. *)
Definition layer_file_name (formatted : string) : string :=
  replace_slashes (String.substring 0 255 formatted).

(** ** The workers and the lock *)

(** The output thread holds a batch only for a call that blocks: the
    pad push of a push buffer batch, or the dequeue of the output of a
    batch with frames. *)
Definition output_call_pending (s : System) : Prop :=
  forall b, output_thread s = Some b ->
    event_marker b = false /\ (push_buffer b = true \/ frames b <> []).

(** Both workers hold a batch: the input queue thread the inference
    batch, the output thread the push buffer batch before it. *)
Definition workers_busy_schedule : list Action :=
  [ Submit [push_buffer_batch three_objects_buffer; inference_batch];
    InputPop; InputPop; OutputPop ].

(** A batch number, frame number or interval as the element holds it:
    an unsigned 64-bit, resp. 32-bit ([guint]), value. *)
Definition is_u64 (x : Z) : Prop := 0 <= x < 2 ^ 64.
Definition is_guint (x : Z) : Prop := 0 <= x < 2 ^ 32.

(** Source 0 of [stale_state] after a restart of its stream: the last
    cleanup was at frame 90, the objects were last seen at frame 100, and
    the frame numbers start again at 5. *)
Definition restarted_source : GstNvinfercustomSourceInfo :=
  {| object_history_map := {[ 7 := 0%nat; 8 := 1%nat ]};
     last_cleanup_frame_num := 90;
     last_seen_frame_num := 5 |}.

Definition restarted_state : State :=
  set_source_info (fun _ => {[ 0 := restarted_source ]}) stale_state.

(** ** The filter-out class ids property *)

(** Conversion of a [gint] to [uint]. *)
Definition u32 (x : Z) : Z := x mod 2 ^ 32.

(** [std::set<uint>::insert], on the elements in increasing order. *)
Fixpoint set_insert (x : Z) (s : list Z) : list Z :=
  match s with
  | [] => [x]
  | y :: s' =>
      if x <? y then x :: s
      else if x =? y then s
      else y :: set_insert x s'
  end.

(** [gst_nvinfer_set_property], case [PROP_FILTER_OUT_CLASS_IDS], from
    the class ids that the loop reads from the string: the set is
    cleared, and every id is inserted as a [uint]. *)
Definition set_filter_out_class_ids (class_ids : list Z) : list Z :=
  foldl (fun s cid => set_insert (u32 cid) s) [] class_ids.

(** [gst_nvinfer_get_property], case [PROP_FILTER_OUT_CLASS_IDS]: the
    numbers written to the string, each followed by a semicolon, in the
    order of the iteration over the set. *)
Definition get_filter_out_class_ids (s : list Z) : list Z := s.

(** A buffer stamped [t] that holds one untracked object. *)
Definition untracked_buffer_at (t : Z) : InputBuffer :=
  {| buf := 44; pts := t;
     batch_meta :=
       Some [ {| pad_index := 0; fm_frame_num := 107; batch_id := 0;
                 obj_meta_list := [ (untracked_object, calls_succeed) ] |} ];
     final_push_env :=
       {| session_params_ok := true; surf_transform_ok := true |} |}.

(** The input queue thread for as many iterations as [statuses] has
    answers of [queueInputBatch], one answer for each iteration. *)
Fixpoint input_queue_loop_run (statuses : list NvDsInferStatus) (st : State)
    : State :=
  match statuses with
  | [] => st
  | status :: statuses' =>
      input_queue_loop_run statuses' (input_queue_loop_iteration status st)
  end.

(** The output thread for as many iterations as [envs] has outcomes of
    its calls.  [None]: an iteration finds the queue empty, or
    dereferences an expired weak pointer. *)
Fixpoint output_loop_run (nvinfer : GstNvinfercustom) (envs : list OutputEnv)
    (st : State) : option State :=
  match envs with
  | [] => Some st
  | env :: envs' =>
      st' ← output_loop_iteration nvinfer env st;
      output_loop_run nvinfer envs' st'
  end.




(** * Properties *)

(** ** Reinference policy *)

(** The constant of the area test is the [double] next to 1.2, that is
    [0x3FF3333333333333]. *)
Example area_factor_value :
  f64_add (f64_of_Z 1) REINFER_AREA_THRESHOLD
  = S754_finite false 0x13333333333333 (-52).
Proof. reflexivity. Qed.

(** No [double] is nearer to 0.2 than [REINFER_AREA_THRESHOLD]: the error
    is below half a unit in the last place, 2^-56. *)
Example REINFER_AREA_THRESHOLD_nearest :
  match SF2Q REINFER_AREA_THRESHOLD with
  | Some x => ((2 # 10) - Qpower 2 (-56) < x < (2 # 10) + Qpower 2 (-56))%Q
  | None => False
  end.
Proof. vm_compute. split; reflexivity. Qed.


Example scenario_frame_20 :
  should_infer_object scenario_nvinfer (scenario_object 15 7) 20
    (Some scenario_history) = Some false.
Proof. vm_compute. reflexivity. Qed.

Example scenario_frame_41 :
  should_infer_object scenario_nvinfer (scenario_object 15 7) 41
    (Some scenario_history) = Some true.
Proof. vm_compute. reflexivity. Qed.

Example scenario_frame_15 :
  should_infer_object scenario_nvinfer (scenario_object 13 10) 15
    (Some scenario_history) = Some true.
Proof. vm_compute. reflexivity. Qed.

(** With the filters passed, the history decides alone for a classifier. *)
Lemma should_infer_object_filters_passed nvinfer obj_meta frame_num history :
  passes_filters nvinfer obj_meta ->
  should_infer_object nvinfer obj_meta frame_num history =
    match history with
    | Some h =>
        if IS_CLASSIFIER_INSTANCE nvinfer
        then Some (area_grown (last_inferred_coords h) (rect_params obj_meta)
                   || reinfer_interval_elapsed nvinfer frame_num h)
        else Some true
    | None => Some true
    end.
Proof.
  unfold passes_filters, should_infer_object.
  repeat (match goal with
          | |- context [if ?c then Some false else _] => destruct c
          end; [discriminate |]).
  destruct (class_id_excluded nvinfer obj_meta) as [[|]|]; try discriminate.
  intros _. destruct history as [h|]; [|reflexivity].
  destruct (IS_CLASSIFIER_INSTANCE nvinfer); [|reflexivity].
  destruct (area_grown _ _), (reinfer_interval_elapsed _ _ _); reflexivity.
Qed.

(** The comparison of floating-point values is strict: no value is below
    itself. *)
Lemma f_lt_irrefl a : f_lt a a = false.
Proof.
  unfold f_lt, SFltb.
  destruct a as [s|s| |s m e]; simpl;
    try reflexivity; try (destruct s; reflexivity).
  destruct s; rewrite Z.compare_refl, Pos.compare_cont_refl; reflexivity.
Qed.

(** The rule as the specification words it, with the factor 12/10, is the
    rule of the code away from the boundary: at 11 x 10 and at 13 x 10
    pixels after an inference at 10 x 10 the two agree. *)
Example reinfer_rule_as_specified_below :
  reinfer_rule_as_specified scenario_nvinfer (scenario_object 11 10) 15
    scenario_history.
Proof.
  split.
  - vm_compute. discriminate.
  - intros [H|H]; exfalso.
    + vm_compute in H. apply H. reflexivity.
    + vm_compute in H. discriminate.
Qed.

Example reinfer_rule_as_specified_above :
  reinfer_rule_as_specified scenario_nvinfer (scenario_object 13 10) 15
    scenario_history.
Proof.
  split.
  - intros _. left. vm_compute. discriminate.
  - intros _. vm_compute. reflexivity.
Qed.

(** C1 (amended): for a classifier, an object that passes the filters and
    has a history record is inferred again exactly when
    (a) the area at the last inference, a [float] product promoted to
        [double] and multiplied in [double] by the factor
        [1 + REINFER_AREA_THRESHOLD], is strictly below the current area,
        a [float] product promoted to [double]; or
    (b) the frames elapsed since the last inference, an unsigned 64-bit
        difference, exceed the reinference interval;
    and the answer is false otherwise.  The factor is the [double]
    [0x3FF3333333333333], less than half a unit in the last place below
    12/10.  The comparison of (a) is strict: a current area equal to the
    scaled area does not cause a new inference. *)
Theorem should_infer_object_reinfer_rule nvinfer obj_meta frame_num h :
  IS_CLASSIFIER_INSTANCE nvinfer = true ->
  passes_filters nvinfer obj_meta ->
  let last := last_inferred_coords h in
  let cur := rect_params obj_meta in
  let factor := S754_finite false 0x13333333333333 (-52) in
  let scaled_area :=
    SFmul 53 1024
      (f64_of_f32 (SFmul 24 128 (width last) (height last))) factor in
  let area := f64_of_f32 (SFmul 24 128 (width cur) (height cur)) in
  let elapsed := (frame_num - last_inferred_frame_num h) mod 2 ^ 64 in
  SFadd 53 1024 (f64_of_Z 1) REINFER_AREA_THRESHOLD = factor
  /\ match SF2Q factor with
     | Some x => ((12 # 10) - Qpower 2 (-53) < x < 12 # 10)%Q
     | None => False
     end
  /\ (should_infer_object nvinfer obj_meta frame_num (Some h) = Some true
      <-> SFltb scaled_area area = true
          \/ secondary_reinfer_interval nvinfer < elapsed)
  /\ (should_infer_object nvinfer obj_meta frame_num (Some h) = Some false
      <-> SFltb scaled_area area = false
          /\ elapsed <= secondary_reinfer_interval nvinfer)
  /\ (scaled_area = area ->
      elapsed <= secondary_reinfer_interval nvinfer ->
      should_infer_object nvinfer obj_meta frame_num (Some h) = Some false).
Proof.
  intros Hcls Hpass last cur factor scaled_area area elapsed.
  assert (Hgrown : area_grown last cur = SFltb scaled_area area)
    by reflexivity.
  assert (Hrule :
    should_infer_object nvinfer obj_meta frame_num (Some h)
    = Some (SFltb scaled_area area
            || (secondary_reinfer_interval nvinfer <? elapsed))).
  { rewrite (should_infer_object_filters_passed _ _ _ _ Hpass), Hcls.
    fold last cur. rewrite Hgrown. reflexivity. }
  split; [reflexivity |].
  split; [vm_compute; split; reflexivity |].
  rewrite Hrule.
  destruct (Z.ltb_spec (secondary_reinfer_interval nvinfer) elapsed)
    as [Hlt|Hge].
  - rewrite orb_true_r.
    repeat split; intros; try tauto; try discriminate; try lia.
  - rewrite orb_false_r.
    split; [| split].
    + split; [intros [= ->]; by left | intros [->|?]; [done | lia]].
    + split; [intros [= ->]; done | intros [-> _]; done].
    + intros Heq _. rewrite Heq.
      change (SFltb area area) with (f_lt area area).
      by rewrite f_lt_irrefl.
Qed.

Lemma should_infer_object_reinfer_rule_witness :
  IS_CLASSIFIER_INSTANCE scenario_nvinfer = true
  /\ passes_filters scenario_nvinfer (scenario_object 13 10)
  /\ passes_filters scenario_nvinfer (scenario_object 12 10)
  /\ should_infer_object scenario_nvinfer (scenario_object 13 10) 15
       (Some scenario_history) = Some true
  /\ should_infer_object scenario_nvinfer (scenario_object 12 10) 15
       (Some scenario_history) = Some false.
Proof.
  split; [reflexivity | split; [reflexivity | split; [reflexivity | split]]].
  - pose proof (should_infer_object_reinfer_rule scenario_nvinfer
                  (scenario_object 13 10) 15 scenario_history
                  eq_refl eq_refl) as H.
    cbv zeta in H. destruct H as (_ & _ & Htrue & _).
    apply Htrue. left. vm_compute. reflexivity.
  - pose proof (should_infer_object_reinfer_rule scenario_nvinfer
                  (scenario_object 12 10) 15 scenario_history
                  eq_refl eq_refl) as H.
    cbv zeta in H. destruct H as (_ & _ & _ & _ & Hstrict).
    apply Hstrict; [vm_compute; reflexivity | vm_compute; discriminate].
Defined.

(** C1 (as stated) fails: an object of 12 x 10 pixels whose last inference
    was at 10 x 10 has exactly [(1 + 0.2)] times the recorded area, so
    condition (a) of the claim holds, the interval has not elapsed, and
    [should_infer_object] answers false. *)
Lemma reinfer_rule_as_specified_fails :
  IS_CLASSIFIER_INSTANCE scenario_nvinfer = true
  /\ passes_filters scenario_nvinfer (scenario_object 12 10)
  /\ area_at_least_threshold (last_inferred_coords scenario_history)
       (rect_params (scenario_object 12 10))
  /\ should_infer_object scenario_nvinfer (scenario_object 12 10) 15
       (Some scenario_history) = Some false
  /\ ~ reinfer_rule_as_specified scenario_nvinfer (scenario_object 12 10) 15
         scenario_history.
Proof.
  split; [reflexivity | split; [reflexivity |]].
  split; [vm_compute; discriminate |].
  split; [vm_compute; reflexivity |].
  intros [_ H].
  assert (Hs : should_infer_object scenario_nvinfer (scenario_object 12 10) 15
                 (Some scenario_history) = Some true).
  { apply H. left. vm_compute. discriminate. }
  vm_compute in Hs. discriminate.
Qed.

(** ** Object history store *)

Lemma elem_of_history_owners (si : gmap Z GstNvinfercustomSourceInfo) l :
  l ∈ history_owners si <->
  exists pad s oid, si !! pad = Some s /\ object_history_map s !! oid = Some l.
Proof.
  unfold history_owners. rewrite elem_of_union_list. split.
  - intros (X & HX & Hl).
    apply list_elem_of_fmap in HX as (s & -> & Hs).
    apply list_elem_of_fmap in Hs as ([pad s'] & -> & Hps).
    apply elem_of_map_to_list in Hps.
    apply elem_of_map_img in Hl as [oid Hoid]. eauto.
  - intros (pad & s & oid & Hs & Hoid).
    exists (map_img (object_history_map s)). split.
    + apply list_elem_of_fmap. exists s. split; [done|].
      apply list_elem_of_fmap. exists (pad, s). split; [done|].
      by apply elem_of_map_to_list.
    + apply elem_of_map_img. eauto.
Qed.

Lemma release_unowned_owned si hs l :
  l ∈ history_owners si -> release_unowned si hs !! l = hs !! l.
Proof.
  intros Hl. unfold release_unowned. rewrite map_lookup_filter.
  destruct (hs !! l) as [h|]; simpl; [|done].
  by rewrite option_guard_True.
Qed.

Lemma release_unowned_unowned si hs l :
  l ∉ history_owners si -> release_unowned si hs !! l = None.
Proof.
  intros Hl. unfold release_unowned. rewrite map_lookup_filter.
  destruct (hs !! l) as [h|]; simpl; [|done].
  by rewrite option_guard_False.
Qed.

Lemma source_info_update_source_info si st :
  source_info (update_source_info si st) = si.
Proof. reflexivity. Qed.

Lemma histories_update_source_info si st :
  histories (update_source_info si st) = release_unowned si (histories st).
Proof. reflexivity. Qed.

Lemma cleanup_source_lookup hs s oid :
  MAP_CLEANUP_INTERVAL
    <= u64_sub (last_seen_frame_num s) (last_cleanup_frame_num s) ->
  object_history_map (cleanup_source hs s) !! oid =
    match object_history_map s !! oid with
    | Some l =>
        if cleanup_criteria hs (last_seen_frame_num s) l then None else Some l
    | None => None
    end.
Proof.
  intros Hdue. unfold cleanup_source.
  destruct (Z.ltb_spec (u64_sub (last_seen_frame_num s)
                          (last_cleanup_frame_num s)) MAP_CLEANUP_INTERVAL);
    [lia|]. simpl.
  rewrite map_lookup_filter.
  destruct (object_history_map s !! oid) as [l|]; simpl; [|done].
  destruct (cleanup_criteria hs (last_seen_frame_num s) l).
  - by rewrite option_guard_False.
  - by rewrite option_guard_True.
Qed.

(** A record under inference survives [cleanup_source], due or not. *)
Lemma cleanup_source_keeps hs s oid l h :
  object_history_map s !! oid = Some l ->
  hs !! l = Some h ->
  under_inference h = true ->
  object_history_map (cleanup_source hs s) !! oid = Some l.
Proof.
  intros Hoid Hl Hu. unfold cleanup_source.
  destruct (_ <? _); [done|]. simpl.
  apply map_lookup_filter_Some. split; [done|]. simpl.
  unfold cleanup_criteria. by rewrite Hl, Hu.
Qed.

Lemma u64_sub_small a b : 0 <= b <= a -> a < 2 ^ 64 -> u64_sub a b = a - b.
Proof. intros. unfold u64_sub, u64. apply Z.mod_small. lia. Qed.

(** C4: at a cleanup pass over a source (the source is due for it), a
    record that is not under inference and whose last access is more than
    [CLEANUP_ACCESS_CRITERIA] frames behind the last frame seen of the
    source is erased from the history map; a record under inference stays
    in the map, alive and unchanged, however old its last access. *)
Theorem cleanup_history_map_eviction st pad s oid l h :
  source_info st !! pad = Some s ->
  object_history_map s !! oid = Some l ->
  histories st !! l = Some h ->
  (under_inference h = false ->
   MAP_CLEANUP_INTERVAL
     <= u64_sub (last_seen_frame_num s) (last_cleanup_frame_num s) ->
   0 <= last_accessed_frame_num h ->
   last_seen_frame_num s < 2 ^ 64 ->
   last_accessed_frame_num h + CLEANUP_ACCESS_CRITERIA
     < last_seen_frame_num s ->
   find_history (cleanup_history_map st) pad oid = None)
  /\ (under_inference h = true ->
      find_history (cleanup_history_map st) pad oid = Some l
      /\ histories (cleanup_history_map st) !! l = Some h).
Proof.
  intros Hs Hoid Hl. unfold find_history, cleanup_history_map.
  rewrite source_info_update_source_info, histories_update_source_info.
  rewrite lookup_fmap, Hs. simpl. split.
  - intros Hu Hdue Hlo Hhi Hold.
    rewrite cleanup_source_lookup, Hoid by done.
    unfold cleanup_criteria. rewrite Hl, Hu. simpl.
    rewrite u64_sub_small by (unfold CLEANUP_ACCESS_CRITERIA in *; lia).
    destruct (Z.ltb_spec CLEANUP_ACCESS_CRITERIA
                (last_seen_frame_num s - last_accessed_frame_num h));
      [done | lia].
  - intros Hu.
    pose proof (cleanup_source_keeps (histories st) s oid l h Hoid Hl Hu) as Hk.
    split; [done|].
    rewrite release_unowned_owned; [done|].
    apply elem_of_history_owners.
    exists pad, (cleanup_source (histories st) s), oid.
    by rewrite lookup_fmap, Hs.
Qed.

Lemma cleanup_history_map_eviction_witness :
  find_history (cleanup_history_map stale_state) 0 7 = None
  /\ find_history (cleanup_history_map stale_state) 0 8 = Some 1%nat.
Proof.
  split.
  - apply (cleanup_history_map_eviction stale_state 0 stale_source 7 0%nat
             (idle_history false));
      [reflexivity | reflexivity | reflexivity | reflexivity
      | vm_compute; discriminate | vm_compute; discriminate
      | reflexivity | reflexivity].
  - apply (cleanup_history_map_eviction stale_state 0 stale_source 8 1%nat
             (idle_history true));
      [reflexivity | reflexivity | reflexivity | reflexivity].
Defined.

(** No pass, no eviction: a source that is not due keeps its map. *)
Lemma cleanup_source_not_due hs s :
  u64_sub (last_seen_frame_num s) (last_cleanup_frame_num s)
    < MAP_CLEANUP_INTERVAL ->
  cleanup_source hs s = s.
Proof.
  intros H. unfold cleanup_source.
  by destruct (Z.ltb_spec (u64_sub (last_seen_frame_num s)
                  (last_cleanup_frame_num s)) MAP_CLEANUP_INTERVAL); [|lia].
Qed.

(** ** Stream end *)

(** C9: after the stream-EOS event of source [S] no object of [S] has a
    history record any more: the history map of [S] is empty, and a
    record that only this map held is destroyed.  The entry of [S] itself
    stays in [source_info], with its frame counters; no entry is added or
    removed; every other entry is unchanged, the records of the other
    sources stay alive and unchanged, and neither the counters of the
    element nor the queues, the reports and the buffers sent downstream
    change.  For a source id that has no entry nothing changes. *)
Theorem stream_eos_clears_one_source st source_id :
  let st' := sink_event_bookkeeping (GST_NVEVENT_STREAM_EOS source_id) st in
  (forall oid, find_history st' (s32 source_id) oid = None)
  /\ (forall s, source_info st !! s32 source_id = Some s ->
        exists s', source_info st' !! s32 source_id = Some s'
          /\ object_history_map s' = ∅
          /\ last_cleanup_frame_num s' = last_cleanup_frame_num s
          /\ last_seen_frame_num s' = last_seen_frame_num s)
  /\ (forall s oid l, source_info st !! s32 source_id = Some s ->
        object_history_map s !! oid = Some l ->
        (forall pad s' oid', pad <> s32 source_id ->
           source_info st !! pad = Some s' ->
           object_history_map s' !! oid' <> Some l) ->
        histories st' !! l = None)
  /\ (source_info st !! s32 source_id = None -> st' = st)
  /\ (forall pad,
        is_Some (source_info st' !! pad) <-> is_Some (source_info st !! pad))
  /\ (forall pad, pad <> s32 source_id ->
        source_info st' !! pad = source_info st !! pad)
  /\ (forall pad s oid l, pad <> s32 source_id ->
        source_info st !! pad = Some s ->
        object_history_map s !! oid = Some l ->
        find_history st' pad oid = Some l
        /\ histories st' !! l = histories st !! l)
  /\ last_map_cleanup_frame_num st' = last_map_cleanup_frame_num st
  /\ interval_counter st' = interval_counter st
  /\ current_batch_num st' = current_batch_num st
  /\ input_queue st' = input_queue st
  /\ process_queue st' = process_queue st
  /\ reports st' = reports st
  /\ downstream st' = downstream st.
Proof.
  cbv zeta. cbn [sink_event_bookkeeping]. unfold find_history.
  destruct (source_info st !! s32 source_id) as [s|] eqn:Hs.
  - rewrite source_info_update_source_info, histories_update_source_info.
    split; [by intros; rewrite lookup_insert_eq|].
    split.
    { intros s0 [= <-]. rewrite lookup_insert_eq. by eexists. }
    split.
    { intros s0 oid l [= <-] Hoid Hothers.
      apply release_unowned_unowned. rewrite elem_of_history_owners.
      intros (pad & s' & oid' & Hs' & Hoid').
      destruct (decide (pad = s32 source_id)) as [->|Hne].
      - rewrite lookup_insert_eq in Hs'. by injection Hs' as <-.
      - rewrite lookup_insert_ne in Hs' by done.
        by apply (Hothers pad s' oid' Hne Hs'). }
    split; [done|].
    split.
    { intros pad. destruct (decide (pad = s32 source_id)) as [->|Hne].
      - rewrite lookup_insert_eq, Hs. by split; eexists.
      - by rewrite lookup_insert_ne. }
    split; [by intros; rewrite lookup_insert_ne|].
    split; [|done].
    intros pad s' oid l Hne Hs' Hoid.
    rewrite lookup_insert_ne, Hs' by done. split; [done|].
    apply release_unowned_owned, elem_of_history_owners.
    exists pad, s', oid. by rewrite lookup_insert_ne.
  - rewrite Hs. split; [done|]. split; [done|]. split; [done|].
    split; [done|]. split; [done|]. split; [done|].
    split; [|done].
    intros pad s' oid l Hne Hs' Hoid. by rewrite Hs'.
Qed.

(** Objects 7 and 8 of source 0 of [stale_state] lose their records at
    the stream EOS of source 0, and the entry of source 0 remains. *)
Lemma stream_eos_clears_one_source_witness :
  find_history stale_state 0 7 = Some 0%nat
  /\ find_history
       (sink_event_bookkeeping (GST_NVEVENT_STREAM_EOS 0) stale_state) 0 7
     = None
  /\ histories
       (sink_event_bookkeeping (GST_NVEVENT_STREAM_EOS 0) stale_state)
       !! 0%nat = None
  /\ is_Some
       (source_info
          (sink_event_bookkeeping (GST_NVEVENT_STREAM_EOS 0) stale_state)
          !! 0).
Proof.
  pose proof (stream_eos_clears_one_source stale_state 0) as H.
  cbv zeta in H. destruct H as (Hclear & _ & Hdestroyed & _ & Hentry & _).
  split; [reflexivity|].
  split; [exact (Hclear 7)|].
  split.
  - apply (Hdestroyed stale_source 7 0%nat); [reflexivity | reflexivity |].
    intros pad s' oid' Hne Hs'.
    change (source_info stale_state) with
      ({[ 0 := stale_source ]} : gmap Z GstNvinfercustomSourceInfo) in Hs'.
    apply lookup_singleton_Some in Hs' as [<- _]. by destruct Hne.
  - apply Hentry. by eexists.
Defined.

Example stream_eos_entry_remains :
  source_info (sink_event_bookkeeping (GST_NVEVENT_STREAM_EOS 0) stale_state)
    !! 0 = Some {| object_history_map := ∅; last_cleanup_frame_num := 0;
                   last_seen_frame_num := 2000 |}.
Proof. reflexivity. Qed.

(** ** Batch builder: size of the batches *)

Section BatchSize.

Variable nvinfer : GstNvinfercustom.
Hypothesis max_batch_size_pos : 1 <= max_batch_size nvinfer.

Lemma queued_bounded_same st st' :
  input_queue st' = input_queue st ->
  process_queue st' = process_queue st ->
  stop st' = stop st ->
  queued_bounded nvinfer st st'.
Proof.
  intros H Hp Hs. split; [|done]. exists []. by rewrite app_nil_r.
Qed.

Lemma queued_bounded_trans st1 st2 st3 :
  queued_bounded nvinfer st1 st2 -> queued_bounded nvinfer st2 st3 ->
  queued_bounded nvinfer st1 st3.
Proof.
  intros [(n1 & H1 & F1) [Hp1 Hs1]] [(n2 & H2 & F2) [Hp2 Hs2]].
  split; [|split; congruence]. exists (n1 ++ n2).
  split; [by rewrite H2, H1, app_assoc | by apply Forall_app].
Qed.

Lemma convert_batch_and_push_queued env b st :
  within_max_batch_size nvinfer b ->
  queued_bounded nvinfer st (convert_batch_and_push_to_input_thread env b st).2.
Proof.
  intros Hb. unfold convert_batch_and_push_to_input_thread.
  repeat case_match; simpl; try by apply queued_bounded_same.
  split; [|done]. exists [b]. split; [done | by constructor].
Qed.

Lemma ensure_batch_under_construction inbuf_field env st loc b :
  under_construction nvinfer loc ->
  ensure_batch inbuf_field env st (batch loc) = inl b ->
  Z.of_nat (length (frames b)) < max_batch_size nvinfer.
Proof using max_batch_size_pos.
  intros Hloc. unfold ensure_batch.
  destruct (batch loc) as [b0|] eqn:Hb0.
  - intros [= <-]. by apply Hloc.
  - repeat case_match; intros [= <-]; simpl; lia.
Qed.

Lemma emplace_history_input_queue pad oid st :
  input_queue (emplace_history pad oid st).2 = input_queue st.
Proof. reflexivity. Qed.

Lemma skip_untracked_object_bounded inbuf loc st :
  under_construction nvinfer loc ->
  match skip_untracked_object inbuf loc st with
  | Continue loc' st' =>
    under_construction nvinfer loc' /\ queued_bounded nvinfer st st'
  | Return _ st' => queued_bounded nvinfer st st'
  end.
Proof.
  intros Hloc. unfold skip_untracked_object.
  split; [intros b; simpl; apply Hloc |].
  apply queued_bounded_same; by repeat case_match.
Qed.

Lemma defer_object_bounded inbuf frame_num object_meta env found loc st :
  under_construction nvinfer loc ->
  match defer_object nvinfer inbuf frame_num object_meta env found loc st with
  | Continue loc' st' =>
    under_construction nvinfer loc' /\ queued_bounded nvinfer st st'
  | Return _ st' => queued_bounded nvinfer st st'
  end.
Proof using max_batch_size_pos.
  intros Hloc. unfold defer_object.
  destruct found as [[l h]|];
    [|split; [done | by apply queued_bounded_same]].
  destruct (IS_CLASSIFIER_INSTANCE nvinfer
            && negb (classifier_async_mode nvinfer));
    [|split; [done | by apply queued_bounded_same]].
  destruct (ensure_batch _ env st (batch loc)) as [b|flow_ret] eqn:Hens;
    [|by apply queued_bounded_same].
  split; [|by apply queued_bounded_same].
  intros b' [= <-]. simpl.
  eapply ensure_batch_under_construction; eauto.
Qed.

Lemma record_submission_queues pad frame_num object_meta found st :
  input_queue (record_submission nvinfer pad frame_num object_meta found st).2
  = input_queue st
  /\ process_queue
       (record_submission nvinfer pad frame_num object_meta found st).2
     = process_queue st
  /\ stop (record_submission nvinfer pad frame_num object_meta found st).2
     = stop st.
Proof.
  unfold record_submission. destruct found as [[l h]|]; simpl.
  - by destruct (classifier_async_mode nvinfer).
  - by destruct (object_id object_meta =? UNTRACKED_OBJECT_ID).
Qed.

Lemma queue_object_bounded inbuf frame_meta frame_num object_meta env
    obj_history loc st :
  under_construction nvinfer loc ->
  match queue_object nvinfer inbuf frame_meta frame_num object_meta env
          obj_history loc st with
  | Continue loc' st' =>
    under_construction nvinfer loc' /\ queued_bounded nvinfer st st'
  | Return _ st' => queued_bounded nvinfer st st'
  end.
Proof using max_batch_size_pos.
  intros Hloc. unfold queue_object.
  destruct (ensure_batch _ env st (batch loc)) as [b|flow_ret] eqn:Hens;
    [|by apply queued_bounded_same].
  pose proof (ensure_batch_under_construction _ _ _ _ _ Hloc Hens) as Hb.
  destruct (converted_mat_ok env); simpl;
    [|split; [by intros b' [= <-] | by apply queued_bounded_same]].
  destruct (converted_buffer_ok env); simpl;
    [|by apply queued_bounded_same].
  rewrite length_app. simpl.
  destruct (Z.eqb_spec (Z.of_nat (length (frames b) + 1))
              (max_batch_size nvinfer)) as [Hfull|Hroom].
  - match goal with
    | |- context [convert_batch_and_push_to_input_thread ?e ?bb ?s] =>
        pose proof (convert_batch_and_push_queued e bb s) as Hpush;
        destruct (convert_batch_and_push_to_input_thread e bb s)
          as [[|] st2]
    end; simpl in Hpush.
    + split; [by intros b' [=] |]. apply Hpush.
      unfold within_max_batch_size. simpl. rewrite length_app. simpl. lia.
    + apply Hpush.
      unfold within_max_batch_size. simpl. rewrite length_app. simpl. lia.
  - split; [|by apply queued_bounded_same].
    intros b' [= <-]. simpl. rewrite length_app. simpl. lia.
Qed.

(** One object: the batch under construction stays below the maximum,
    and what is queued is bounded. *)
Lemma process_object_bounded inbuf frame_meta pad item loc st :
  under_construction nvinfer loc ->
  match process_object nvinfer inbuf frame_meta pad item loc st with
  | Continue loc' st' =>
    under_construction nvinfer loc' /\ queued_bounded nvinfer st st'
  | Return _ st' => queued_bounded nvinfer st st'
  end.
Proof using max_batch_size_pos.
  intros Hloc. unfold process_object. destruct item as [object_meta env].
  destruct (classifier_async_mode nvinfer
            && (object_id object_meta =? UNTRACKED_OBJECT_ID)).
  { by apply skip_untracked_object_bounded. }
  set (found := if object_id object_meta =? UNTRACKED_OBJECT_ID then None
                else find_object_history st pad (object_id object_meta)).
  destruct (should_infer_object nvinfer object_meta _ (snd <$> found))
    as [[|]|]; [| |by apply queued_bounded_same].
  - pose proof (record_submission_queues pad
                  (u64 (fm_frame_num frame_meta)) object_meta found st)
      as (Hq & Hpq & Hstop).
    destruct (record_submission nvinfer pad _ object_meta found st)
      as [obj_history st1]. simpl in Hq, Hpq, Hstop.
    pose proof (queue_object_bounded inbuf frame_meta
                  (u64 (fm_frame_num frame_meta)) object_meta env
                  obj_history loc st1 Hloc) as Hqueue.
    destruct (queue_object nvinfer inbuf frame_meta _ object_meta env
                obj_history loc st1) as [loc' st'|r st'].
    + destruct Hqueue as [Hloc' Hqueue]. split; [done|].
      eapply queued_bounded_trans; [by apply queued_bounded_same | done].
    + eapply queued_bounded_trans; [by apply queued_bounded_same | done].
  - by apply defer_object_bounded.
Qed.

(** A loop whose body keeps the two properties keeps them. *)
Lemma for_each_bounded {A} (body : A -> Locals -> State -> LoopStep) l :
  (forall x loc st, under_construction nvinfer loc ->
     match body x loc st with
     | Continue loc' st' =>
    under_construction nvinfer loc' /\ queued_bounded nvinfer st st'
     | Return _ st' => queued_bounded nvinfer st st'
     end) ->
  forall loc st, under_construction nvinfer loc ->
    match for_each body l loc st with
    | Continue loc' st' =>
    under_construction nvinfer loc' /\ queued_bounded nvinfer st st'
    | Return _ st' => queued_bounded nvinfer st st'
    end.
Proof.
  intros Hbody. induction l as [|x l IH]; intros loc st Hloc; simpl.
  - split; [done | by apply queued_bounded_same].
  - specialize (Hbody x loc st Hloc).
    destruct (body x loc st) as [loc1 st1|r st1]; [|done].
    destruct Hbody as [Hloc1 Hq1]. specialize (IH loc1 st1 Hloc1).
    destruct (for_each body l loc1 st1) as [loc2 st2|r st2].
    + destruct IH. split; [done|]. by eapply queued_bounded_trans.
    + by eapply queued_bounded_trans.
Qed.

Lemma process_frame_bounded inbuf frame_meta loc st :
  under_construction nvinfer loc ->
  match process_frame nvinfer inbuf frame_meta loc st with
  | Continue loc' st' =>
    under_construction nvinfer loc' /\ queued_bounded nvinfer st st'
  | Return _ st' => queued_bounded nvinfer st st'
  end.
Proof using max_batch_size_pos.
  intros Hloc. unfold process_frame.
  destruct (source_info st !! s32 (pad_index frame_meta)) as [s|];
    [|split; [done | by apply queued_bounded_same]].
  match goal with
  | |- context [for_each ?body ?l loc ?s] =>
      pose proof (for_each_bounded body l
                    (process_object_bounded inbuf frame_meta _)
                    loc s Hloc) as Hloop;
      destruct (for_each body l loc s) as [loc' st'|r st']
  end.
  - destruct Hloop. split; [done|].
    eapply queued_bounded_trans; [by apply queued_bounded_same | done].
  - eapply queued_bounded_trans; [by apply queued_bounded_same | done].
Qed.

Lemma gst_nvinfer_process_objects_bounded inbuf st :
  queued_bounded nvinfer st (gst_nvinfer_process_objects nvinfer inbuf st).2.
Proof using max_batch_size_pos.
  unfold gst_nvinfer_process_objects.
  destruct (batch_meta inbuf) as [frame_meta_list|];
    [|by apply queued_bounded_same].
  pose proof (for_each_bounded (process_frame nvinfer inbuf) frame_meta_list
                (process_frame_bounded inbuf)
                {| batch := None; warn_untracked_object := false |} st
                ltac:(by intros b)) as Hloop.
  destruct (for_each _ frame_meta_list _ st) as [loc st1|r st1]; [|done].
  destruct Hloop as [Hloc Hq].
  eapply queued_bounded_trans; [done|].
  destruct (batch loc) as [b|] eqn:Hb.
  - match goal with
    | |- context [convert_batch_and_push_to_input_thread ?e b ?s] =>
        pose proof (convert_batch_and_push_queued e b s) as Hpush;
        destruct (convert_batch_and_push_to_input_thread e b s)
          as [[|] st2]
    end; simpl in *.
    + eapply queued_bounded_trans;
        [|eapply queued_bounded_trans;
          [apply Hpush; specialize (Hloc b Hb);
           unfold within_max_batch_size; lia|]];
        apply queued_bounded_same; by repeat case_match.
    + eapply queued_bounded_trans;
        [|apply Hpush; specialize (Hloc b Hb);
          unfold within_max_batch_size; lia].
      apply queued_bounded_same; by repeat case_match.
  - simpl. apply queued_bounded_same; by repeat case_match.
Qed.

Lemma gst_nvinfer_submit_input_buffer_bounded env inbuf st :
  queued_bounded nvinfer st
    (gst_nvinfer_submit_input_buffer nvinfer env inbuf st).2.
Proof using max_batch_size_pos.
  unfold gst_nvinfer_submit_input_buffer.
  destruct (replace_context_ok env); simpl;
    [|by apply queued_bounded_same].
  destruct (buffer_map_ok env); simpl; [|by apply queued_bounded_same].
  match goal with
  | |- context [gst_nvinfer_process_objects nvinfer inbuf ?s] =>
      pose proof (gst_nvinfer_process_objects_bounded inbuf s) as Hp;
      destruct (gst_nvinfer_process_objects nvinfer inbuf s) as [r st1]
  end. simpl in Hp.
  eapply queued_bounded_trans; [by apply queued_bounded_same |].
  eapply queued_bounded_trans; [exact Hp |].
  destruct r as [[]|]; simpl; try by apply queued_bounded_same.
  all: destruct (classifier_async_mode nvinfer); simpl;
    [apply queued_bounded_same; unfold note_pad_push;
     by repeat case_match |].
  all: split; [|done]; exists [push_buffer_batch inbuf]; split; [done|];
    constructor; [|done]; unfold within_max_batch_size; simpl; lia.
Qed.

(** C3: every batch that [gst_nvinfer_submit_input_buffer] puts in the
    input queue has at most [max_batch_size] frames: while the batch is
    built its size stays below the maximum, and it is queued when the
    size reaches it.  The objects deferred for the attachment of their
    cached result do not change the frames of the batch.  The maximum is
    at least 1, as the batch-size property requires. *)
Theorem submit_input_buffer_batches_bounded env inbuf st :
  queued_bounded nvinfer st
    (gst_nvinfer_submit_input_buffer nvinfer env inbuf st).2
  /\ (forall frame_meta pad item loc st0 loc' st',
        under_construction nvinfer loc ->
        process_object nvinfer inbuf frame_meta pad item loc st0
          = Continue loc' st' ->
        under_construction nvinfer loc')
  /\ (forall frame_num object_meta oenv found loc st0 loc' st',
        defer_object nvinfer inbuf frame_num object_meta oenv found loc st0
          = Continue loc' st' ->
        frames_under_construction loc' = frames_under_construction loc).
Proof using max_batch_size_pos.
  split; [apply gst_nvinfer_submit_input_buffer_bounded | split].
  - intros frame_meta pad item loc st0 loc' st' Hloc Heq.
    pose proof (process_object_bounded inbuf frame_meta pad item loc st0
                  Hloc) as H.
    rewrite Heq in H. tauto.
  - intros frame_num object_meta oenv found loc st0 loc' st'.
    unfold defer_object, frames_under_construction, ensure_batch.
    destruct found as [[l h]|]; [|by intros [= <- <-]].
    destruct (IS_CLASSIFIER_INSTANCE nvinfer
              && negb (classifier_async_mode nvinfer));
      [|by intros [= <- <-]].
    destruct (batch loc) as [b|]; simpl; [by intros [= <- <-]|].
    repeat case_match; intros ?; by simplify_eq.
Qed.

End BatchSize.

Lemma submit_input_buffer_batches_bounded_witness :
  queued_bounded scenario_nvinfer stale_state
    (gst_nvinfer_submit_input_buffer scenario_nvinfer submit_succeeds
       three_objects_buffer stale_state).2.
Proof.
  apply (submit_input_buffer_batches_bounded scenario_nvinfer
           ltac:(vm_compute; discriminate) submit_succeeds
           three_objects_buffer stale_state).
Defined.

(** With a maximum of one frame: two objects deferred and one inferred on
    make one batch of one frame with two deferred entries, followed by the
    push buffer batch. *)
Example deferred_entries_do_not_count :
  (λ b, (length (frames b), length (objs_pending_meta_attach b),
         push_buffer b))
    <$> input_queue
          (gst_nvinfer_submit_input_buffer scenario_nvinfer submit_succeeds
             three_objects_buffer stale_state).2
  = [ (1%nat, 2%nat, false); (0%nat, 0%nat, true) ].
Proof. vm_compute. reflexivity. Qed.

(** ** Untracked objects in asynchronous mode *)

(** C10: the warning about untracked objects is to come once per warn
    interval, as the claim says and as the comments of the source say
    (/Warn periodically about untracked objects in the metadata/, /Warn
    about untracked objects in async mode every 5 minutes/).  The code
    does not keep to it.  Two buffers without PTS, one after the other,
    each with an untracked object, give two warnings, although no warn
    interval lies between them: the first warning records
    [GST_CLOCK_TIME_NONE], the PTS of its buffer, which is also the value
    that stands for /no warning yet/. *)
Lemma untracked_warning_repeats_without_pts :
  classifier_async_mode async_nvinfer = true
  /\ u64_sub (pts untimestamped_buffer) (pts untimestamped_buffer)
     <= UNTRACKED_OBJECT_WARN_INTERVAL
  /\ untracked_warnings stale_state = 0%nat
  /\ untracked_warnings
       (gst_nvinfer_process_objects async_nvinfer untimestamped_buffer
          stale_state).2 = 1%nat
  /\ untracked_warnings
       (gst_nvinfer_process_objects async_nvinfer untimestamped_buffer
          (gst_nvinfer_process_objects async_nvinfer untimestamped_buffer
             stale_state).2).2 = 2%nat.
Proof. repeat split; vm_compute; congruence. Qed.

(** The difference of the two PTS is unsigned: a buffer stamped one second
    before the recorded warning is taken to be far after it, and warns
    again. *)
Example untracked_warning_repeats_when_pts_goes_back :
  let st1 :=
    (gst_nvinfer_process_objects async_nvinfer
       (untracked_buffer_at (10 * GST_SECOND)) stale_state).2 in
  let st2 :=
    (gst_nvinfer_process_objects async_nvinfer
       (untracked_buffer_at (9 * GST_SECOND)) st1).2 in
  untracked_object_warn_pts st1 = 10 * GST_SECOND
  /\ untracked_warnings st1 = 1%nat
  /\ untracked_warnings st2 = 2%nat.
Proof. repeat split; vm_compute; congruence. Qed.

(** X29: in asynchronous mode an object with the untracked id is skipped:
    the loop goes on with the batch under construction as it was, and the
    queues, the history maps and records, the attached metadata and the
    buffers sent downstream are as before.  The one effect is the warning.
    It is given at most once per buffer, and it records the PTS of the
    buffer.  When the time recorded is not [GST_CLOCK_TIME_NONE] and the
    unsigned 64-bit difference between the PTS of the buffer and the time
    recorded is at most [UNTRACKED_OBJECT_WARN_INTERVAL], no warning is
    given. *)
Theorem untracked_object_skipped nvinfer inbuf frame_meta pad object_meta env
    loc st :
  classifier_async_mode nvinfer = true ->
  object_id object_meta = UNTRACKED_OBJECT_ID ->
  exists st',
    process_object nvinfer inbuf frame_meta pad (object_meta, env) loc st
      = Continue {| batch := batch loc; warn_untracked_object := true |} st'
    /\ input_queue st' = input_queue st
    /\ process_queue st' = process_queue st
    /\ source_info st' = source_info st
    /\ histories st' = histories st
    /\ next_history st' = next_history st
    /\ attached st' = attached st
    /\ downstream st' = downstream st
    /\ ((reports st' = reports st
         /\ untracked_object_warn_pts st' = untracked_object_warn_pts st)
        \/ (reports st' = reports st ++ [WARN_untracked_objects]
            /\ untracked_object_warn_pts st' = pts inbuf))
    /\ (warn_untracked_object loc = true -> reports st' = reports st)
    /\ (untracked_object_warn_pts st <> GST_CLOCK_TIME_NONE ->
        u64_sub (pts inbuf) (untracked_object_warn_pts st)
          <= UNTRACKED_OBJECT_WARN_INTERVAL ->
        reports st' = reports st).
Proof.
  intros Hasync Hid. unfold process_object.
  rewrite Hasync, Hid, Z.eqb_refl. simpl. unfold skip_untracked_object.
  eexists. split; [reflexivity|].
  destruct (warn_untracked_object loc).
  { repeat split; try done. by left. }
  destruct (Z.eqb_spec (untracked_object_warn_pts st) GST_CLOCK_TIME_NONE)
    as [Hnone|Hsome]; simpl.
  { repeat split; try done. by right. }
  destruct (Z.ltb_spec UNTRACKED_OBJECT_WARN_INTERVAL
              (u64_sub (pts inbuf) (untracked_object_warn_pts st)))
    as [Hlt|Hge].
  - repeat split; try done; [by right | lia].
  - repeat split; try done. by left.
Qed.

Lemma untracked_object_skipped_witness :
  exists st',
    process_object async_nvinfer three_objects_buffer plain_frame_meta 0
      (untracked_object, calls_succeed) no_locals stale_state
      = Continue {| batch := None; warn_untracked_object := true |} st'
    /\ input_queue st' = []
    /\ histories st' = histories stale_state.
Proof.
  destruct (untracked_object_skipped async_nvinfer three_objects_buffer
              plain_frame_meta 0 untracked_object calls_succeed no_locals
              stale_state eq_refl eq_refl)
    as (st' & Hstep & Hiq & _ & _ & Hh & _).
  exists st'. split; [exact Hstep | split; [exact Hiq | exact Hh]].
Defined.

(** ** Collection of the results *)



(** A frame whose record is gone changes no record. *)
Lemma collect_frame_expired nvinfer frame frame_output st :
  lock st (history frame) = None ->
  histories (collect_frame nvinfer frame frame_output st) = histories st.
Proof.
  unfold lock, collect_frame. intros Hlock.
  destruct (history frame) as [l|]; simpl in *; [rewrite Hlock|];
    by repeat case_match.
Qed.

(** The frame of an earlier submission leaves the flag set. *)
Example collect_frame_superseded :
  under_inference
    <$> histories
          (collect_frame scenario_nvinfer
             {| converted_frame_ptr := 0; obj_meta := None; frame_num := 90;
                batch_index := 0; history := Some 1%nat |}
             cat_output stale_state) !! 1%nat
  = Some true.
Proof. vm_compute. reflexivity. Qed.

(** ** Merge of classifier results *)

Lemma find_app_index {A} (f : A -> bool) (l1 l2 : list A) :
  find f (l1 ++ l2)
  = match find f l1 with Some a => Some a | None => find f l2 end.
Proof. induction l1 as [|a l1 IH]; simpl; [done|]. by destruct (f a). Qed.

Lemma find_none_existsb {A} (f : A -> bool) (l : list A) :
  find f l = None <-> existsb f l = false.
Proof.
  induction l as [|a l IH]; simpl; [done|].
  destruct (f a); simpl; [split; discriminate | done].
Qed.

Lemma find_filter_index (p : nat -> bool) (l : list NvDsInferAttribute) i :
  p i = true ->
  find (fun a => attributeIndex a =? i)%nat
       (List.filter (fun a => p (attributeIndex a)) l)
  = find (fun a => attributeIndex a =? i)%nat l.
Proof.
  intros Hp. induction l as [|a l IH]; simpl; [done|].
  destruct (Nat.eqb_spec (attributeIndex a) i) as [Heq|Hne].
  - rewrite Heq, Hp. simpl. by rewrite Heq, Nat.eqb_refl.
  - destruct (p (attributeIndex a)); simpl; [|done].
    by destruct (Nat.eqb_spec (attributeIndex a) i).
Qed.

(** C8: after the merge, every attribute slot holds the attribute of the
    new result, or, when the new result leaves the slot unset, the one
    cached before; so a new result with only "cat" in slot 1 merged into a
    history with only "dog" in slot 0 gives "dog" in slot 0 and "cat" in
    slot 1. *)
Theorem merge_classification_output_slots history new_result i :
  attribute_slot (cached_info (merge_classification_output history new_result))
    i
  = match attribute_slot new_result i with
    | Some a => Some a
    | None => attribute_slot (cached_info history) i
    end
  /\ attribute_slot
       (cached_info (merge_classification_output dog_history cat_result)) 0
     = Some dog_attribute
  /\ attribute_slot
       (cached_info (merge_classification_output dog_history cat_result)) 1
     = Some cat_attribute.
Proof.
  split; [|split; reflexivity].
  unfold merge_classification_output, attribute_slot. simpl.
  rewrite find_app_index.
  destruct (find _ (attributes new_result)) as [a|] eqn:Hnew; [done|].
  apply find_filter_index with (p := slot_unset new_result).
  unfold slot_unset. apply find_none_existsb in Hnew. by rewrite Hnew.
Qed.

(** ** The two queues *)

Lemma input_queue_loop_pop_spec st p :
  input_queue_loop_pop st = Some p ->
  exists b q,
    input_queue st = b :: q
    /\ match p with
       | Finished b' st' =>
           b' = b /\ passes_through b = true
           /\ input_queue st' = q
           /\ process_queue st' = process_queue st ++ [b]
           /\ stop st' = stop st
       | Held b' st' =>
           b' = b /\ passes_through b = false
           /\ input_queue st' = q
           /\ process_queue st' = process_queue st
           /\ stop st' = stop st
       end.
Proof.
  unfold input_queue_loop_pop, passes_through.
  destruct (input_queue st) as [|b q]; [discriminate|].
  destruct (push_buffer b || event_marker b || _) eqn:Hpass;
    intros [= <-]; exists b, q; by repeat split.
Qed.

Lemma input_queue_loop_queued_spec status b st :
  input_queue (input_queue_loop_queued status b st) = input_queue st
  /\ stop (input_queue_loop_queued status b st) = stop st
  /\ process_queue (input_queue_loop_queued status b st)
     = if decide (status = NVDSINFER_SUCCESS)
       then process_queue st ++ [b] else process_queue st.
Proof. unfold input_queue_loop_queued. by destruct (decide _). Qed.

Lemma attach_pending_queues pending st st' :
  attach_pending pending st = Some st' ->
  input_queue st' = input_queue st /\ process_queue st' = process_queue st
  /\ stop st' = stop st /\ histories st' = histories st.
Proof.
  revert st. induction pending as [|[l o] pending IH]; intros st; simpl.
  - by intros [= <-].
  - destruct (histories st !! l) as [h|]; [|discriminate].
    intros H. by apply IH in H.
Qed.

Lemma collect_frame_queues nvinfer frame frame_output st :
  input_queue (collect_frame nvinfer frame frame_output st) = input_queue st
  /\ process_queue (collect_frame nvinfer frame frame_output st)
     = process_queue st
  /\ stop (collect_frame nvinfer frame frame_output st) = stop st.
Proof. unfold collect_frame. by repeat case_match. Qed.

Lemma collect_frames_queues nvinfer batch_output i fs st :
  input_queue (collect_frames nvinfer batch_output i fs st) = input_queue st
  /\ process_queue (collect_frames nvinfer batch_output i fs st)
     = process_queue st
  /\ stop (collect_frames nvinfer batch_output i fs st) = stop st.
Proof.
  revert i st. induction fs as [|f fs IH]; intros i st; simpl; [done|].
  destruct (IH (S i) (collect_frame nvinfer f (batch_output i) st))
    as (-> & -> & ->).
  apply collect_frame_queues.
Qed.

Lemma output_loop_pop_spec st p :
  output_loop_pop st = Some p ->
  exists b q,
    process_queue st = b :: q
    /\ match p with
       | Finished b' st' =>
           b' = b /\ input_queue st' = input_queue st
           /\ process_queue st' = q /\ stop st' = stop st
       | Held b' st' =>
           b' = b /\ event_marker b = false
           /\ input_queue st' = input_queue st
           /\ process_queue st' = q /\ stop st' = stop st
       end.
Proof.
  unfold output_loop_pop.
  destruct (process_queue st) as [|b q]; [discriminate|].
  destruct (event_marker b) eqn:Hmarker.
  { intros [= <-]. exists b, q. by repeat split. }
  destruct (_ && _).
  - destruct (attach_pending _ _) as [st'|] eqn:Hattach; [|discriminate].
    intros [= <-]. exists b, q.
    apply attach_pending_queues in Hattach as (-> & -> & -> & _).
    by repeat split.
  - intros [= <-]. exists b, q. by repeat split.
Qed.

Lemma output_loop_collect_queues nvinfer env b st st' :
  output_loop_collect nvinfer env b st = Some st' ->
  input_queue st' = input_queue st /\ process_queue st' = process_queue st
  /\ stop st' = stop st.
Proof.
  unfold output_loop_collect.
  destruct (push_buffer b).
  { intros [= <-]. unfold note_pad_push. by repeat case_match. }
  destruct (decide _); [|by intros [= <-]].
  destruct (attach_pending _ _) as [st1|] eqn:Hattach; [|discriminate].
  simpl. intros [= <-].
  apply attach_pending_queues in Hattach as (Hi & Hp & Hs & _).
  destruct (collect_frames_queues nvinfer (batch_output env) 0 (frames b) st)
    as (Hi' & Hp' & Hs').
  destruct (_ && _); simpl; repeat split; congruence.
Qed.

Lemma sink_event_bookkeeping_queues event st :
  input_queue (sink_event_bookkeeping event st) = input_queue st
  /\ process_queue (sink_event_bookkeeping event st) = process_queue st
  /\ stop (sink_event_bookkeeping event st) = stop st.
Proof. destruct event; simpl; by repeat case_match. Qed.

Lemma sink_event_leave_queues event st :
  input_queue (sink_event_leave event st) = input_queue st
  /\ process_queue (sink_event_leave event st) = process_queue st
  /\ stop (sink_event_leave event st) = stop st.
Proof. apply sink_event_bookkeeping_queues. Qed.

Lemma sink_event_enter_spec nvinfer event st w st' :
  sink_event_enter nvinfer event st = (w, st') ->
  w = event_waits nvinfer event
  /\ process_queue st' = process_queue st
  /\ stop st' = stop st
  /\ input_queue st'
     = if w then input_queue st ++ [event_marker_batch] else input_queue st.
Proof.
  unfold sink_event_enter. destruct (event_waits nvinfer event);
    by intros [= <- <-].
Qed.

(** A schedule that [run] plays is made of steps of the system. *)
Lemma act_step nvinfer a s s' :
  act nvinfer a s = Some s' -> step nvinfer s s'.
Proof.
  destruct a; simpl.
  - destruct (streaming_thread s) eqn:Hs; intros [= <-].
    by apply (step_streaming nvinfer s _ bs).
  - destruct (streaming_thread s) eqn:Hs; try discriminate.
    destruct (sink_event_enter nvinfer event (shared s)) as [[|] st']
      eqn:Henter; intros [= <-].
    + by eapply step_event_enter.
    + by eapply step_event_pass.
  - destruct (streaming_thread s) eqn:Hs; try discriminate.
    destruct (input_queue (shared s)) eqn:Hq; intros [= <-].
    by apply step_event_input_queue_empty.
  - destruct (streaming_thread s) eqn:Hs; try discriminate.
    destruct (process_queue (shared s)) eqn:Hq; intros [= <-].
    by apply step_event_leave.
  - destruct (input_thread s) eqn:Hin; try discriminate.
    destruct (stop (shared s)) eqn:Hstop; try discriminate.
    destruct (input_queue_loop_pop (shared s)) as [[b st'|b st']|] eqn:Hpop;
      intros [= <-].
    + by eapply step_input_pass.
    + by eapply step_input_hold.
  - destruct (input_thread s) eqn:Hin; intros [= <-].
    by apply step_input_queued.
  - destruct (output_thread s) eqn:Hout; try discriminate.
    destruct (stop (shared s)) eqn:Hstop; try discriminate.
    destruct (output_loop_pop (shared s)) as [[b st'|b st']|] eqn:Hpop;
      intros [= <-].
    + by eapply step_output_pass.
    + by eapply step_output_hold.
  - destruct (output_thread s) eqn:Hout; try discriminate.
    destruct (output_loop_collect nvinfer env _ (shared s)) eqn:Hcollect;
      intros [= <-].
    by eapply step_output_collect.
Qed.

Lemma run_reachable nvinfer schedule s s' :
  reachable nvinfer s -> run nvinfer schedule s = Some s' ->
  reachable nvinfer s'.
Proof.
  revert s. induction schedule as [|a schedule IH]; intros s Hs; simpl.
  - by intros [= <-].
  - destruct (act nvinfer a s) as [s1|] eqn:Hact; [|discriminate].
    intros Hrun. apply (IH s1); [|done].
    eapply reachable_step; [done | by eapply act_step].
Qed.

(** Reduction of the projections of [System] only. *)
Ltac system_simpl :=
  cbn [shared input_thread output_thread streaming_thread submitted
       collected dropped option_list] in *.

(** What a step does to the pipeline: batches enter at the end, or the
    batch held for the engine call is dropped. *)
Lemma step_pipeline nvinfer s s' :
  engine_call_pending s ->
  step nvinfer s s' ->
  (exists bs, pipeline s' = pipeline s ++ bs
              /\ submitted s' = submitted s ++ bs
              /\ dropped s' = dropped s)
  \/ (exists b l1 l2, pipeline s = l1 ++ b :: l2
                      /\ pipeline s' = l1 ++ l2
                      /\ passes_through b = false
                      /\ submitted s' = submitted s
                      /\ dropped s' = dropped s ++ [b]).
Proof.
  intros Hpending Hstep. unfold pipeline, in_progress.
  destruct Hstep as
    [ s st' bs _ Hiq Hpq _
    | s event st' _ Henter
    | s event st' _ Henter
    | s event _ _
    | s event _ _
    | s b st' Hin _ Hpop
    | s b st' Hin _ Hpop
    | s b status Hin
    | s b st' Hout _ Hpop
    | s b st' Hout _ Hpop
    | s b env st' Hout Hcollect ]; system_simpl.
  - left. exists bs. rewrite Hiq, Hpq. by rewrite !app_assoc.
  - left. exists []. rewrite !app_nil_r.
    apply sink_event_enter_spec in Henter as (_ & Hpq & _ & Hiq).
    destruct (sink_event_leave_queues event st') as (-> & -> & _).
    by rewrite Hpq, Hiq.
  - left. exists [event_marker_batch].
    apply sink_event_enter_spec in Henter as (_ & Hpq & _ & Hiq).
    rewrite Hpq, Hiq. by rewrite !app_assoc.
  - left. exists []. by rewrite !app_nil_r.
  - left. exists []. rewrite !app_nil_r.
    by destruct (sink_event_leave_queues event (shared s)) as (-> & -> & _).
  - left. exists []. rewrite !app_nil_r.
    apply input_queue_loop_pop_spec in Hpop
      as (b0 & q & Hq & <- & _ & Hiq & Hpq & _).
    rewrite Hin, Hq, Hiq, Hpq. simpl. by rewrite <- !app_assoc.
  - left. exists []. rewrite !app_nil_r.
    apply input_queue_loop_pop_spec in Hpop
      as (b0 & q & Hq & <- & _ & Hiq & Hpq & _).
    by rewrite Hin, Hq, Hiq, Hpq.
  - destruct (input_queue_loop_queued_spec status b (shared s))
      as (Hiq & _ & Hpq).
    rewrite Hin, Hiq, Hpq. destruct (decide (status = NVDSINFER_SUCCESS)).
    + left. exists []. rewrite !app_nil_r. simpl. by rewrite <- !app_assoc.
    + right.
      exists b, (collected s ++ option_list (output_thread s)
                 ++ process_queue (shared s)), (input_queue (shared s)).
      simpl. rewrite <- !app_assoc. repeat split; try done.
      by apply Hpending.
  - left. exists []. rewrite !app_nil_r.
    apply output_loop_pop_spec in Hpop as (b0 & q & Hq & <- & Hiq & Hpq & _).
    rewrite Hout, Hq, Hiq, Hpq. simpl. by rewrite <- !app_assoc.
  - left. exists []. rewrite !app_nil_r.
    apply output_loop_pop_spec in Hpop
      as (b0 & q & Hq & <- & _ & Hiq & Hpq & _).
    by rewrite Hout, Hq, Hiq, Hpq.
  - left. exists []. rewrite !app_nil_r.
    apply output_loop_collect_queues in Hcollect as (Hiq & Hpq & _).
    rewrite Hout, Hiq, Hpq. simpl. by rewrite <- !app_assoc.
Qed.

Lemma fifo_order_step nvinfer s s' :
  engine_call_pending s -> fifo_order s -> step nvinfer s s' -> fifo_order s'.
Proof.
  intros Hpending (Hsub & Hfilter & Hall) Hstep. unfold fifo_order.
  destruct (step_pipeline nvinfer s s' Hpending Hstep)
    as [(bs & -> & -> & ->) | (b & l1 & l2 & Hp & -> & Hb & -> & ->)].
  - split; [by apply sublist_app | split].
    + by rewrite !List.filter_app, Hfilter.
    + intros Hd. by rewrite (Hall Hd).
  - split; [|split].
    + etrans; [|exact Hsub]. rewrite Hp.
      apply sublist_app; [done | by apply sublist_cons].
    + rewrite <- Hfilter, Hp, !List.filter_app. simpl. by rewrite Hb.
    + intros Hd. by destruct (dropped s).
Qed.

Lemma engine_call_pending_step nvinfer s s' :
  engine_call_pending s -> step nvinfer s s' -> engine_call_pending s'.
Proof.
  intros Hpending Hstep b. destruct Hstep; simpl; try apply Hpending;
    try discriminate.
  intros [= ->].
  match goal with
  | H : input_queue_loop_pop _ = Some _ |- _ =>
      apply input_queue_loop_pop_spec in H as (b0 & q & _ & <- & Hb & _)
  end.
  done.
Qed.

Lemma event_marker_passes_through : passes_through event_marker_batch = true.
Proof. reflexivity. Qed.

Lemma app_singleton_cons {A} (q : list A) (m b : A) (q' : list A) :
  q ++ [m] = b :: q' ->
  (q = [] /\ b = m /\ q' = []) \/ (exists q0, q = b :: q0 /\ q' = q0 ++ [m]).
Proof.
  destruct q as [|a q]; simpl; intros [= -> <-]; [by left|].
  right. by exists q.
Qed.

(** The steps of the two workers keep the marker where the invariant
    says it is. *)
Lemma marker_pending_step nvinfer s s' :
  streaming_thread s <> Streaming ->
  marker_pending s -> step nvinfer s s' ->
  marker_pending s'
  /\ (input_queue (shared s) = [] -> input_queue (shared s') = []).
Proof.
  intros Hwait Hm Hstep. unfold marker_pending in *.
  destruct Hstep as
    [ s st' bs Hs _ _ _
    | s event st' Hs _
    | s event st' Hs _
    | s event _ _
    | s event _ _
    | s b st' Hin _ Hpop
    | s b st' Hin _ Hpop
    | s b status Hin
    | s b st' Hout _ Hpop
    | s b st' Hout _ Hpop
    | s b env st' Hout Hcollect ]; system_simpl; try done.
  - destruct (sink_event_leave_queues event (shared s)) as (-> & -> & _).
    done.
  - apply input_queue_loop_pop_spec in Hpop
      as (b0 & q & Hq & <- & _ & Hiq & Hpq & _).
    rewrite Hiq, Hpq. split; [|by rewrite Hq].
    destruct Hm as [(q0 & Hm) | [(Hm & _) | (Hm & _)]]; try congruence.
    rewrite Hq in Hm. symmetry in Hm.
    apply app_singleton_cons in Hm as [(-> & -> & ->) | (q1 & -> & ->)].
    + right. left. eauto.
    + left. eauto.
  - apply input_queue_loop_pop_spec in Hpop
      as (b0 & q & Hq & <- & Hb & Hiq & Hpq & _).
    rewrite Hiq, Hpq. split; [|by rewrite Hq].
    destruct Hm as [(q0 & Hm) | [(Hm & _) | (Hm & _)]]; try congruence.
    rewrite Hq in Hm. symmetry in Hm.
    apply app_singleton_cons in Hm as [(-> & -> & ->) | (q1 & -> & ->)].
    + by rewrite event_marker_passes_through in Hb.
    + left. eauto.
  - destruct (input_queue_loop_queued_spec status b (shared s))
      as (Hiq & _ & Hpq).
    rewrite Hiq. split; [|done].
    destruct Hm as [Hm | [(_ & Hm & _) | (_ & Hm & _)]]; try congruence.
    by left.
  - apply output_loop_pop_spec in Hpop as (b0 & q & Hq & <- & Hiq & Hpq & _).
    rewrite Hiq, Hpq. split; [|done].
    destruct Hm as [Hm | [(Hi & Ht & q0 & Hm) | (_ & _ & Hm & _)]];
      [by left | | congruence].
    rewrite Hq in Hm. symmetry in Hm.
    apply app_singleton_cons in Hm as [(-> & -> & ->) | (q1 & -> & ->)].
    + by right; right.
    + right. left. eauto.
  - apply output_loop_pop_spec in Hpop
      as (b0 & q & Hq & <- & Hb & Hiq & Hpq & _).
    rewrite Hiq, Hpq. split; [|done].
    destruct Hm as [Hm | [(Hi & Ht & q0 & Hm) | (_ & _ & Hm & _)]];
      [by left | | congruence].
    rewrite Hq in Hm. symmetry in Hm.
    apply app_singleton_cons in Hm as [(-> & -> & ->) | (q1 & -> & ->)].
    + discriminate.
    + right. left. eauto.
  - apply output_loop_collect_queues in Hcollect as (Hiq & Hpq & _).
    rewrite Hiq, Hpq. split; [|done].
    destruct Hm as [Hm | [Hm | (_ & _ & _ & Hm)]]; [by left | | congruence].
    by right; left.
Qed.

Lemma barrier_invariant_step nvinfer s s' :
  barrier_invariant s -> step nvinfer s s' -> barrier_invariant s'.
Proof.
  intros Hb Hstep. unfold barrier_invariant in *.
  destruct (streaming_thread s) as [|event0|event0] eqn:Hs.
  - (* outside of a wait *)
    destruct Hstep as
      [ s st' bs _ _ _ _
      | s event st' _ _
      | s event st' _ Henter
      | s event Hs' _
      | s event Hs' _
      | s b st' _ _ _
      | s b st' _ _ _
      | s b status _
      | s b st' _ _ _
      | s b st' _ _ _
      | s b env st' _ _ ]; system_simpl; try done; try by rewrite Hs.
    + apply sink_event_enter_spec in Henter as (_ & _ & _ & Hiq).
      left. eauto.
    + congruence.
  - pose proof (marker_pending_step nvinfer s s' ltac:(by rewrite Hs) Hb Hstep)
      as [Hm _].
    destruct Hstep as
      [ s st' bs Hs' _ _ _
      | s event st' Hs' _
      | s event st' Hs' _
      | s event Hs' Hiq
      | s event Hs' _
      | s b st' _ _ _
      | s b st' _ _ _
      | s b status _
      | s b st' _ _ _
      | s b st' _ _ _
      | s b env st' _ _ ]; system_simpl; try congruence;
      try by rewrite Hs.
    by split.
  - destruct Hb as [Hiq Hb].
    pose proof (marker_pending_step nvinfer s s' ltac:(by rewrite Hs) Hb Hstep)
      as [Hm Hiq'].
    destruct Hstep as
      [ s st' bs Hs' _ _ _
      | s event st' Hs' _
      | s event st' Hs' _
      | s event Hs' _
      | s event Hs' _
      | s b st' _ _ _
      | s b st' _ _ _
      | s b status _
      | s b st' _ _ _
      | s b st' _ _ _
      | s b env st' _ _ ]; system_simpl; try congruence;
      try (rewrite Hs; by auto).
    done.
Qed.

Lemma invariants_reachable nvinfer s :
  reachable nvinfer s ->
  fifo_order s /\ engine_call_pending s /\ barrier_invariant s.
Proof.
  induction 1 as [s (Hiq & Hpq & Hin & Hout & Hst & Hsub & Hcol & Hdrop)
                 | s s' _ (Hfifo & Hpending & Hbarrier) Hstep].
  - split; [|split].
    + unfold fifo_order, pipeline, in_progress.
      rewrite Hiq, Hpq, Hin, Hout, Hsub, Hcol. by simpl.
    + intros b. by rewrite Hin.
    + unfold barrier_invariant. by rewrite Hst.
  - split; [by eapply fifo_order_step | split].
    + by eapply engine_call_pending_step.
    + by eapply barrier_invariant_step.
Qed.

(** C2: in every reachable state, the batches the output thread is done
    with, followed by those still inside the element, are in the order
    of their submission; push buffer batches and event markers are all
    there; and when the engine refused no batch, these lists are the
    submitted batches exactly.  The input queue thread takes the head of
    the input queue and puts the batch at the tail of the process queue;
    the output thread takes the head of the process queue. *)
Theorem batches_leave_in_submission_order nvinfer s :
  reachable nvinfer s ->
  sublist (collected s ++ in_progress s) (submitted s)
  /\ List.filter passes_through (collected s ++ in_progress s)
     = List.filter passes_through (submitted s)
  /\ (dropped s = [] -> collected s ++ in_progress s = submitted s)
  /\ (forall st status b q,
        input_queue st = b :: q ->
        input_queue (input_queue_loop_iteration status st) = q
        /\ (passes_through b = true \/ status = NVDSINFER_SUCCESS ->
            process_queue (input_queue_loop_iteration status st)
            = process_queue st ++ [b]))
  /\ (forall st p,
        output_loop_pop st = Some p ->
        exists b q st', process_queue st = b :: q
                        /\ process_queue st' = q
                        /\ (p = Finished b st' \/ p = Held b st')).
Proof.
  intros Hs. destruct (invariants_reachable nvinfer s Hs)
    as ((Hsub & Hfilter & Hall) & _ & _).
  do 3 (split; [done|]). split.
  - intros st status b q Hq. unfold input_queue_loop_iteration.
    destruct (input_queue_loop_pop st) as [p|] eqn:Hpop.
    2:{ revert Hpop. unfold input_queue_loop_pop. rewrite Hq.
        by case_match. }
    apply input_queue_loop_pop_spec in Hpop as (b0 & q0 & Hq0 & Hp).
    rewrite Hq in Hq0. injection Hq0 as <- <-.
    destruct p as [b' st'|b' st'].
    + destruct Hp as (_ & _ & Hiq & Hpq & _). by split.
    + destruct Hp as (-> & Hb & Hiq & Hpq & _).
      destruct (input_queue_loop_queued_spec status b st')
        as (Hiq' & _ & Hpq').
      split; [congruence|].
      intros [Hok | ->]; [congruence|]. by rewrite Hpq', Hpq.
  - intros st p Hpop.
    apply output_loop_pop_spec in Hpop as (b & q & Hq & Hp).
    destruct p as [b' st'|b' st']; exists b, q, st'.
    + destruct Hp as (-> & _ & -> & _). auto.
    + destruct Hp as (-> & _ & _ & -> & _). auto.
Qed.

Lemma batches_leave_in_submission_order_witness :
  exists s,
    run scenario_nvinfer three_batches_schedule started_system = Some s
    /\ collected s
       = [inference_batch; push_buffer_batch three_objects_buffer;
          event_marker_batch]
    /\ collected s ++ in_progress s = submitted s.
Proof.
  eexists. split; [vm_compute; reflexivity|].
  split; [reflexivity|].
  apply (batches_leave_in_submission_order scenario_nvinfer);
    [|reflexivity].
  apply (run_reachable scenario_nvinfer three_batches_schedule started_system);
    [|vm_compute; reflexivity].
  apply reachable_started. by repeat split.
Defined.

(** A call of [gst_nvinfer_submit_input_buffer] is a step of the
    streaming thread. *)
Lemma submit_input_buffer_step nvinfer env inbuf s :
  1 <= max_batch_size nvinfer ->
  streaming_thread s = Streaming ->
  exists bs,
    Forall (within_max_batch_size nvinfer) bs
    /\ step nvinfer s
         {| shared :=
              (gst_nvinfer_submit_input_buffer nvinfer env inbuf (shared s)).2;
            input_thread := input_thread s;
            output_thread := output_thread s;
            streaming_thread := Streaming;
            submitted := submitted s ++ bs; collected := collected s;
            dropped := dropped s |}.
Proof.
  intros Hmax Hs.
  destruct (gst_nvinfer_submit_input_buffer_bounded nvinfer Hmax env inbuf
              (shared s)) as ((bs & Hiq & Hbs) & Hpq & Hstop).
  exists bs. split; [done|]. by apply step_streaming.
Qed.

(** ** Serialized events *)

(** C5 (as stated) fails: a TAG event is serialized, and in synchronous
    mode it is sent on at once, with batches still in the input queue and
    no marker queued. *)
Lemma tag_event_is_not_waited_for :
  GST_EVENT_IS_SERIALIZED GST_EVENT_TAG = true
  /\ classifier_async_mode scenario_nvinfer = false
  /\ input_queue two_batches_queued
     = [inference_batch; push_buffer_batch three_objects_buffer]
  /\ sink_event_enter scenario_nvinfer GST_EVENT_TAG two_batches_queued
     = (false, two_batches_queued)
  /\ downstream (sink_event_leave GST_EVENT_TAG two_batches_queued)
     = [ForwardedEvent GST_EVENT_TAG]
  /\ ~ all_serialized_events_wait scenario_nvinfer.
Proof.
  repeat split; try reflexivity.
  intros H. specialize (H GST_EVENT_TAG two_batches_queued eq_refl eq_refl).
  discriminate H.
Qed.

Lemma sink_event_leave_downstream event st :
  downstream (sink_event_leave event st)
  = downstream st ++ [ForwardedEvent event].
Proof.
  unfold sink_event_leave. simpl. f_equal.
  destruct event; simpl; by repeat case_match.
Qed.

(** C5 (amended): for a serialized event other than a TAG event, when
    the element is not in asynchronous mode, the caller puts an event
    marker at the tail of the input queue and waits; when it finds the
    process queue empty after the input queue, no batch is left inside
    the element, so that every batch submitted before the event, the
    marker included, has been collected by the output thread or refused
    by the engine; the step that sends the event on is taken in such a
    state only. *)
Theorem serialized_event_waits nvinfer event :
  GST_EVENT_IS_SERIALIZED event = true ->
  event <> GST_EVENT_TAG ->
  classifier_async_mode nvinfer = false ->
  (forall st,
     sink_event_enter nvinfer event st
     = (true, set_input_queue (fun q => q ++ [event_marker_batch]) st))
  /\ (forall s,
        reachable nvinfer s ->
        streaming_thread s = WaitProcessQueue event ->
        process_queue (shared s) = [] ->
        in_progress s = []
        /\ sublist (collected s) (submitted s)
        /\ List.filter passes_through (collected s)
           = List.filter passes_through (submitted s)
        /\ (dropped s = [] -> collected s = submitted s))
  /\ (forall s s',
        reachable nvinfer s ->
        streaming_thread s <> Streaming ->
        step nvinfer s s' ->
        streaming_thread s' = Streaming ->
        in_progress s = []
        /\ exists event',
             streaming_thread s = WaitProcessQueue event'
             /\ downstream (shared s')
                = downstream (shared s) ++ [ForwardedEvent event']).
Proof.
  intros Hser Htag Hsync.
  assert (Hdrained : forall s event0,
             reachable nvinfer s ->
             streaming_thread s = WaitProcessQueue event0 ->
             process_queue (shared s) = [] -> in_progress s = []).
  { intros s event0 Hs Hwait Hpq.
    destruct (invariants_reachable nvinfer s Hs) as (_ & _ & Hb).
    unfold barrier_invariant in Hb. rewrite Hwait in Hb.
    destruct Hb as [Hiq [(q & Hm) | [(_ & _ & q & Hm) | (_ & Hin & _ & Hout)]]].
    - rewrite Hiq in Hm. by destruct q.
    - rewrite Hpq in Hm. by destruct q.
    - unfold in_progress. by rewrite Hiq, Hpq, Hin, Hout. }
  split; [|split].
  - intros st. unfold sink_event_enter, event_waits.
    rewrite Hser, Hsync. by destruct event.
  - intros s Hs Hwait Hpq.
    pose proof (Hdrained s event Hs Hwait Hpq) as Hempty.
    destruct (invariants_reachable nvinfer s Hs)
      as ((Hsub & Hfilter & Hall) & _ & _).
    unfold pipeline in *. rewrite Hempty, app_nil_r in *. done.
  - intros s s' Hs Hwait Hstep Hleft.
    destruct Hstep as
      [ s st' bs Hs' _ _ _
      | s event0 st' Hs' _
      | s event0 st' Hs' _
      | s event0 Hs' _
      | s event0 Hs' Hpq
      | s b st' _ _ _
      | s b st' _ _ _
      | s b status _
      | s b st' _ _ _
      | s b st' _ _ _
      | s b env st' _ _ ]; system_simpl; try congruence.
    split; [by eapply Hdrained|]. exists event0.
    split; [done | apply sink_event_leave_downstream].
Qed.

Lemma serialized_event_waits_witness :
  exists s,
    run scenario_nvinfer three_batches_schedule started_system = Some s
    /\ streaming_thread s = WaitProcessQueue GST_EVENT_EOS
    /\ in_progress s = [].
Proof.
  eexists. split; [vm_compute; reflexivity|].
  split; [reflexivity|].
  apply (serialized_event_waits scenario_nvinfer GST_EVENT_EOS
           eq_refl ltac:(discriminate) eq_refl);
    [|reflexivity|reflexivity].
  apply (run_reachable scenario_nvinfer three_batches_schedule started_system);
    [|vm_compute; reflexivity].
  apply reachable_started. by repeat split.
Defined.

(** ** Failure of the engine *)

(** In synchronous mode a buffer that [gst_nvinfer_submit_input_buffer]
    accepts is followed in the input queue by its push buffer batch. *)
Lemma submit_input_buffer_queues_push_buffer nvinfer env inbuf st :
  classifier_async_mode nvinfer = false ->
  (gst_nvinfer_submit_input_buffer nvinfer env inbuf st).1
    = Returned GST_FLOW_OK ->
  exists q,
    input_queue (gst_nvinfer_submit_input_buffer nvinfer env inbuf st).2
    = q ++ [push_buffer_batch inbuf].
Proof.
  intros Hsync. unfold gst_nvinfer_submit_input_buffer. rewrite Hsync.
  destruct (replace_context_ok env); simpl; [|discriminate].
  destruct (buffer_map_ok env); simpl; [|discriminate].
  destruct (gst_nvinfer_process_objects nvinfer inbuf _) as [[[]|] st1];
    simpl; try discriminate; intros _; by eexists.
Qed.

(** In asynchronous mode the buffer is pushed downstream by
    [gst_nvinfer_submit_input_buffer] itself, whatever becomes of the
    batches. *)
Lemma submit_input_buffer_async_pushes nvinfer env inbuf st r st1 :
  classifier_async_mode nvinfer = true ->
  replace_context_ok env = true ->
  buffer_map_ok env = true ->
  gst_nvinfer_process_objects nvinfer inbuf
    (set_current_batch_num (u64 (current_batch_num st + 1)) st)
    = (Returned r, st1) ->
  r <> GST_FLOW_ERROR ->
  downstream (gst_nvinfer_submit_input_buffer nvinfer env inbuf st).2
  = downstream st1 ++ [PushedBuffer (Some (buf inbuf))].
Proof.
  intros Hasync Hctx Hmap Hproc Hr. unfold gst_nvinfer_submit_input_buffer.
  rewrite Hctx, Hmap, Hproc, Hasync. simpl.
  destruct r; try done; unfold note_pad_push; by repeat case_match.
Qed.


(** * Further properties of the element *)

(** ** Filters of the reinference policy *)

(** [should_infer_object] is the conjunction of the early filters, the
    class filter and the rule on the history. *)
Lemma should_infer_object_class_filter nvinfer obj_meta frame_num history :
  should_infer_object nvinfer obj_meta frame_num history
  = if passes_component_and_size_filters nvinfer obj_meta
    then
      match class_id_excluded nvinfer obj_meta with
      | None => None
      | Some true => Some false
      | Some false =>
          match history with
          | Some h =>
              if IS_CLASSIFIER_INSTANCE nvinfer
              then Some (area_grown (last_inferred_coords h)
                           (rect_params obj_meta)
                         || reinfer_interval_elapsed nvinfer frame_num h)
              else Some true
          | None => Some true
          end
      end
    else Some false.
Proof.
  unfold should_infer_object, passes_component_and_size_filters.
  repeat match goal with
         | |- context [if ?c then Some false else _] =>
             destruct c; simpl; [reflexivity|]
         end.
  destruct (class_id_excluded nvinfer obj_meta) as [[]|]; try reflexivity.
  destruct history as [h|]; [|reflexivity].
  destruct (IS_CLASSIFIER_INSTANCE nvinfer); [|reflexivity].
  by destruct (area_grown _ _), (reinfer_interval_elapsed _ _ _).
Qed.

(** X1: an element that is not a classifier does not look at the history
    of an object: whatever the record and the frame number, the decision
    is that for an object seen for the first time, and it is never to
    reuse a cached result of an object that passes the filters. *)
Theorem should_infer_object_history_irrelevant nvinfer obj_meta frame_num
    frame_num' history history' :
  IS_CLASSIFIER_INSTANCE nvinfer = false ->
  should_infer_object nvinfer obj_meta frame_num history
  = should_infer_object nvinfer obj_meta frame_num' history'
  /\ (passes_filters nvinfer obj_meta ->
      should_infer_object nvinfer obj_meta frame_num history = Some true).
Proof.
  intros Hcls. rewrite !should_infer_object_class_filter, Hcls. split.
  - destruct (passes_component_and_size_filters nvinfer obj_meta);
      [|reflexivity].
    destruct (class_id_excluded nvinfer obj_meta) as [[]|]; try reflexivity.
    by destruct history, history'.
  - unfold passes_filters. rewrite should_infer_object_class_filter.
    destruct (passes_component_and_size_filters nvinfer obj_meta);
      [|discriminate].
    destruct (class_id_excluded nvinfer obj_meta) as [[]|]; try discriminate.
    by destruct history.
Qed.

Lemma should_infer_object_history_irrelevant_witness :
  should_infer_object detector_nvinfer (scenario_object 10 10) 11
    (Some scenario_history)
  = should_infer_object detector_nvinfer (scenario_object 10 10) 10 None
  /\ should_infer_object detector_nvinfer (scenario_object 10 10) 11
       (Some scenario_history) = Some true.
Proof.
  destruct (should_infer_object_history_irrelevant detector_nvinfer
              (scenario_object 10 10) 11 10 (Some scenario_history) None
              eq_refl) as [Heq Hpass].
  split; [exact Heq | apply Hpass; reflexivity].
Defined.

Lemma s32_small x : 0 <= x <= G_MAXINT -> s32 x = x.
Proof.
  unfold s32, G_MAXINT. intros Hx.
  rewrite Z.mod_small by lia. lia.
Qed.

(** X2: with a class filter set, the lookup of a negative class id in
    [operate_on_class_ids] is out of range: the object is never inferred
    on, and when it passes the filters on the component and the size,
    [std::out_of_range] leaves [should_infer_object].  The size of the
    vector fits a [gint], as it does when the property made it. *)
Theorem should_infer_object_negative_class_id nvinfer obj_meta frame_num
    history :
  operate_on_class_ids nvinfer <> [] ->
  Z.of_nat (length (operate_on_class_ids nvinfer)) <= G_MAXINT ->
  class_id obj_meta < 0 ->
  class_id_excluded nvinfer obj_meta = None
  /\ should_infer_object nvinfer obj_meta frame_num history <> Some true
  /\ (passes_component_and_size_filters nvinfer obj_meta = true ->
      should_infer_object nvinfer obj_meta frame_num history = None).
Proof.
  intros Hids Hsize Hneg.
  assert (Hex : class_id_excluded nvinfer obj_meta = None).
  { unfold class_id_excluded.
    destruct (operate_on_class_ids nvinfer) as [|flag v] eqn:Hv; [done|].
    rewrite s32_small by lia.
    destruct (Z.leb_spec (Z.of_nat (length (flag :: v)))
                (class_id obj_meta)); [lia|].
    unfold vector_at. by destruct (decide (0 <= class_id obj_meta)); [lia|]. }
  rewrite should_infer_object_class_filter, Hex.
  split; [done|]. split.
  - by destruct (passes_component_and_size_filters nvinfer obj_meta).
  - by intros ->.
Qed.

Lemma should_infer_object_negative_class_id_witness :
  should_infer_object two_classes_nvinfer (object_of_class (-1)) 105 None
  = None.
Proof.
  apply (should_infer_object_negative_class_id two_classes_nvinfer
           (object_of_class (-1)) 105 None);
    [discriminate | vm_compute; discriminate | reflexivity | reflexivity].
Defined.

(** ** The class ids property *)

Lemma foldl_set_class_id_flag_None class_ids :
  foldl set_class_id_flag None class_ids = None.
Proof. by induction class_ids. Qed.

Lemma foldl_set_class_id_flag_spec class_ids v0 v :
  foldl set_class_id_flag (Some v0) class_ids = Some v ->
  length v = length v0
  /\ Forall (fun c => 0 <= c < Z.of_nat (length v0)) class_ids
  /\ forall k,
       v !! k
       = (fun flag => flag || bool_decide (Z.of_nat k ∈ class_ids))
           <$> v0 !! k.
Proof.
  revert v0. induction class_ids as [|c class_ids IH]; intros v0; simpl.
  - intros [= <-]. split; [done|]. split; [constructor|].
    intros k. destruct (v0 !! k) as [flag|]; simpl; [|done].
    by rewrite orb_false_r.
  - unfold vector_at.
    destruct (decide (0 <= c)) as [Hc|Hc]; simpl;
      [|by rewrite foldl_set_class_id_flag_None].
    destruct (v0 !! Z.to_nat c) as [flag0|] eqn:Hat; simpl;
      [|by rewrite foldl_set_class_id_flag_None].
    intros Hfold. apply IH in Hfold as (Hlen & Hall & Hflags).
    rewrite length_insert in Hlen, Hall.
    apply lookup_lt_Some in Hat as Hlt.
    split; [done|]. split; [constructor; [lia | done]|].
    intros k. rewrite Hflags.
    destruct (decide (k = Z.to_nat c)) as [->|Hk].
    + rewrite list_lookup_insert_eq by done. rewrite Hat. simpl.
      rewrite (bool_decide_eq_true_2 (Z.of_nat (Z.to_nat c) ∈ c :: class_ids)).
      * by rewrite orb_true_r.
      * rewrite Z2Nat.id by done. apply list_elem_of_here.
    + rewrite list_lookup_insert_ne by done.
      destruct (v0 !! k) as [flag|]; simpl; [|done].
      do 2 f_equal. apply bool_decide_ext. rewrite elem_of_cons.
      split; [by right|]. intros [Heq|Hin]; [|done]. lia.
Qed.

Lemma foldl_max_le m class_ids :
  m <= foldl Z.max m class_ids.
Proof.
  revert m. induction class_ids as [|c class_ids IH]; intros m; simpl;
    [lia|].
  specialize (IH (Z.max m c)). lia.
Qed.

Lemma elem_of_class_ids_from i v x :
  x ∈ class_ids_from i v
  <-> exists k, x = Z.of_nat (i + k) /\ v !! k = Some true.
Proof.
  revert i. induction v as [|flag v IH]; intros i; simpl.
  - split; [by intros ?%not_elem_of_nil | by intros (k & _ & ?)].
  - rewrite elem_of_app, IH. split.
    + intros [Hx|(k & -> & Hk)].
      * destruct flag; [|by apply not_elem_of_nil in Hx].
        apply list_elem_of_singleton in Hx as ->.
        exists 0%nat. split; [f_equal; lia | done].
      * exists (S k). split; [f_equal; lia | done].
    + intros ([|k] & -> & Hk); simpl in Hk.
      * injection Hk as ->. left. rewrite Nat.add_0_r.
        apply list_elem_of_here.
      * right. exists k. split; [f_equal; lia | done].
Qed.

Lemma class_ids_from_sorted i v :
  StronglySorted Z.lt (class_ids_from i v).
Proof.
  revert i. induction v as [|flag v IH]; intros i; simpl; [constructor|].
  destruct flag; simpl; [|apply IH].
  constructor; [apply IH|].
  apply Forall_forall. intros x (k & -> & _)%elem_of_class_ids_from. lia.
Qed.

(** X3: when the class ids property is set from the ids read from its
    string and no exception leaves, none of the ids is negative, and the
    property reads back as the same ids, in increasing order, each once.
    The class filter of [should_infer_object] then lets through the
    objects of these classes and no other; with no id at all it lets
    every class through. *)
Theorem operate_on_class_ids_round_trip class_ids v :
  set_operate_on_class_ids class_ids = Some v ->
  Forall (fun c => 0 <= c) class_ids
  /\ Z.of_nat (length v) <= G_MAXINT
  /\ (forall c, c ∈ get_operate_on_class_ids v <-> c ∈ class_ids)
  /\ StronglySorted Z.lt (get_operate_on_class_ids v)
  /\ (forall nvinfer obj_meta,
        operate_on_class_ids nvinfer = v ->
        (class_ids = [] -> class_id_excluded nvinfer obj_meta = Some false)
        /\ (class_ids <> [] -> 0 <= class_id obj_meta ->
            class_id_excluded nvinfer obj_meta
            = Some (negb (bool_decide (class_id obj_meta ∈ class_ids))))).
Proof.
  unfold set_operate_on_class_ids.
  destruct (decide (foldl Z.max (-1) class_ids + 1 <= G_MAXINT))
    as [Hmax|]; [|done].
  pose proof (foldl_max_le (-1) class_ids) as Hlow.
  intros (Hlen & Hall & Hflags)%foldl_set_class_id_flag_spec.
  rewrite length_replicate in Hlen, Hall.
  assert (Hflag : forall k,
            v !! k
            = if decide (k < length v)%nat
              then Some (bool_decide (Z.of_nat k ∈ class_ids)) else None).
  { intros k. rewrite Hflags. destruct (decide (k < length v)%nat) as [Hk|Hk].
    - rewrite lookup_replicate_2 by lia. done.
    - rewrite (proj1 (lookup_replicate_None _ _ _)); [done|]. lia. }
  assert (Hin : forall c, c ∈ class_ids -> 0 <= c < Z.of_nat (length v)).
  { intros c Hc. rewrite Forall_forall in Hall.
    specialize (Hall c Hc). lia. }
  split; [|split; [|split; [|split]]].
  - eapply Forall_impl; [exact Hall|]. simpl. lia.
  - lia.
  - intros c. unfold get_operate_on_class_ids.
    rewrite elem_of_class_ids_from. split.
    + intros (k & -> & Hk). rewrite Hflag in Hk.
      destruct (decide (k < length v)%nat); [|done].
      injection Hk as Hk. by apply bool_decide_eq_true_1 in Hk.
    + intros Hc. destruct (Hin c Hc) as [Hc0 Hc1].
      exists (Z.to_nat c). split; [simpl; lia|].
      rewrite Hflag. destruct (decide (Z.to_nat c < length v)%nat); [|lia].
      f_equal. apply bool_decide_eq_true_2. by rewrite Z2Nat.id.
  - apply class_ids_from_sorted.
  - intros nvinfer obj_meta Hv. unfold class_id_excluded. rewrite Hv. split.
    + intros ->. simpl in Hlen. by destruct v.
    + intros Hne Hcid.
      destruct v as [|flag v'] eqn:Hveq.
      { destruct class_ids as [|c l]; [done|].
        specialize (Hin c (list_elem_of_here c l)). simpl in Hin. lia. }
      rewrite <- Hveq in *. rewrite s32_small by lia.
      destruct (Z.leb_spec (Z.of_nat (length v)) (class_id obj_meta))
        as [Hge|Hlt].
      * f_equal. symmetry. apply negb_true_iff, bool_decide_eq_false_2.
        intros Hc%Hin. lia.
      * unfold vector_at.
        destruct (decide (0 <= class_id obj_meta)); [|lia].
        rewrite Hflag.
        destruct (decide (Z.to_nat (class_id obj_meta) < length v)%nat);
          [|lia].
        simpl. by rewrite Z2Nat.id.
Qed.

Lemma operate_on_class_ids_round_trip_witness :
  get_operate_on_class_ids [true; false; true] = [0; 2]
  /\ class_id_excluded two_classes_nvinfer (object_of_class 1) = Some true
  /\ class_id_excluded two_classes_nvinfer (object_of_class 2) = Some false.
Proof.
  destruct (operate_on_class_ids_round_trip [2; 0; 2] [true; false; true]
              eq_refl) as (_ & _ & _ & _ & Hfilter).
  split; [reflexivity|].
  split.
  - apply (Hfilter two_classes_nvinfer (object_of_class 1) eq_refl);
      [discriminate | simpl; lia].
  - apply (Hfilter two_classes_nvinfer (object_of_class 2) eq_refl);
      [discriminate | simpl; lia].
Defined.

(** ** Sources that come and go *)

(** X4: the pad-added event of a source that the element knows already
    changes nothing: [emplace] does not replace the entry, so that the
    history map and the frame counters of the source are kept.  For a new
    source it makes an entry with an empty history map; in both cases
    the other sources, the history records and the queues are as
    before. *)
Theorem pad_added_keeps_known_source st source_id :
  let st' := sink_event_bookkeeping (GST_NVEVENT_PAD_ADDED source_id) st in
  source_info st' !! s32 source_id
    = Some (default new_source_info (source_info st !! s32 source_id))
  /\ (forall pad, pad <> s32 source_id ->
        source_info st' !! pad = source_info st !! pad)
  /\ histories st' = histories st
  /\ next_history st' = next_history st
  /\ input_queue st' = input_queue st
  /\ process_queue st' = process_queue st
  /\ reports st' = reports st
  /\ downstream st' = downstream st.
Proof.
  simpl. destruct (source_info st !! s32 source_id) as [s|] eqn:Hs; simpl.
  - by rewrite Hs.
  - split; [by rewrite lookup_insert_eq|].
    split; [by intros; rewrite lookup_insert_ne|done].
Qed.

(** X5: the pad-deleted event of source [S] removes the entry of [S]
    and nothing else: the other entries are unchanged and their records
    stay alive and unchanged, a record that only the map of [S] held is
    destroyed, nothing is queued, reported or sent, and a pad-added event
    for [S] that follows starts from an empty history map. *)
Theorem pad_deleted_removes_one_source st source_id :
  let st' := sink_event_bookkeeping (GST_NVEVENT_PAD_DELETED source_id) st in
  source_info st' !! s32 source_id = None
  /\ (forall pad, pad <> s32 source_id ->
        source_info st' !! pad = source_info st !! pad)
  /\ (forall pad s oid l, pad <> s32 source_id ->
        source_info st !! pad = Some s ->
        object_history_map s !! oid = Some l ->
        histories st' !! l = histories st !! l)
  /\ (forall l,
        (forall pad s oid, source_info st !! pad = Some s ->
           object_history_map s !! oid = Some l -> pad = s32 source_id) ->
        histories st' !! l = None)
  /\ input_queue st' = input_queue st
  /\ process_queue st' = process_queue st
  /\ reports st' = reports st
  /\ downstream st' = downstream st
  /\ source_info
       (sink_event_bookkeeping (GST_NVEVENT_PAD_ADDED source_id) st')
       !! s32 source_id = Some new_source_info.
Proof.
  cbv zeta. cbn [sink_event_bookkeeping].
  rewrite !source_info_update_source_info, !histories_update_source_info.
  split; [by rewrite lookup_delete_eq|].
  split; [by intros; rewrite lookup_delete_ne|].
  split; [|split; [|repeat split]].
  - intros pad s oid l Hne Hs Hoid.
    apply release_unowned_owned, elem_of_history_owners.
    exists pad, s, oid. by rewrite lookup_delete_ne.
  - intros l Hl. apply release_unowned_unowned.
    rewrite elem_of_history_owners. intros (pad & s & oid & Hs & Hoid).
    apply lookup_delete_Some in Hs as [Hne Hs]. apply Hne. symmetry. eauto.
  - rewrite lookup_delete_eq. simpl. by rewrite lookup_insert_eq.

Qed.

(** ** Trimming of the history maps, continued *)

Lemma cleanup_source_subseteq hs s oid l :
  object_history_map (cleanup_source hs s) !! oid = Some l ->
  object_history_map s !! oid = Some l.
Proof.
  unfold cleanup_source. destruct (_ <? _); [done|]. simpl.
  by intros [? _]%map_lookup_filter_Some.
Qed.

Lemma cleanup_source_recent hs s oid l h :
  object_history_map s !! oid = Some l ->
  hs !! l = Some h ->
  u64_sub (last_seen_frame_num s) (last_accessed_frame_num h)
    <= CLEANUP_ACCESS_CRITERIA ->
  object_history_map (cleanup_source hs s) !! oid = Some l.
Proof.
  intros Hoid Hh Hrecent. unfold cleanup_source.
  destruct (_ <? _); [done|]. simpl.
  apply map_lookup_filter_Some. split; [done|]. simpl.
  unfold cleanup_criteria. rewrite Hh.
  destruct (Z.ltb_spec CLEANUP_ACCESS_CRITERIA
              (u64_sub (last_seen_frame_num s) (last_accessed_frame_num h)));
    [lia|]. by rewrite andb_false_r.
Qed.

Lemma find_history_cleanup_history_map st pad oid :
  find_history (cleanup_history_map st) pad oid
  = source_info st !! pad
    ≫= fun s => object_history_map (cleanup_source (histories st) s) !! oid.
Proof.
  unfold find_history, cleanup_history_map.
  rewrite source_info_update_source_info, lookup_fmap.
  by destruct (source_info st !! pad).
Qed.

(** X6: a pass of [cleanup_history_map] only removes: it keeps the set
    of the sources, every entry it leaves in a history map was there
    before and points to the same, unchanged record, and no record
    appears.  An entry whose record was accessed at most
    [CLEANUP_ACCESS_CRITERIA] frames before the last frame of its source
    is kept with its record, whether the source is due for a pass or
    not.  The queues and the logs are not touched. *)
Theorem cleanup_history_map_only_removes st :
  let st' := cleanup_history_map st in
  (forall pad,
     is_Some (source_info st' !! pad) <-> is_Some (source_info st !! pad))
  /\ (forall pad oid l,
        find_history st' pad oid = Some l ->
        find_history st pad oid = Some l
        /\ histories st' !! l = histories st !! l)
  /\ (forall l h, histories st' !! l = Some h -> histories st !! l = Some h)
  /\ (forall pad s oid l h,
        source_info st !! pad = Some s ->
        object_history_map s !! oid = Some l ->
        histories st !! l = Some h ->
        u64_sub (last_seen_frame_num s) (last_accessed_frame_num h)
          <= CLEANUP_ACCESS_CRITERIA ->
        find_history st' pad oid = Some l /\ histories st' !! l = Some h)
  /\ input_queue st' = input_queue st
  /\ process_queue st' = process_queue st
  /\ reports st' = reports st
  /\ attached st' = attached st
  /\ downstream st' = downstream st.
Proof.
  cbv zeta.
  assert (Howned : forall pad s oid l,
            source_info st !! pad = Some s ->
            object_history_map (cleanup_source (histories st) s) !! oid
              = Some l ->
            histories (cleanup_history_map st) !! l = histories st !! l).
  { intros pad s oid l Hs Hoid. unfold cleanup_history_map.
    rewrite histories_update_source_info.
    apply release_unowned_owned, elem_of_history_owners.
    exists pad, (cleanup_source (histories st) s), oid.
    by rewrite lookup_fmap, Hs. }
  split; [|split; [|split; [|split; [|done]]]].
  - intros pad. unfold cleanup_history_map.
    rewrite source_info_update_source_info, lookup_fmap.
    apply fmap_is_Some.
  - intros pad oid l. rewrite find_history_cleanup_history_map.
    unfold find_history.
    destruct (source_info st !! pad) as [s|] eqn:Hs; simpl; [|done].
    intros Hoid. split; [by eapply cleanup_source_subseteq | by eauto].
  - intros l h. unfold cleanup_history_map.
    rewrite histories_update_source_info. unfold release_unowned.
    by intros [? _]%map_lookup_filter_Some.
  - intros pad s oid l h Hs Hoid Hh Hrecent.
    pose proof (cleanup_source_recent (histories st) s oid l h Hoid Hh Hrecent)
      as Hkept.
    rewrite find_history_cleanup_history_map, Hs. simpl.
    split; [done|]. rewrite <- Hh. by eauto.
Qed.

Lemma u64_sub_diag a : u64_sub a a = 0.
Proof. unfold u64_sub, u64. by rewrite Z.sub_diag. Qed.

Lemma cleanup_source_twice hs hs' s :
  cleanup_source hs' (cleanup_source hs s) = cleanup_source hs s.
Proof.
  destruct (Z.ltb_spec (u64_sub (last_seen_frame_num s)
                          (last_cleanup_frame_num s)) MAP_CLEANUP_INTERVAL)
    as [Hnot_due|Hdue].
  - rewrite (cleanup_source_not_due hs s Hnot_due).
    by apply cleanup_source_not_due.
  - apply cleanup_source_not_due. unfold cleanup_source.
    destruct (Z.ltb_spec (u64_sub (last_seen_frame_num s)
                            (last_cleanup_frame_num s)) MAP_CLEANUP_INTERVAL);
      [lia|]. simpl. by rewrite u64_sub_diag.
Qed.

Lemma release_unowned_twice si hs :
  release_unowned si (release_unowned si hs) = release_unowned si hs.
Proof.
  apply map_eq. intros l.
  destruct (decide (l ∈ history_owners si)).
  - by rewrite !release_unowned_owned.
  - by rewrite !release_unowned_unowned.
Qed.

(** X7: a pass of [cleanup_history_map] that follows another at once
    changes nothing: the sources that were due have
    [last_cleanup_frame_num] at their last frame and are not due any
    more, and the records the first pass left are all held by a map. *)
Theorem cleanup_history_map_idempotent st :
  cleanup_history_map (cleanup_history_map st) = cleanup_history_map st.
Proof.
  unfold cleanup_history_map at 1 3.
  set (si := cleanup_source (histories st) <$> source_info st).
  assert (Hsi : cleanup_source (histories (cleanup_history_map st))
                  <$> source_info (cleanup_history_map st) = si).
  { unfold cleanup_history_map at 2.
    rewrite source_info_update_source_info. fold si. unfold si.
    rewrite <- map_fmap_compose. apply map_fmap_ext.
    intros pad s _. apply cleanup_source_twice. }
  rewrite Hsi. unfold cleanup_history_map, update_source_info. fold si.
  unfold set_histories, set_source_info. simpl. f_equal.
  apply release_unowned_twice.
Qed.

(** ** Batch builder: the history of a submitted object *)

Lemma find_object_history_Some st pad oid l h :
  find_object_history st pad oid = Some (l, h)
  <-> find_history st pad oid = Some l /\ histories st !! l = Some h.
Proof.
  unfold find_object_history.
  destruct (find_history st pad oid) as [l0|]; simpl;
    [|split; [done | by intros [? _]]].
  destruct (histories st !! l0) as [h0|] eqn:Hh0; simpl.
  - split; [by intros [= -> ->] | intros [[= ->] Hh]; congruence].
  - split; [done | intros [[= ->] Hh]; congruence].
Qed.

Lemma record_submission_record nvinfer pad frame_num object_meta st :
  is_Some (source_info st !! pad) ->
  object_id object_meta <> UNTRACKED_OBJECT_ID ->
  exists l h',
    (record_submission nvinfer pad frame_num object_meta
       (find_object_history st pad (object_id object_meta)) st).1 = Some l
    /\ find_history
         (record_submission nvinfer pad frame_num object_meta
            (find_object_history st pad (object_id object_meta)) st).2
         pad (object_id object_meta) = Some l
    /\ histories
         (record_submission nvinfer pad frame_num object_meta
            (find_object_history st pad (object_id object_meta)) st).2 !! l
       = Some h'
    /\ under_inference h' = true
    /\ last_inferred_frame_num h' = frame_num
    /\ last_accessed_frame_num h' = frame_num
    /\ last_inferred_coords h' = rect_params object_meta
    /\ cached_info h'
       = match find_object_history st pad (object_id object_meta) with
         | Some (_, h) => cached_info h
         | None => cached_info new_history
         end
    /\ (find_object_history st pad (object_id object_meta) = None ->
        l = next_history st).
Proof.
  intros [s Hs] Htracked.
  destruct (find_object_history st pad (object_id object_meta))
    as [[l h]|] eqn:Hfound.
  - apply find_object_history_Some in Hfound as [Hmap Hh].
    exists l. unfold record_submission.
    destruct (classifier_async_mode nvinfer); simpl.
    + eexists. split; [done|]. split; [exact Hmap|].
      rewrite !lookup_alter_eq, Hh. simpl. split; [reflexivity|]. done.
    + eexists. split; [done|]. split; [exact Hmap|].
      rewrite !lookup_alter_eq, Hh. simpl. split; [reflexivity|]. done.
  - exists (next_history st). unfold record_submission.
    destruct (Z.eqb_spec (object_id object_meta) UNTRACKED_OBJECT_ID);
      [done|]. simpl.
    eexists. split; [done|]. split.
    { unfold find_history. simpl. rewrite lookup_alter_eq, Hs. simpl.
      by rewrite lookup_insert_eq. }
    rewrite lookup_alter_eq, lookup_insert_eq. simpl.
    split; [reflexivity|]. done.
Qed.

(** X8: when a tracked object of a known source is to be inferred on,
    the builder leaves it with a history record, reached through the
    history map of the source, that is marked as under inference, holds
    the frame number of the submission as the last inferred and the last
    accessed frame, and holds the rectangle of the object; the cached
    classification is that of the record the object had, and empty for
    an object seen for the first time, whose record is a new one. *)
Theorem record_submission_marks_under_inference nvinfer pad frame_num
    object_meta st :
  is_Some (source_info st !! pad) ->
  object_id object_meta <> UNTRACKED_OBJECT_ID ->
  exists l h',
    (record_submission nvinfer pad frame_num object_meta
       (find_object_history st pad (object_id object_meta)) st).1 = Some l
    /\ find_object_history
         (record_submission nvinfer pad frame_num object_meta
            (find_object_history st pad (object_id object_meta)) st).2
         pad (object_id object_meta) = Some (l, h')
    /\ under_inference h' = true
    /\ last_inferred_frame_num h' = frame_num
    /\ last_accessed_frame_num h' = frame_num
    /\ last_inferred_coords h' = rect_params object_meta
    /\ cached_info h'
       = match find_object_history st pad (object_id object_meta) with
         | Some (_, h) => cached_info h
         | None => {| attributes := []; label := EmptyString |}
         end
    /\ (find_object_history st pad (object_id object_meta) = None ->
        l = next_history st).
Proof.
  intros Hs Htracked.
  destruct (record_submission_record nvinfer pad frame_num object_meta st
              Hs Htracked)
    as (l & h' & Hl & Hmap & Hh & Hu & Hi & Ha & Hc & Hinfo & Hnew).
  exists l, h'. split; [done|].
  split; [by apply find_object_history_Some|]. done.
Qed.

Lemma record_submission_marks_under_inference_witness :
  exists l h',
    find_object_history
      (record_submission scenario_nvinfer 0 105 (tracked_object 9)
         (find_object_history stale_state 0 9) stale_state).2 0 9
    = Some (l, h')
    /\ under_inference h' = true
    /\ l = 2%nat.
Proof.
  destruct (record_submission_marks_under_inference scenario_nvinfer 0 105
              (tracked_object 9) stale_state)
    as (l & h' & _ & Hfound & Hu & _ & _ & _ & _ & Hnew).
  - by eexists.
  - vm_compute. discriminate.
  - exists l, h'. split; [exact Hfound|]. split; [exact Hu|].
    apply Hnew. reflexivity.
Defined.

(** X9: when the conversion of the crop of an object fails
    ([get_converted_mat]), the loop goes on to the next object: no frame
    is added to the batch and nothing is queued.  The history of the
    object was updated before the conversion, so that its record stays
    marked as under inference, with the frame number of the failed
    submission, although no result will come for it. *)
Theorem converted_mat_failure_keeps_record_marked nvinfer inbuf frame_meta
    pad object_meta env loc st :
  is_Some (source_info st !! pad) ->
  object_id object_meta <> UNTRACKED_OBJECT_ID ->
  should_infer_object nvinfer object_meta (u64 (fm_frame_num frame_meta))
    (snd <$> find_object_history st pad (object_id object_meta))
  = Some true ->
  acquire_buffer env = GST_FLOW_OK ->
  buffer_memory env = true ->
  converted_mat_ok env = false ->
  exists loc' st' l h',
    process_object nvinfer inbuf frame_meta pad (object_meta, env) loc st
    = Continue loc' st'
    /\ frames_under_construction loc' = frames_under_construction loc
    /\ input_queue st' = input_queue st
    /\ find_object_history st' pad (object_id object_meta) = Some (l, h')
    /\ under_inference h' = true
    /\ last_inferred_frame_num h' = u64 (fm_frame_num frame_meta).
Proof.
  intros Hs Htracked Hinfer Hacq Hmem Hmat.
  destruct (record_submission_record nvinfer pad
              (u64 (fm_frame_num frame_meta)) object_meta st Hs Htracked)
    as (l & h' & Hl & Hmap & Hh & Hu & Hi & _).
  pose proof (record_submission_queues nvinfer pad
                (u64 (fm_frame_num frame_meta)) object_meta
                (find_object_history st pad (object_id object_meta)) st)
    as (Hiq & _).
  unfold process_object.
  destruct (Z.eqb_spec (object_id object_meta) UNTRACKED_OBJECT_ID);
    [done|].
  rewrite andb_false_r, Hinfer.
  destruct (record_submission nvinfer pad (u64 (fm_frame_num frame_meta))
              object_meta
              (find_object_history st pad (object_id object_meta)) st)
    as [obj_history st1].
  simpl in Hl, Hmap, Hh, Hiq. unfold queue_object, ensure_batch.
  assert (Hfound : find_object_history st1 pad (object_id object_meta)
                   = Some (l, h')) by by apply find_object_history_Some.
  destruct (batch loc) as [b|] eqn:Hb.
  - rewrite Hmat. simpl. do 4 eexists. split; [reflexivity|].
    unfold frames_under_construction. simpl. by rewrite Hb.
  - rewrite Hacq, Hmem. simpl. rewrite Hmat. simpl.
    do 4 eexists. split; [reflexivity|].
    unfold frames_under_construction. simpl. by rewrite Hb.
Qed.

Lemma converted_mat_failure_keeps_record_marked_witness :
  exists loc' st' l h',
    process_object scenario_nvinfer three_objects_buffer plain_frame_meta 0
      (tracked_object 9, converted_mat_fails) no_locals stale_state
    = Continue loc' st'
    /\ frames_under_construction loc' = []
    /\ input_queue st' = []
    /\ find_object_history st' 0 9 = Some (l, h')
    /\ under_inference h' = true.
Proof.
  destruct (converted_mat_failure_keeps_record_marked scenario_nvinfer
              three_objects_buffer plain_frame_meta 0 (tracked_object 9)
              converted_mat_fails no_locals stale_state)
    as (loc' & st' & l & h' & Hstep & Hframes & Hiq & Hfound & Hu & _);
    [by eexists | vm_compute; discriminate | reflexivity | reflexivity
    | reflexivity | reflexivity |].
  exists loc', st', l, h'. split; [exact Hstep|].
  split; [exact Hframes|]. split; [exact Hiq|]. split; [exact Hfound|].
  exact Hu.
Defined.

(** ** Batch builder: the batches of a buffer *)

Section BatchesOfBuffer.

Variable nvinfer : GstNvinfercustom.
Variable inbuf : InputBuffer.
Variable n : Z.

Lemma builds_same st st' :
  input_queue st' = input_queue st ->
  downstream st' = downstream st ->
  current_batch_num st' = n ->
  builds nvinfer inbuf n st st'.
Proof.
  intros Hiq Hd Hn. split; [|done].
  exists []. by rewrite app_nil_r.
Qed.

Lemma builds_trans st1 st2 st3 :
  builds nvinfer inbuf n st1 st2 -> builds nvinfer inbuf n st2 st3 ->
  builds nvinfer inbuf n st1 st3.
Proof.
  intros ((new1 & Hq1 & Hn1) & Hd1 & Hc1) ((new2 & Hq2 & Hn2) & Hd2 & Hc2).
  split; [|split; congruence].
  exists (new1 ++ new2). split; [|by apply Forall_app].
  by rewrite Hq2, Hq1, app_assoc.
Qed.

Lemma convert_batch_and_push_builds env b st :
  built_for nvinfer inbuf n b ->
  current_batch_num st = n ->
  builds nvinfer inbuf n st
    (convert_batch_and_push_to_input_thread env b st).2.
Proof.
  intros Hb Hn. unfold convert_batch_and_push_to_input_thread.
  repeat case_match; simpl; try by apply builds_same.
  split; [|done]. exists [b]. split; [done|]. by constructor.
Qed.

Lemma ensure_batch_built_for env st loc b :
  building nvinfer inbuf n loc ->
  current_batch_num st = n ->
  ensure_batch
    (if classifier_async_mode nvinfer then None else Some (buf inbuf))
    env st (batch loc) = inl b ->
  built_for nvinfer inbuf n b.
Proof.
  intros Hloc Hn. unfold ensure_batch.
  destruct (batch loc) as [b0|] eqn:Hb0.
  - intros [= <-]. by apply Hloc.
  - unfold built_for.
    destruct (decide (acquire_buffer env = GST_FLOW_OK)); [|done].
    destruct (buffer_memory env); [|done].
    intros [= <-]. simpl.
    do 2 (split; [done|]). split; [by eexists|].
    do 3 (split; [done|]). split.
    + intros i f Hf. by rewrite lookup_nil in Hf.
    + by intros l o ?%not_elem_of_nil.
Qed.

Lemma skip_untracked_object_builds loc st :
  building nvinfer inbuf n loc ->
  current_batch_num st = n ->
  keeps_building nvinfer inbuf n st (skip_untracked_object inbuf loc st).
Proof.
  intros Hloc Hn. unfold skip_untracked_object. simpl.
  split; [done|]. apply builds_same; by repeat case_match.
Qed.

Lemma add_pending_built_for frame_meta object_meta l b :
  classifier_async_mode nvinfer = false ->
  object_of_buffer inbuf frame_meta object_meta ->
  built_for nvinfer inbuf n b ->
  built_for nvinfer inbuf n (add_pending l object_meta b).
Proof.
  intros Hsync Hobj (Hpush & Hmark & Hconv & Hin & Hnum & Hasync & Hfr & Hp).
  do 5 (split; [done|]). split; [by rewrite Hsync|]. split; [done|].
  simpl.
  intros l' o [Hold|Hnew%list_elem_of_singleton]%elem_of_app; [by eauto|].
  injection Hnew as -> ->. by exists frame_meta.
Qed.

Lemma defer_object_builds frame_meta object_meta env found loc st :
  object_of_buffer inbuf frame_meta object_meta ->
  building nvinfer inbuf n loc ->
  current_batch_num st = n ->
  keeps_building nvinfer inbuf n st
    (defer_object nvinfer inbuf (u64 (fm_frame_num frame_meta)) object_meta
       env found loc st).
Proof.
  intros Hobj Hloc Hn. unfold defer_object.
  destruct found as [[l h]|]; [|split; [done | by apply builds_same]].
  destruct (IS_CLASSIFIER_INSTANCE nvinfer); simpl;
    [|split; [done | by apply builds_same]].
  destruct (classifier_async_mode nvinfer) eqn:Hasync; simpl;
    [split; [done | by apply builds_same]|].
  pose proof (ensure_batch_built_for env st loc) as Hens.
  rewrite Hasync in Hens.
  destruct (ensure_batch _ env st (batch loc)) as [b|flow_ret];
    [|by apply builds_same].
  split; [|by apply builds_same].
  intros b' [= <-]. eapply add_pending_built_for; eauto.
Qed.

Lemma record_submission_builds pad frame_num object_meta found st :
  input_queue (record_submission nvinfer pad frame_num object_meta found st).2
  = input_queue st
  /\ downstream
       (record_submission nvinfer pad frame_num object_meta found st).2
     = downstream st
  /\ current_batch_num
       (record_submission nvinfer pad frame_num object_meta found st).2
     = current_batch_num st.
Proof.
  unfold record_submission.
  destruct found as [[l h]|]; [by destruct (classifier_async_mode nvinfer)|].
  by destruct (_ =? _).
Qed.

Lemma record_submission_history pad frame_num object_meta found st :
  object_id object_meta <> UNTRACKED_OBJECT_ID ->
  is_Some (record_submission nvinfer pad frame_num object_meta found st).1.
Proof.
  intros Htracked. unfold record_submission.
  destruct found as [[l h]|]; [by destruct (classifier_async_mode nvinfer)|].
  by destruct (Z.eqb_spec (object_id object_meta) UNTRACKED_OBJECT_ID).
Qed.

Lemma add_frame_built_for frame_meta object_meta obj_history b :
  object_of_buffer inbuf frame_meta object_meta ->
  (classifier_async_mode nvinfer = true -> is_Some obj_history) ->
  built_for nvinfer inbuf n b ->
  built_for nvinfer inbuf n
    (add_frame
       {| converted_frame_ptr := length (frames b);
          obj_meta := if classifier_async_mode nvinfer then None
                      else Some object_meta;
          frame_num := u64 (fm_frame_num frame_meta);
          batch_index := batch_id frame_meta;
          history := obj_history |} b).
Proof.
  intros Hobj Hhist
    (Hpush & Hmark & Hconv & Hin & Hnum & Hasync & Hfr & Hp).
  split; [done|]. split; [done|]. split; [done|]. split; [done|].
  split; [done|]. split; [done|]. split; [|done].
  intros i f. simpl. intros Hf.
  apply lookup_app_Some in Hf as [Hf|[Hi Hf]]; [by apply Hfr|].
  apply list_lookup_singleton_Some in Hf as [Hi0 <-].
  split; [simpl; lia|]. split; [done|].
  by exists frame_meta, object_meta.
Qed.

Lemma queue_object_builds frame_meta object_meta env obj_history loc st :
  object_of_buffer inbuf frame_meta object_meta ->
  (classifier_async_mode nvinfer = true -> is_Some obj_history) ->
  building nvinfer inbuf n loc ->
  current_batch_num st = n ->
  keeps_building nvinfer inbuf n st
    (queue_object nvinfer inbuf frame_meta (u64 (fm_frame_num frame_meta))
       object_meta env obj_history loc st).
Proof.
  intros Hobj Hhist Hloc Hn. unfold queue_object.
  pose proof (fun b => ensure_batch_built_for env st loc b Hloc Hn) as Hens.
  destruct (ensure_batch _ env st (batch loc)) as [b|flow_ret];
    [|by apply builds_same].
  specialize (Hens b eq_refl).
  destruct (converted_mat_ok env); simpl;
    [|split; [by intros b' [= <-] | by apply builds_same]].
  destruct (converted_buffer_ok env); simpl; [|by apply builds_same].
  pose proof (add_frame_built_for frame_meta object_meta obj_history b
                Hobj Hhist Hens) as Hadd.
  destruct (_ =? max_batch_size nvinfer).
  - pose proof (convert_batch_and_push_builds (push_env env) _ st Hadd Hn)
      as Hpush.
    destruct (convert_batch_and_push_to_input_thread _ _ st) as [[] st1];
      simpl in *; [|done].
    split; [by intros b'|done].
  - split; [by intros b' [= <-] | by apply builds_same].
Qed.

Lemma process_object_builds frame_meta pad item loc st :
  frame_meta ∈ frame_meta_list inbuf ->
  item ∈ obj_meta_list frame_meta ->
  building nvinfer inbuf n loc ->
  current_batch_num st = n ->
  keeps_building nvinfer inbuf n st
    (process_object nvinfer inbuf frame_meta pad item loc st).
Proof.
  intros Hframe Hitem Hloc Hn. unfold process_object.
  destruct item as [object_meta env].
  assert (Hobj : object_of_buffer inbuf frame_meta object_meta)
    by (split; [done | by exists env]).
  destruct (classifier_async_mode nvinfer
            && (object_id object_meta =? UNTRACKED_OBJECT_ID)) eqn:Hskip.
  { by apply skip_untracked_object_builds. }
  set (found := if object_id object_meta =? UNTRACKED_OBJECT_ID then None
                else find_object_history st pad (object_id object_meta)).
  destruct (should_infer_object nvinfer object_meta _ (snd <$> found))
    as [[]|].
  - pose proof (record_submission_builds pad (u64 (fm_frame_num frame_meta))
                  object_meta found st) as (Hiq & Hd & Hc).
    pose proof (record_submission_history pad (u64 (fm_frame_num frame_meta))
                  object_meta found st) as Hhist.
    destruct (record_submission nvinfer pad _ object_meta found st)
      as [obj_history st1].
    simpl in Hiq, Hd, Hc, Hhist.
    assert (Hst1 : builds nvinfer inbuf n st st1)
      by (apply builds_same; congruence).
    assert (Hasync : classifier_async_mode nvinfer = true ->
                     is_Some obj_history).
    { intros Ha. apply Hhist. rewrite Ha in Hskip. simpl in Hskip.
      by apply Z.eqb_neq. }
    pose proof (queue_object_builds frame_meta object_meta env obj_history
                  loc st1 Hobj Hasync Hloc ltac:(congruence)) as Hq.
    destruct (queue_object nvinfer inbuf frame_meta _ object_meta env
                obj_history loc st1) as [loc' st'|r st']; simpl in *.
    + destruct Hq as [Hloc' Hq]. split; [done|].
      by eapply builds_trans.
    + by eapply builds_trans.
  - by apply defer_object_builds.
  - by apply builds_same.
Qed.

Lemma for_each_builds {A} (body : A -> Locals -> State -> LoopStep) l :
  (forall x loc st, x ∈ l ->
     building nvinfer inbuf n loc -> current_batch_num st = n ->
     keeps_building nvinfer inbuf n st (body x loc st)) ->
  forall loc st,
    building nvinfer inbuf n loc -> current_batch_num st = n ->
    keeps_building nvinfer inbuf n st (for_each body l loc st).
Proof.
  induction l as [|x l IH]; intros Hbody loc st Hloc Hn; simpl.
  - split; [done | by apply builds_same].
  - pose proof (Hbody x loc st (list_elem_of_here x l) Hloc Hn) as Hx.
    destruct (body x loc st) as [loc1 st1|r st1]; [|done].
    destruct Hx as [Hloc1 Hq1].
    assert (Hn1 : current_batch_num st1 = n) by apply Hq1.
    assert (Hbody' : forall x loc st, x ∈ l ->
              building nvinfer inbuf n loc -> current_batch_num st = n ->
              keeps_building nvinfer inbuf n st (body x loc st)).
    { intros x' loc' st' Hx'. apply Hbody. by apply list_elem_of_further. }
    specialize (IH Hbody' loc1 st1 Hloc1 Hn1).
    destruct (for_each body l loc1 st1) as [loc2 st2|r st2]; simpl in *.
    + destruct IH as [Hloc2 Hq2]. split; [done | by eapply builds_trans].
    + by eapply builds_trans.
Qed.

Lemma process_frame_builds frame_meta loc st :
  frame_meta ∈ frame_meta_list inbuf ->
  building nvinfer inbuf n loc ->
  current_batch_num st = n ->
  keeps_building nvinfer inbuf n st
    (process_frame nvinfer inbuf frame_meta loc st).
Proof.
  intros Hframe Hloc Hn. unfold process_frame.
  destruct (source_info st !! s32 (pad_index frame_meta)) as [s|];
    [|split; [done | by apply builds_same]].
  match goal with
  | |- context [for_each ?body ?l loc ?s] =>
      pose proof (for_each_builds body l
                    (fun x loc0 st0 Hx =>
                       process_object_builds frame_meta _ x loc0 st0
                         Hframe Hx)
                    loc s Hloc Hn) as Hloop;
      destruct (for_each body l loc s) as [loc' st'|r st']
  end; simpl in *.
  - destruct Hloop as [Hloc' Hq]. split; [done|].
    eapply builds_trans; [|exact Hq]. by apply builds_same.
  - eapply builds_trans; [|exact Hloop]. by apply builds_same.
Qed.

Lemma gst_nvinfer_process_objects_builds st :
  current_batch_num st = n ->
  builds nvinfer inbuf n st (gst_nvinfer_process_objects nvinfer inbuf st).2.
Proof.
  intros Hn. unfold gst_nvinfer_process_objects.
  pose proof (for_each_builds (process_frame nvinfer inbuf)
                (frame_meta_list inbuf)
                (fun x loc0 st0 Hx => process_frame_builds x loc0 st0 Hx)
                {| batch := None; warn_untracked_object := false |} st
                ltac:(by intros b) Hn) as Hloop.
  unfold frame_meta_list in Hloop.
  destruct (batch_meta inbuf) as [metas|]; simpl in *;
    [|by apply builds_same].
  destruct (for_each _ metas _ st) as [loc st1|r st1]; [|done].
  destruct Hloop as [Hloc Hq].
  eapply builds_trans; [exact Hq|].
  assert (Hn1 : current_batch_num st1 = n) by apply Hq.
  destruct (batch loc) as [b|] eqn:Hb.
  - set (st1' := if decide (length (frames b) = 0%nat)
                 then release_conv_buf (conv_buf b) st1 else st1).
    assert (Hrel : builds nvinfer inbuf n st1 st1')
      by (apply builds_same; unfold st1'; by case_match).
    pose proof (convert_batch_and_push_builds (final_push_env inbuf) b st1'
                  (Hloc b Hb) (proj2 (proj2 Hrel))) as Hpush.
    destruct (convert_batch_and_push_to_input_thread (final_push_env inbuf)
                b st1') as [[] st2]; simpl in *.
    + assert (Hn2 : current_batch_num st2 = n) by apply Hpush.
      eapply builds_trans; [exact Hrel|].
      eapply builds_trans; [exact Hpush|].
      case_match; by apply builds_same.
    + by eapply builds_trans.
  - simpl. case_match; by apply builds_same.
Qed.

End BatchesOfBuffer.

Lemma note_pad_push_queues flow_ret st :
  input_queue (note_pad_push flow_ret st) = input_queue st
  /\ process_queue (note_pad_push flow_ret st) = process_queue st
  /\ downstream (note_pad_push flow_ret st) = downstream st
  /\ histories (note_pad_push flow_ret st) = histories st
  /\ attached (note_pad_push flow_ret st) = attached st
  /\ last_flow_ret (note_pad_push flow_ret st) = flow_ret.
Proof. unfold note_pad_push. by repeat case_match. Qed.

(** X10: the batches that [gst_nvinfer_submit_input_buffer] puts in the
    input queue for a buffer.  They all carry the batch number of the
    buffer and a conversion buffer; frame [i] of a batch uses slot [i]
    and stems from an object of the buffer.  In synchronous mode they
    point to the buffer, and the push buffer batch of the buffer comes
    after all of them, exactly when the call returns [GST_FLOW_OK];
    nothing is pushed downstream by the call.  In asynchronous mode they
    hold neither the buffer nor objects, every frame has a history for
    its result, no push buffer batch is queued, and the buffer is pushed
    downstream at once unless the processing failed. *)
Theorem submit_input_buffer_batches_of_buffer nvinfer env inbuf st :
  exists new,
    Forall (built_for nvinfer inbuf (u64 (current_batch_num st + 1))) new
    /\ input_queue (gst_nvinfer_submit_input_buffer nvinfer env inbuf st).2
       = input_queue st ++ new
         ++ match (gst_nvinfer_submit_input_buffer nvinfer env inbuf st).1
            with
            | Returned GST_FLOW_OK =>
                if classifier_async_mode nvinfer then []
                else [push_buffer_batch inbuf]
            | _ => []
            end
    /\ (classifier_async_mode nvinfer = false ->
        downstream (gst_nvinfer_submit_input_buffer nvinfer env inbuf st).2
        = downstream st)
    /\ (classifier_async_mode nvinfer = true ->
        (downstream (gst_nvinfer_submit_input_buffer nvinfer env inbuf st).2
         = downstream st
         /\ (gst_nvinfer_submit_input_buffer nvinfer env inbuf st).1
            <> Returned GST_FLOW_OK)
        \/ (downstream
              (gst_nvinfer_submit_input_buffer nvinfer env inbuf st).2
            = downstream st ++ [PushedBuffer (Some (buf inbuf))]
            /\ (gst_nvinfer_submit_input_buffer nvinfer env inbuf st).1
               = Returned (pad_push_ret env)
            /\ gst_nvinfer_generate_output
                 (gst_nvinfer_submit_input_buffer nvinfer env inbuf st).2
               = pad_push_ret env)).
Proof.
  unfold gst_nvinfer_submit_input_buffer.
  destruct (replace_context_ok env); simpl;
    [|exists []; rewrite !app_nil_r; split; [constructor|];
      split; [done|]; split; [done|]; intros _; by left].
  destruct (buffer_map_ok env); simpl;
    [|exists []; rewrite !app_nil_r; split; [constructor|];
      split; [done|]; split; [done|]; intros _; by left].
  match goal with
  | |- context [gst_nvinfer_process_objects nvinfer inbuf ?s] =>
      pose proof (gst_nvinfer_process_objects_builds nvinfer inbuf
                    (u64 (current_batch_num st + 1)) s eq_refl)
        as ((new & Hq & Hnew) & Hd & Hn);
      destruct (gst_nvinfer_process_objects nvinfer inbuf s) as [r st1]
  end.
  simpl in Hq, Hd, Hn. exists new. split; [done|].
  destruct r as [flow_ret|]; cbn [fst snd];
    [|rewrite app_nil_r; split; [done|]; split; [done|]; intros _; by left].
  destruct (classifier_async_mode nvinfer) eqn:Hasync.
  - assert (Hpushed :
      let st' := note_pad_push (pad_push_ret env)
                   (send_downstream (PushedBuffer (Some (buf inbuf))) st1) in
      input_queue st'
      = input_queue st ++ new
        ++ match Returned (pad_push_ret env) with
           | Returned GST_FLOW_OK => []
           | _ => []
           end
      /\ (true = false -> downstream st' = downstream st)
      /\ (true = true ->
          (downstream st' = downstream st
           /\ Returned (pad_push_ret env) <> Returned GST_FLOW_OK)
          \/ (downstream st'
              = downstream st ++ [PushedBuffer (Some (buf inbuf))]
              /\ Returned (pad_push_ret env) = Returned (pad_push_ret env)
              /\ gst_nvinfer_generate_output st' = pad_push_ret env))).
    { cbv zeta. unfold gst_nvinfer_generate_output.
      destruct (note_pad_push_queues (pad_push_ret env)
                  (send_downstream (PushedBuffer (Some (buf inbuf))) st1))
        as (-> & _ & -> & _ & _ & ->). simpl. rewrite Hq, Hd.
      split; [by destruct (pad_push_ret env); rewrite app_nil_r|].
      split; [done|]. intros _. by right. }
    destruct flow_ret; cbn [fst snd]; try exact Hpushed.
    rewrite app_nil_r. split; [done|]. split; [done|]. intros _. by left.
  - destruct flow_ret; cbn [fst snd]; simpl;
      rewrite ?app_nil_r, ?Hq, <- ?app_assoc;
      (split; [done|]); (split; [done|]); done.
Qed.

(** ** Frames of unknown sources *)

(** The part of the state that a warning leaves alone. *)
Lemma for_each_process_frame_unknown nvinfer inbuf metas loc st :
  Forall (fun frame_meta =>
            source_info st !! s32 (pad_index frame_meta) = None) metas ->
  exists st',
    for_each (process_frame nvinfer inbuf) metas loc st = Continue loc st'
    /\ reports st' = reports st ++ source_info_warnings metas
    /\ source_info st' = source_info st
    /\ histories st' = histories st
    /\ input_queue st' = input_queue st
    /\ attached st' = attached st
    /\ downstream st' = downstream st
    /\ released_conv_bufs st' = released_conv_bufs st
    /\ current_batch_num st' = current_batch_num st
    /\ last_map_cleanup_frame_num st' = last_map_cleanup_frame_num st.
Proof.
  revert st. induction metas as [|frame_meta metas IH]; intros st Hall; simpl.
  - exists st. by rewrite app_nil_r.
  - apply Forall_cons in Hall as [Hnone Hall].
    unfold process_frame at 1. rewrite Hnone.
    destruct (IH (report (WARN_source_info_not_found (pad_index frame_meta))
                    st) Hall)
      as (st' & -> & Hr & Hsi & Hh & Hiq & Ha & Hd & Hrel & Hn & Hc).
    exists st'. split; [done|]. simpl in *.
    rewrite Hr, <- app_assoc. by repeat split.
Qed.

(** X11: the frames of a source for which the element has no source
    info are skipped, each with a warning.  A buffer with only such
    frames is accepted ([GST_FLOW_OK]), gives one warning for each frame,
    in the order of the frames, and nothing else: no batch is queued, no
    metadata is attached, no conversion buffer is used, no source is
    added, and no history record is created or changed. *)
Theorem process_objects_skips_unknown_sources nvinfer inbuf metas st :
  batch_meta inbuf = Some metas ->
  Forall (fun frame_meta =>
            source_info st !! s32 (pad_index frame_meta) = None) metas ->
  (gst_nvinfer_process_objects nvinfer inbuf st).1 = Returned GST_FLOW_OK
  /\ reports (gst_nvinfer_process_objects nvinfer inbuf st).2
     = reports st ++ source_info_warnings metas
  /\ input_queue (gst_nvinfer_process_objects nvinfer inbuf st).2
     = input_queue st
  /\ attached (gst_nvinfer_process_objects nvinfer inbuf st).2 = attached st
  /\ downstream (gst_nvinfer_process_objects nvinfer inbuf st).2
     = downstream st
  /\ released_conv_bufs (gst_nvinfer_process_objects nvinfer inbuf st).2
     = released_conv_bufs st
  /\ (forall pad,
        is_Some (source_info (gst_nvinfer_process_objects nvinfer inbuf st).2
                   !! pad)
        <-> is_Some (source_info st !! pad))
  /\ (forall l h,
        histories (gst_nvinfer_process_objects nvinfer inbuf st).2 !! l
          = Some h ->
        histories st !! l = Some h).
Proof.
  intros Hmeta Hall. unfold gst_nvinfer_process_objects. rewrite Hmeta.
  destruct (for_each_process_frame_unknown nvinfer inbuf metas
              {| batch := None; warn_untracked_object := false |} st Hall)
    as (st' & -> & Hr & Hsi & Hh & Hiq & Ha & Hd & Hrel & Hn & Hc).
  simpl. destruct (_ <? _); simpl.
  - split; [done|]. split; [done|]. split; [done|]. split; [done|].
    split; [done|]. split; [done|]. split.
    + intros pad. rewrite lookup_fmap, fmap_is_Some. by rewrite Hsi.
    + intros l h [Hl _]%map_lookup_filter_Some. by rewrite <- Hh.
  - split; [done|]. split; [done|]. split; [done|]. split; [done|].
    split; [done|]. split; [done|]. split.
    + intros pad. by rewrite Hsi.
    + intros l h. by rewrite Hh.
Qed.

Lemma process_objects_skips_unknown_sources_witness :
  (gst_nvinfer_process_objects scenario_nvinfer unknown_sources_buffer
     stale_state).1 = Returned GST_FLOW_OK
  /\ reports (gst_nvinfer_process_objects scenario_nvinfer
                unknown_sources_buffer stale_state).2
     = [WARN_source_info_not_found 3; WARN_source_info_not_found 4]
  /\ input_queue (gst_nvinfer_process_objects scenario_nvinfer
                    unknown_sources_buffer stale_state).2 = [].
Proof.
  destruct (process_objects_skips_unknown_sources scenario_nvinfer
              unknown_sources_buffer
              (frame_meta_list unknown_sources_buffer) stale_state)
    as (Hret & Hrep & Hiq & _).
  - reflexivity.
  - repeat constructor.
  - split; [exact Hret|]. split; [exact Hrep | exact Hiq].
Defined.

(** ** Output thread: one result for each frame *)

Lemma collect_frame_attached nvinfer frame frame_output st :
  attached (collect_frame nvinfer frame frame_output st)
  = attached st
    ++ (if IS_DETECTOR_INSTANCE nvinfer
        then [Attach_detector frame (detectionOutput frame_output)]
        else if IS_CLASSIFIER_INSTANCE nvinfer
        then
          if classifier_async_mode nvinfer then []
          else [Attach_classifier (obj_meta frame)
                  (match lock st (history frame) with
                   | Some h =>
                       cached_info
                         (merge_classification_output h
                            (classificationOutput frame_output))
                   | None => classificationOutput frame_output
                   end)]
        else if IS_SEGMENTATION_INSTANCE nvinfer
        then [Attach_segmentation frame (segmentationOutput frame_output)]
        else []).
Proof.
  unfold collect_frame, lock.
  destruct (IS_DETECTOR_INSTANCE nvinfer);
    [by destruct (history frame) as [l|]; [destruct (histories st !! l)|]|].
  destruct (IS_CLASSIFIER_INSTANCE nvinfer).
  - destruct (history frame) as [l|]; simpl;
      [destruct (histories st !! l) as [h|] eqn:Hh|]; simpl;
      destruct (classifier_async_mode nvinfer); simpl;
      rewrite ?app_nil_r; try done.
    rewrite !lookup_alter_eq, Hh. simpl. by destruct (_ =? _).
  - destruct (IS_SEGMENTATION_INSTANCE nvinfer);
      destruct (history frame) as [l|];
      try destruct (histories st !! l); simpl; by rewrite ?app_nil_r.
Qed.

Lemma collect_frame_logs nvinfer frame frame_output st :
  downstream (collect_frame nvinfer frame frame_output st) = downstream st
  /\ reports (collect_frame nvinfer frame frame_output st) = reports st
  /\ source_info (collect_frame nvinfer frame frame_output st)
     = source_info st.
Proof. unfold collect_frame. by repeat case_match. Qed.

Lemma collect_frames_logs nvinfer batch_output i fs st :
  downstream (collect_frames nvinfer batch_output i fs st) = downstream st
  /\ reports (collect_frames nvinfer batch_output i fs st) = reports st
  /\ source_info (collect_frames nvinfer batch_output i fs st)
     = source_info st.
Proof.
  revert i st. induction fs as [|f fs IH]; intros i st; simpl; [done|].
  destruct (IH (S i) (collect_frame nvinfer f (batch_output i) st))
    as (-> & -> & ->).
  apply collect_frame_logs.
Qed.

Lemma collect_frames_attached_detector nvinfer batch_output i fs st :
  IS_DETECTOR_INSTANCE nvinfer = true ->
  attached (collect_frames nvinfer batch_output i fs st)
  = attached st
    ++ imap (fun k frame =>
               Attach_detector frame
                 (detectionOutput (batch_output (i + k)%nat))) fs.
Proof.
  intros Hdet. revert i st.
  induction fs as [|frame fs IH]; intros i st; simpl.
  - by rewrite app_nil_r.
  - rewrite IH, collect_frame_attached, Hdet, <- app_assoc. simpl.
    rewrite Nat.add_0_r. do 2 f_equal.
    apply imap_ext. intros k f _. simpl. do 3 f_equal. lia.
Qed.

Lemma collect_frames_attached_segmentation nvinfer batch_output i fs st :
  IS_DETECTOR_INSTANCE nvinfer = false ->
  IS_CLASSIFIER_INSTANCE nvinfer = false ->
  IS_SEGMENTATION_INSTANCE nvinfer = true ->
  attached (collect_frames nvinfer batch_output i fs st)
  = attached st
    ++ imap (fun k frame =>
               Attach_segmentation frame
                 (segmentationOutput (batch_output (i + k)%nat))) fs.
Proof.
  intros Hdet Hcls Hseg. revert i st.
  induction fs as [|frame fs IH]; intros i st; simpl.
  - by rewrite app_nil_r.
  - rewrite IH, collect_frame_attached, Hdet, Hcls, Hseg, <- app_assoc. simpl.
    rewrite Nat.add_0_r. do 2 f_equal.
    apply imap_ext. intros k f _. simpl. do 3 f_equal. lia.
Qed.

Lemma collect_frames_attached_none nvinfer batch_output i fs st :
  (IS_DETECTOR_INSTANCE nvinfer = false
   /\ IS_CLASSIFIER_INSTANCE nvinfer = false
   /\ IS_SEGMENTATION_INSTANCE nvinfer = false)
  \/ (IS_CLASSIFIER_INSTANCE nvinfer = true
      /\ classifier_async_mode nvinfer = true) ->
  attached (collect_frames nvinfer batch_output i fs st) = attached st.
Proof.
  intros Hnone. revert i st.
  induction fs as [|frame fs IH]; intros i st; simpl; [done|].
  rewrite IH, collect_frame_attached.
  destruct Hnone as [(-> & -> & ->)|[Hcls ->]]; [by rewrite app_nil_r|].
  rewrite Hcls. unfold IS_DETECTOR_INSTANCE, IS_CLASSIFIER_INSTANCE in *.
  apply bool_decide_eq_true_1 in Hcls. rewrite Hcls. simpl.
  by rewrite app_nil_r.
Qed.

(** X12: for a detector, and for a segmentation network, the output
    thread attaches exactly one result for each frame of a batch, in the
    order of the frames: frame [k] of the batch gets entry [k] of the
    batch output.  For a network of another type, a classifier apart,
    it attaches nothing. *)
Theorem collect_frames_result_of_each_frame nvinfer batch_output fs st :
  (IS_DETECTOR_INSTANCE nvinfer = true ->
   attached (collect_frames nvinfer batch_output 0 fs st)
   = attached st
     ++ imap (fun k frame =>
                Attach_detector frame (detectionOutput (batch_output k))) fs)
  /\ (IS_DETECTOR_INSTANCE nvinfer = false ->
      IS_CLASSIFIER_INSTANCE nvinfer = false ->
      IS_SEGMENTATION_INSTANCE nvinfer = true ->
      attached (collect_frames nvinfer batch_output 0 fs st)
      = attached st
        ++ imap (fun k frame =>
                   Attach_segmentation frame
                     (segmentationOutput (batch_output k))) fs)
  /\ (IS_DETECTOR_INSTANCE nvinfer = false ->
      IS_CLASSIFIER_INSTANCE nvinfer = false ->
      IS_SEGMENTATION_INSTANCE nvinfer = false ->
      attached (collect_frames nvinfer batch_output 0 fs st) = attached st).
Proof.
  split; [|split].
  - intros Hdet. by rewrite collect_frames_attached_detector.
  - intros Hdet Hcls Hseg. by rewrite collect_frames_attached_segmentation.
  - intros Hdet Hcls Hseg. apply collect_frames_attached_none. by left.
Qed.

(** ** Start of the element and the asynchronous mode *)

(** X13: after [gst_nvinfer_start] the asynchronous mode is on only for
    a classifier that works on objects.  The output thread then attaches
    no metadata for the frames of a batch, whose buffer has left the
    element already: a batch without deferred objects, as the builder
    makes them in this mode, changes neither the attached metadata nor
    what went downstream, whatever the engine answers. *)
Theorem async_mode_attaches_nothing process_full_frame nvinfer0 env b st
    st' :
  classifier_async_mode (gst_nvinfer_start process_full_frame nvinfer0)
  = true ->
  push_buffer b = false ->
  objs_pending_meta_attach b = [] ->
  output_loop_collect (gst_nvinfer_start process_full_frame nvinfer0) env
    b st = Some st' ->
  IS_CLASSIFIER_INSTANCE nvinfer0 = true
  /\ process_full_frame = false
  /\ attached st' = attached st
  /\ downstream st' = downstream st.
Proof.
  intros Hasync Hpush Hpending.
  assert (Hstart : classifier_async_mode nvinfer0 = true
                   /\ IS_CLASSIFIER_INSTANCE nvinfer0 = true
                   /\ process_full_frame = false).
  { simpl in Hasync. destruct (classifier_async_mode nvinfer0); [|done].
    destruct process_full_frame; [done|].
    by destruct (IS_CLASSIFIER_INSTANCE nvinfer0). }
  destruct Hstart as (Ha0 & Hcls & Hpff).
  unfold output_loop_collect. rewrite Hpush, Hpending, Hasync. simpl.
  rewrite andb_false_r.
  destruct (decide (dequeue_status env = NVDSINFER_SUCCESS));
    intros [= <-]; [|done].
  split; [done|]. split; [done|]. split.
  - apply collect_frames_attached_none. right. split; [|done].
    exact Hcls.
  - apply collect_frames_logs.
Qed.

Lemma async_mode_attaches_nothing_witness :
  exists st',
    output_loop_collect (gst_nvinfer_start false async_nvinfer)
      engine_answers async_inference_batch stale_state = Some st'
    /\ attached st' = attached stale_state
    /\ downstream st' = downstream stale_state.
Proof.
  eexists. split; [vm_compute; reflexivity|].
  eapply (async_mode_attaches_nothing false async_nvinfer engine_answers
            async_inference_batch stale_state);
    [reflexivity | reflexivity | reflexivity | vm_compute; reflexivity].
Defined.

(** X14: [gst_nvinfer_start] leaves settings that a second start would
    not change.  It never lowers the minimum object size, which is at
    least 16 x 16 afterwards, and it keeps the asynchronous mode exactly
    for a classifier that works on objects; settings that respect both
    are left as they are. *)
Theorem gst_nvinfer_start_settings process_full_frame nvinfer :
  gst_nvinfer_start process_full_frame
    (gst_nvinfer_start process_full_frame nvinfer)
  = gst_nvinfer_start process_full_frame nvinfer
  /\ MIN_INPUT_OBJECT_WIDTH
     <= min_input_object_width (gst_nvinfer_start process_full_frame nvinfer)
  /\ MIN_INPUT_OBJECT_HEIGHT
     <= min_input_object_height (gst_nvinfer_start process_full_frame nvinfer)
  /\ min_input_object_width nvinfer
     <= min_input_object_width (gst_nvinfer_start process_full_frame nvinfer)
  /\ min_input_object_height nvinfer
     <= min_input_object_height (gst_nvinfer_start process_full_frame nvinfer)
  /\ (classifier_async_mode (gst_nvinfer_start process_full_frame nvinfer)
      = true
      <-> classifier_async_mode nvinfer = true
          /\ IS_CLASSIFIER_INSTANCE nvinfer = true
          /\ process_full_frame = false)
  /\ (MIN_INPUT_OBJECT_WIDTH <= min_input_object_width nvinfer ->
      MIN_INPUT_OBJECT_HEIGHT <= min_input_object_height nvinfer ->
      (classifier_async_mode nvinfer = true ->
       IS_CLASSIFIER_INSTANCE nvinfer = true /\ process_full_frame = false) ->
      gst_nvinfer_start process_full_frame nvinfer = nvinfer).
Proof.
  split; [|split; [|split; [|split; [|split; [|split]]]]]; simpl; try lia.
  - unfold gst_nvinfer_start, IS_CLASSIFIER_INSTANCE. simpl.
    f_equal; try lia.
    destruct (classifier_async_mode nvinfer); [|done].
    by destruct (process_full_frame || _).
  - destruct (classifier_async_mode nvinfer), process_full_frame,
      (IS_CLASSIFIER_INSTANCE nvinfer); simpl; intuition congruence.
  - intros Hw Hh Hasync. destruct nvinfer as [? mw mh ? ? ? ? ty async ? ?].
    unfold gst_nvinfer_start; simpl in *. f_equal; try lia.
    destruct async; [|done]. destruct (Hasync eq_refl) as [-> ->]. done.
Qed.

(** ** Output thread: what it does to the history records *)

(** The data of a record that only a submission writes. *)
Lemma collect_frame_histories nvinfer frame frame_output st l :
  (history frame <> Some l ->
   histories (collect_frame nvinfer frame frame_output st) !! l
   = histories st !! l)
  /\ match histories st !! l,
           histories (collect_frame nvinfer frame frame_output st) !! l with
     | Some h, Some h' =>
         last_inferred_frame_num h' = last_inferred_frame_num h
         /\ last_accessed_frame_num h' = last_accessed_frame_num h
         /\ last_inferred_coords h' = last_inferred_coords h
         /\ (IS_CLASSIFIER_INSTANCE nvinfer = false ->
             cached_info h' = cached_info h)
         /\ (under_inference h = false -> under_inference h' = false)
     | None, None => True
     | _, _ => False
     end.
Proof.
  unfold collect_frame.
  destruct (history frame) as [l0|]; simpl.
  - destruct (histories st !! l0) as [h0|] eqn:Hh0.
    + destruct (decide (l0 = l)) as [->|Hne].
      * split; [done|]. rewrite Hh0.
        destruct (IS_DETECTOR_INSTANCE nvinfer);
          [|destruct (IS_CLASSIFIER_INSTANCE nvinfer);
            [destruct (classifier_async_mode nvinfer)
            |destruct (IS_SEGMENTATION_INSTANCE nvinfer)]];
          simpl; rewrite ?lookup_alter_eq, ?Hh0; simpl;
          by destruct (_ =? _).
      * assert (Hother :
          forall f g : GstNvinfercustomObjectHistory ->
                       GstNvinfercustomObjectHistory,
            alter f l0 (alter g l0 (histories st)) !! l = histories st !! l)
          by (intros f g; by rewrite !lookup_alter_ne).
        assert (Hother1 :
          forall g : GstNvinfercustomObjectHistory ->
                     GstNvinfercustomObjectHistory,
            alter g l0 (histories st) !! l = histories st !! l)
          by (intros g; by rewrite !lookup_alter_ne).
        destruct (IS_DETECTOR_INSTANCE nvinfer);
          [|destruct (IS_CLASSIFIER_INSTANCE nvinfer);
            [destruct (classifier_async_mode nvinfer)
            |destruct (IS_SEGMENTATION_INSTANCE nvinfer)]];
          simpl; rewrite ?Hother, ?Hother1;
          (split; [done|]); by destruct (histories st !! l).
    + split.
      * by repeat case_match.
      * destruct (histories st !! l) as [h|] eqn:Hh;
          repeat case_match; simpl in *; simplify_eq; done.
  - split.
    + by repeat case_match.
    + destruct (histories st !! l) as [h|] eqn:Hh;
        repeat case_match; simpl in *; simplify_eq; done.
Qed.

(** X15: the output thread neither creates nor destroys a history
    record, and of a record it changes at most the flag
    [under_inference], which it only clears, and, for a classifier, the
    cached classification: the frame numbers and the rectangle of the
    last submission are those the builder wrote.  A record that no frame
    of the batch points to is not changed at all, and the history maps
    are not touched. *)
Theorem collect_frames_keeps_submission_data nvinfer batch_output i fs st l :
  ((forall frame, frame ∈ fs -> history frame <> Some l) ->
   histories (collect_frames nvinfer batch_output i fs st) !! l
   = histories st !! l)
  /\ match histories st !! l,
           histories (collect_frames nvinfer batch_output i fs st) !! l with
     | Some h, Some h' =>
         last_inferred_frame_num h' = last_inferred_frame_num h
         /\ last_accessed_frame_num h' = last_accessed_frame_num h
         /\ last_inferred_coords h' = last_inferred_coords h
         /\ (IS_CLASSIFIER_INSTANCE nvinfer = false ->
             cached_info h' = cached_info h)
         /\ (under_inference h = false -> under_inference h' = false)
     | None, None => True
     | _, _ => False
     end
  /\ source_info (collect_frames nvinfer batch_output i fs st)
     = source_info st.
Proof.
  split; [|split; [|apply collect_frames_logs]].
  - revert i st. induction fs as [|frame fs IH]; intros i st Hfs; simpl;
      [done|].
    rewrite IH by (intros f Hf; apply Hfs; by apply list_elem_of_further).
    apply collect_frame_histories, Hfs, list_elem_of_here.
  - revert i st. induction fs as [|frame fs IH]; intros i st; simpl.
    + by destruct (histories st !! l).
    + specialize (IH (S i) (collect_frame nvinfer frame (batch_output i) st)).
      destruct (collect_frame_histories nvinfer frame (batch_output i) st l)
        as [_ Hstep].
      destruct (histories st !! l) as [h|],
        (histories (collect_frame nvinfer frame (batch_output i) st) !! l)
        as [h1|]; try done.
      destruct (histories (collect_frames nvinfer batch_output (S i) fs _)
                  !! l) as [h2|]; [|done].
      destruct IH as (-> & -> & -> & Hc2 & Hu2),
        Hstep as (-> & -> & -> & Hc1 & Hu1).
      repeat split; try done.
      * intros Hcls. by rewrite Hc2, Hc1.
      * intros Hu. by apply Hu2, Hu1.
Qed.

(** ** Output thread: a failed dequeue *)

(** X16: when [dequeueOutputBatch] fails, the output thread reports the
    error and drops the batch: nothing is attached, neither for its
    frames nor for its deferred objects, and no record is changed.  The
    records of its frames were marked as under inference when they were
    submitted and stay so; a later pass of [cleanup_history_map] keeps
    them, with their entries in the history maps. *)
Theorem dequeue_failure_leaves_under_inference nvinfer env st b q :
  process_queue st = b :: q ->
  event_marker b = false ->
  push_buffer b = false ->
  frames b <> [] ->
  dequeue_status env <> NVDSINFER_SUCCESS ->
  output_loop_iteration nvinfer env st
  = Some (report ERROR_dequeue_output_failed
            (set_process_queue (fun _ => q) st))
  /\ (forall pad s oid l h,
        source_info st !! pad = Some s ->
        object_history_map s !! oid = Some l ->
        histories st !! l = Some h ->
        under_inference h = true ->
        find_object_history
          (cleanup_history_map
             (report ERROR_dequeue_output_failed
                (set_process_queue (fun _ => q) st))) pad oid
        = Some (l, h)).
Proof.
  intros Hpq Hmark Hpush Hframes Hstatus. split.
  - unfold output_loop_iteration, output_loop_pop. rewrite Hpq, Hmark, Hpush.
    destruct (frames b) as [|f fs] eqn:Hfs; [done|]. simpl.
    unfold output_loop_collect. rewrite Hpush.
    by destruct (decide (dequeue_status env = NVDSINFER_SUCCESS)).
  - intros pad s oid l h Hs Hoid Hh Hu.
    apply find_object_history_Some.
    assert (Hkept : object_history_map (cleanup_source (histories st) s)
                      !! oid = Some l)
      by by eapply cleanup_source_keeps.
    split.
    + rewrite find_history_cleanup_history_map. simpl. by rewrite Hs.
    + unfold cleanup_history_map. rewrite histories_update_source_info.
      simpl. rewrite release_unowned_owned; [done|].
      apply elem_of_history_owners.
      exists pad, (cleanup_source (histories st) s), oid.
      by rewrite lookup_fmap, Hs.
Qed.

Lemma dequeue_failure_leaves_under_inference_witness :
  reports
    <$> output_loop_iteration scenario_nvinfer dequeue_fails
          (set_process_queue (fun _ => [inference_batch]) stale_state)
  = Some [ERROR_dequeue_output_failed]
  /\ find_object_history
       (cleanup_history_map
          (report ERROR_dequeue_output_failed
             (set_process_queue (fun _ => [])
                (set_process_queue (fun _ => [inference_batch])
                   stale_state)))) 0 8
     = Some (1%nat, idle_history true).
Proof.
  destruct (dequeue_failure_leaves_under_inference scenario_nvinfer
              dequeue_fails
              (set_process_queue (fun _ => [inference_batch]) stale_state)
              inference_batch [])
    as [Hiter Hkept];
    [reflexivity | reflexivity | reflexivity | discriminate | discriminate |].
  split.
  - rewrite Hiter. reflexivity.
  - apply (Hkept 0 stale_source 8 1%nat (idle_history true));
      reflexivity.
Defined.

(** ** Output thread: deferred objects *)

Lemma attach_pending_spec pending st :
  Forall (fun p : nat * NvDsObjectMeta => is_Some (histories st !! p.1))
    pending ->
  exists st',
    attach_pending pending st = Some st'
    /\ attached st'
       = attached st ++ pending_attachments (histories st) pending
    /\ length (pending_attachments (histories st) pending) = length pending
    /\ histories st' = histories st
    /\ source_info st' = source_info st
    /\ input_queue st' = input_queue st
    /\ process_queue st' = process_queue st
    /\ downstream st' = downstream st
    /\ reports st' = reports st.
Proof.
  revert st. induction pending as [|[l o] pending IH]; intros st Hall; simpl.
  - exists st. by rewrite app_nil_r.
  - apply Forall_cons in Hall as [[h Hh] Hall]. simpl in Hh. rewrite Hh.
    destruct (IH (attach (Attach_classifier (Some o) (cached_info h)) st)
                Hall)
      as (st' & -> & Ha & Hlen & Hhs & Hsi & Hiq & Hpq & Hd & Hr).
    exists st'. split; [done|]. simpl in *.
    unfold pending_attachments in *. simpl. rewrite ?Hh. simpl.
    rewrite Ha, <- app_assoc. simpl. by rewrite Hlen.
Qed.

Lemma attach_pending_expired pending st :
  Exists (fun p : nat * NvDsObjectMeta => histories st !! p.1 = None)
    pending ->
  attach_pending pending st = None.
Proof.
  revert st. induction pending as [|[l o] pending IH]; intros st Hex; simpl.
  - by apply Exists_nil in Hex.
  - destruct (histories st !! l) as [h|] eqn:Hh; [|done].
    apply Exists_cons in Hex as [Hnone|Hex]; [simpl in Hnone; congruence|].
    by apply IH.
Qed.

(** X17: a batch that holds no frame, only objects that were not
    inferred on, is finished by the output thread without a call of the
    engine: for each of these objects, in their order, the classification
    cached in its record is attached to the object, one attachment each,
    and nothing else changes.  If one of the records is gone, the thread
    dereferences an empty pointer. *)
Theorem output_loop_attaches_pending nvinfer env st b q :
  process_queue st = b :: q ->
  event_marker b = false ->
  push_buffer b = false ->
  frames b = [] ->
  (Forall (fun p : nat * NvDsObjectMeta => is_Some (histories st !! p.1))
     (objs_pending_meta_attach b) ->
   exists st',
     output_loop_iteration nvinfer env st = Some st'
     /\ attached st'
        = attached st
          ++ pending_attachments (histories st) (objs_pending_meta_attach b)
     /\ length (pending_attachments (histories st)
                  (objs_pending_meta_attach b))
        = length (objs_pending_meta_attach b)
     /\ histories st' = histories st
     /\ source_info st' = source_info st
     /\ input_queue st' = input_queue st
     /\ process_queue st' = q
     /\ downstream st' = downstream st
     /\ reports st' = reports st)
  /\ (Exists (fun p : nat * NvDsObjectMeta => histories st !! p.1 = None)
        (objs_pending_meta_attach b) ->
      output_loop_iteration nvinfer env st = None).
Proof.
  intros Hpq Hmark Hpush Hframes.
  unfold output_loop_iteration, output_loop_pop.
  rewrite Hpq, Hmark, Hpush, Hframes. simpl. split.
  - intros Hall.
    destruct (attach_pending_spec (objs_pending_meta_attach b)
                (set_process_queue (fun _ => q) st) Hall)
      as (st' & -> & Hspec).
    exists st'. split; [done|]. exact Hspec.
  - intros Hex.
    by rewrite (attach_pending_expired (objs_pending_meta_attach b)
                  (set_process_queue (fun _ => q) st) Hex).
Qed.

Lemma output_loop_attaches_pending_witness :
  attached
    <$> output_loop_iteration scenario_nvinfer dequeue_fails
          (set_process_queue (fun _ => [pending_only_batch]) stale_state)
  = Some [ Attach_classifier (Some (tracked_object 7))
             {| attributes := []; label := EmptyString |};
           Attach_classifier (Some (tracked_object 8))
             {| attributes := []; label := EmptyString |} ].
Proof.
  destruct (output_loop_attaches_pending scenario_nvinfer dequeue_fails
              (set_process_queue (fun _ => [pending_only_batch]) stale_state)
              pending_only_batch [] eq_refl eq_refl eq_refl eq_refl)
    as [Hall _].
  destruct Hall as (st' & Hiter & Hattached & _).
  - repeat constructor; by eexists.
  - rewrite Hiter. simpl. rewrite Hattached. reflexivity.
Defined.

(** ** Results of the pad pushes *)

(** X18: the result of a pad push is what [gst_nvinfer_generate_output]
    returns from then on.  An error message is posted only when the
    result differs from the one before and is [GST_FLOW_ERROR],
    [GST_FLOW_NOT_LINKED] or [GST_FLOW_NOT_NEGOTIATED], so that a result
    that repeats is reported once.  The output thread handles a push
    buffer batch in this way: it pushes the buffer of the batch and
    neither attaches metadata nor touches a record. *)
Theorem pad_push_result_reported_once flow_ret st :
  gst_nvinfer_generate_output (note_pad_push flow_ret st) = flow_ret
  /\ note_pad_push flow_ret (note_pad_push flow_ret st)
     = note_pad_push flow_ret st
  /\ reports (note_pad_push flow_ret st)
     = reports st
       ++ (if bool_decide (last_flow_ret st <> flow_ret
                           /\ flow_ret ∈ [GST_FLOW_ERROR; GST_FLOW_NOT_LINKED;
                                          GST_FLOW_NOT_NEGOTIATED])
           then [ERROR_internal_data_stream flow_ret] else [])
  /\ (forall nvinfer env b,
        push_buffer b = true ->
        output_loop_collect nvinfer env b st
        = Some (note_pad_push (pad_push env)
                  (send_downstream (PushedBuffer (inbuf b)) st))
        /\ downstream
             (note_pad_push (pad_push env)
                (send_downstream (PushedBuffer (inbuf b)) st))
           = downstream st ++ [PushedBuffer (inbuf b)]
        /\ attached
             (note_pad_push (pad_push env)
                (send_downstream (PushedBuffer (inbuf b)) st))
           = attached st
        /\ histories
             (note_pad_push (pad_push env)
                (send_downstream (PushedBuffer (inbuf b)) st))
           = histories st).
Proof.
  split; [apply note_pad_push_queues|]. split; [|split].
  - unfold note_pad_push at 1.
    destruct (note_pad_push_queues flow_ret st) as (_ & _ & _ & _ & _ & ->).
    destruct (decide (flow_ret = flow_ret)); [|done].
    unfold note_pad_push, set_last_flow_ret;
      by destruct (decide _); [|destruct flow_ret].
  - unfold note_pad_push.
    destruct (decide (last_flow_ret st = flow_ret)) as [Heq|Hne]; simpl.
    + rewrite bool_decide_eq_false_2 by (by intros [? _]).
      by rewrite app_nil_r.
    + destruct flow_ret; simpl;
        first [ rewrite bool_decide_eq_true_2
                  by (split; [done|];
                      repeat first [ apply list_elem_of_here
                                   | apply list_elem_of_further ]); done
              | rewrite bool_decide_eq_false_2
                  by (intros [_ Hin];
                      repeat (apply elem_of_cons in Hin as [Hin|Hin];
                              [discriminate|]);
                      by apply not_elem_of_nil in Hin);
                by rewrite app_nil_r ].
  - intros nvinfer env b Hpush. unfold output_loop_collect. rewrite Hpush.
    split; [done|].
    by destruct (note_pad_push_queues (pad_push env)
                   (send_downstream (PushedBuffer (inbuf b)) st))
      as (_ & _ & -> & -> & -> & _).
Qed.

(** ** Reuse of a cached classification *)

(** The batch that defers the attachment for one object. *)
Lemma process_objects_defers_object nvinfer inbuf frame_meta object_meta env
    s l h st :
  IS_CLASSIFIER_INSTANCE nvinfer = true ->
  classifier_async_mode nvinfer = false ->
  batch_meta inbuf = Some [frame_meta] ->
  obj_meta_list frame_meta = [(object_meta, env)] ->
  object_id object_meta <> UNTRACKED_OBJECT_ID ->
  source_info st !! s32 (pad_index frame_meta) = Some s ->
  object_history_map s !! object_id object_meta = Some l ->
  histories st !! l = Some h ->
  should_infer_object nvinfer object_meta (u64 (fm_frame_num frame_meta))
    (Some h) = Some false ->
  acquire_buffer env = GST_FLOW_OK ->
  buffer_memory env = true ->
  session_params_ok (final_push_env inbuf) = true ->
  exists st1,
    gst_nvinfer_process_objects nvinfer inbuf st = (Returned GST_FLOW_OK, st1)
    /\ input_queue st1
       = input_queue st
         ++ [ {| frames := []; inbuf := Some (buf inbuf);
                 inbuf_batch_num := current_batch_num st;
                 push_buffer := false; event_marker := false;
                 conv_buf := Some (acquired_buf env);
                 objs_pending_meta_attach := [(l, object_meta)] |} ]
    /\ process_queue st1 = process_queue st
    /\ histories st1 !! l
       = Some (set_last_accessed (u64 (fm_frame_num frame_meta)) h)
    /\ attached st1 = attached st
    /\ reports st1 = reports st
    /\ downstream st1 = downstream st
    /\ released_conv_bufs st1
       = released_conv_bufs st ++ [Some (acquired_buf env)].
Proof.
  intros Hcls Hsync Hmeta Hobjs Htracked Hs Hoid Hh Hinfer Hacq Hmem Hsess.
  unfold gst_nvinfer_process_objects. rewrite Hmeta.
  cbn [for_each]. unfold process_frame. rewrite Hs, Hobjs.
  cbn [for_each]. unfold process_object.
  destruct (Z.eqb_spec (object_id object_meta) UNTRACKED_OBJECT_ID); [done|].
  rewrite andb_false_r.
  set (s' := {| object_history_map := object_history_map s;
                last_cleanup_frame_num := last_cleanup_frame_num s;
                last_seen_frame_num := u64 (fm_frame_num frame_meta) |}).
  set (st0 := set_source_info <[s32 (pad_index frame_meta) := s']> st).
  assert (Hfound : find_object_history st0 (s32 (pad_index frame_meta))
                     (object_id object_meta) = Some (l, h)).
  { apply find_object_history_Some. split; [|done].
    unfold find_history, st0. simpl. rewrite lookup_insert_eq. done. }
  rewrite Hfound. simpl fmap. rewrite Hinfer.
  unfold defer_object, ensure_batch. rewrite Hcls, Hsync. simpl.
  rewrite Hacq, Hmem. simpl.
  unfold convert_batch_and_push_to_input_thread. rewrite Hsess. simpl.
  set (st2 := set_input_queue _ _).
  assert (Hl2 : histories st2 !! l
                = Some (set_last_accessed (u64 (fm_frame_num frame_meta)) h)).
  { unfold st2. simpl. by rewrite lookup_alter_eq, Hh. }
  destruct (_ <? _).
  - eexists. split; [reflexivity|]. simpl.
    repeat split; try done.
    rewrite release_unowned_owned; [exact Hl2|].
    apply elem_of_history_owners.
    exists (s32 (pad_index frame_meta)),
      (cleanup_source (histories st2) s'), (object_id object_meta).
    rewrite lookup_fmap. simpl. rewrite lookup_insert_eq. simpl.
    split; [done|].
    eapply cleanup_source_recent; [done | exact Hl2 |]. simpl.
    rewrite u64_sub_diag. unfold CLEANUP_ACCESS_CRITERIA. lia.
  - eexists. split; [reflexivity|]. simpl. by repeat split.
Qed.

(** X19: in synchronous mode, let a buffer hold one frame with one
    object and arrive when the input queue and the process queue are
    empty.  Let the object be tracked, with a history record that is
    alive, and let [should_infer_object] of a classifier answer false for
    it; let the buffer pool give a conversion buffer with memory, and the
    session parameters be set.  Then the object gets the classification
    cached in its record.  The builder returns [GST_FLOW_OK]; it has
    queued a batch without frames that names the object, and given the
    conversion buffer back.  One iteration of the input queue thread
    passes the batch on without a call of the engine, whatever the engine
    would answer; one iteration of the output thread attaches the cached
    classification to the object.  The record is only marked as accessed
    at the frame of the object; nothing is reported or pushed downstream,
    and both queues are empty again.  An object that is deferred in a
    batch which also holds frames goes with that batch, and is not the
    subject here. *)
Theorem cached_classification_reused nvinfer inbuf frame_meta object_meta env
    s l h st status oenv :
  IS_CLASSIFIER_INSTANCE nvinfer = true ->
  classifier_async_mode nvinfer = false ->
  batch_meta inbuf = Some [frame_meta] ->
  obj_meta_list frame_meta = [(object_meta, env)] ->
  object_id object_meta <> UNTRACKED_OBJECT_ID ->
  source_info st !! s32 (pad_index frame_meta) = Some s ->
  object_history_map s !! object_id object_meta = Some l ->
  histories st !! l = Some h ->
  should_infer_object nvinfer object_meta (u64 (fm_frame_num frame_meta))
    (Some h) = Some false ->
  acquire_buffer env = GST_FLOW_OK ->
  buffer_memory env = true ->
  session_params_ok (final_push_env inbuf) = true ->
  input_queue st = [] ->
  process_queue st = [] ->
  exists st1 st3,
    gst_nvinfer_process_objects nvinfer inbuf st = (Returned GST_FLOW_OK, st1)
    /\ output_loop_iteration nvinfer oenv
         (input_queue_loop_iteration status st1) = Some st3
    /\ attached st3
       = attached st
         ++ [Attach_classifier (Some object_meta) (cached_info h)]
    /\ histories st3 !! l
       = Some (set_last_accessed (u64 (fm_frame_num frame_meta)) h)
    /\ reports st3 = reports st
    /\ downstream st3 = downstream st
    /\ released_conv_bufs st3
       = released_conv_bufs st ++ [Some (acquired_buf env)]
    /\ input_queue st3 = []
    /\ process_queue st3 = [].
Proof.
  intros Hcls Hsync Hmeta Hobjs Htracked Hs Hoid Hh Hinfer Hacq Hmem Hsess
    Hiq Hpq.
  destruct (process_objects_defers_object nvinfer inbuf frame_meta
              object_meta env s l h st Hcls Hsync Hmeta Hobjs Htracked Hs
              Hoid Hh Hinfer Hacq Hmem Hsess)
    as (st1 & Hproc & Hiq1 & Hpq1 & Hl1 & Ha1 & Hr1 & Hd1 & Hrel1).
  rewrite Hiq in Hiq1. rewrite Hpq in Hpq1. simpl in Hiq1.
  exists st1.
  unfold input_queue_loop_iteration, input_queue_loop_pop. rewrite Hiq1.
  simpl.
  unfold output_loop_iteration, output_loop_pop. simpl. rewrite Hpq1. simpl.
  rewrite Hl1. simpl.
  eexists. split; [done|]. split; [reflexivity|]. simpl.
  rewrite Ha1, Hl1, Hr1, Hd1, Hrel1. by repeat split.
Qed.

Lemma cached_classification_reused_witness :
  exists st1 st3,
    gst_nvinfer_process_objects scenario_nvinfer reuse_buffer stale_state
    = (Returned GST_FLOW_OK, st1)
    /\ output_loop_iteration scenario_nvinfer dequeue_fails
         (input_queue_loop_iteration (NVDSINFER_ERROR 1) st1) = Some st3
    /\ attached st3
       = [Attach_classifier (Some (tracked_object 7))
            {| attributes := []; label := EmptyString |}].
Proof.
  destruct (cached_classification_reused scenario_nvinfer reuse_buffer
              reuse_frame_meta (tracked_object 7) calls_succeed stale_source
              0%nat (idle_history false) stale_state (NVDSINFER_ERROR 1)
              dequeue_fails)
    as (st1 & st3 & Hproc & Hout & Hattached & _);
    try reflexivity; [vm_compute; discriminate|].
  exists st1, st3. split; [exact Hproc|]. split; [exact Hout|].
  exact Hattached.
Defined.

(** ** When the history maps are trimmed *)











(** ** Dump of the layers *)

Lemma replace_slashes_get file_name i :
  String.get i (replace_slashes file_name)
  = (fun c => if Ascii.eqb c "/" then "_"%char else c)
      <$> String.get i file_name.
Proof.
  revert i. induction file_name as [|c rest IH]; intros i; simpl; [done|].
  destruct i as [|i]; [done|]. apply IH.
Qed.

Lemma replace_slashes_length file_name :
  String.length (replace_slashes file_name) = String.length file_name.
Proof. induction file_name as [|c rest IH]; simpl; [done|]. by rewrite IH. Qed.

Lemma substring_get n file_name i :
  String.get i (String.substring 0 n file_name)
  = if decide (i < n)%nat then String.get i file_name else None.
Proof.
  revert n i. induction file_name as [|c rest IH]; intros n i; simpl.
  - destruct n as [|n]; simpl; [done|]. by destruct (decide (i < S n)%nat).
  - destruct n as [|n]; simpl.
    + by destruct (decide (i < 0)%nat); [lia|].
    + destruct i as [|i]; [by destruct (decide (0 < S n)%nat); [|lia]|].
      rewrite IH.
      destruct (decide (i < n)%nat), (decide (S i < S n)%nat); done || lia.
Qed.

Lemma substring_length n file_name :
  String.length (String.substring 0 n file_name)
  = Nat.min n (String.length file_name).
Proof.
  revert n. induction file_name as [|c rest IH]; intros n; simpl.
  - by destruct n.
  - destruct n as [|n]; simpl; [done|]. by rewrite IH.
Qed.

(** X21: the name under which the contents of a layer are written has at
    most 255 characters and no ['/'], so that the file is made in the
    working directory whatever the name of the layer; it is the text
    that was formatted, cut to 255 characters, with ['_'] in the place
    of each ['/'] and every other character as it was. *)
Theorem layer_file_name_has_no_slash formatted :
  String.length (layer_file_name formatted)
  = Nat.min 255 (String.length formatted)
  /\ (forall i, String.get i (layer_file_name formatted) <> Some "/"%char)
  /\ (forall i c,
        (i < 255)%nat ->
        String.get i formatted = Some c ->
        String.get i (layer_file_name formatted)
        = Some (if Ascii.eqb c "/" then "_"%char else c)).
Proof.
  unfold layer_file_name. split; [|split].
  - by rewrite replace_slashes_length, substring_length.
  - intros i. rewrite replace_slashes_get.
    destruct (String.get i (String.substring 0 255 formatted)) as [c|];
      simpl; [|done].
    destruct (Ascii.eqb_spec c "/"); [done|]. congruence.
  - intros i c Hi Hc. rewrite replace_slashes_get, substring_get.
    destruct (decide (i < 255)%nat); [|lia]. by rewrite Hc.
Qed.

(** ** The workers and the lock *)

Lemma output_loop_pop_held st b st' :
  output_loop_pop st = Some (Held b st') ->
  event_marker b = false /\ (push_buffer b = true \/ frames b <> []).
Proof.
  unfold output_loop_pop.
  destruct (process_queue st) as [|b0 q]; [done|].
  destruct (event_marker b0) eqn:Hmarker; [done|].
  destruct (Z.eqb_spec (Z.of_nat (length (frames b0))) 0) as [Hlen|Hlen];
    simpl.
  - destruct (push_buffer b0) eqn:Hpush; simpl.
    + intros [= <- _]. auto.
    + by destruct (attach_pending _ _).
  - intros [= <- _]. split; [done|]. right. intros Hnil.
    by rewrite Hnil in Hlen.
Qed.

Lemma output_call_pending_step nvinfer s s' :
  output_call_pending s -> step nvinfer s s' -> output_call_pending s'.
Proof.
  intros Hpending Hstep b. destruct Hstep; simpl; try apply Hpending;
    try discriminate.
  intros [= ->]. by eapply output_loop_pop_held.
Qed.

Lemma output_call_pending_reachable nvinfer s :
  reachable nvinfer s -> output_call_pending s.
Proof.
  induction 1 as [s (_ & _ & _ & Hout & _)|s s' _ IH Hstep].
  - intros b. by rewrite Hout.
  - by eapply output_call_pending_step.
Qed.

(** X22: in every reachable state, a worker that is outside the lock
    holds a batch for a call that blocks, and for nothing else.  The
    batch of the input queue thread is one for the engine: it has
    frames and is neither a push buffer batch nor an event marker.  The
    batch of the output thread is a push buffer batch, for the pad push,
    or a batch with frames, for the dequeue; it is never an event
    marker.  Event markers and batches that only defer objects are
    finished under the lock. *)
Theorem workers_hold_batches_for_calls nvinfer s :
  reachable nvinfer s ->
  (forall b, input_thread s = Some b ->
     push_buffer b = false /\ event_marker b = false /\ frames b <> [])
  /\ (forall b, output_thread s = Some b ->
        event_marker b = false /\ (push_buffer b = true \/ frames b <> [])).
Proof.
  intros Hs. split.
  - destruct (invariants_reachable nvinfer s Hs) as (_ & Hpending & _).
    intros b Hb. apply Hpending in Hb as Hcall.
    unfold passes_through in Hcall.
    apply orb_false_iff in Hcall as [Hpm Hlen].
    apply orb_false_iff in Hpm as [Hpush Hmarker].
    split; [done|]. split; [done|]. intros Hnil. by rewrite Hnil in Hlen.
  - exact (output_call_pending_reachable nvinfer s Hs).
Qed.

Lemma workers_hold_batches_for_calls_witness :
  exists s,
    run scenario_nvinfer workers_busy_schedule started_system = Some s
    /\ input_thread s = Some inference_batch
    /\ output_thread s = Some (push_buffer_batch three_objects_buffer)
    /\ frames inference_batch <> [].
Proof.
  eexists. split; [vm_compute; reflexivity|].
  match goal with
  | |- input_thread ?s = _ /\ _ =>
      assert (Hs : reachable scenario_nvinfer s)
        by (apply (run_reachable scenario_nvinfer workers_busy_schedule
                     started_system);
            [apply reachable_started; by repeat split
            |vm_compute; reflexivity]);
      destruct (workers_hold_batches_for_calls scenario_nvinfer s Hs)
        as [Hin _]
  end.
  split; [reflexivity|]. split; [reflexivity|].
  apply (Hin inference_batch). reflexivity.
Defined.

(** ** Asynchronous mode: when the cached result is attached *)

Lemma queue_object_attached nvinfer inbuf frame_meta frame_num object_meta env
    obj_history loc st :
  match queue_object nvinfer inbuf frame_meta frame_num object_meta env
          obj_history loc st with
  | Continue _ st' | Return _ st' =>
      attached st' = attached st /\ histories st' = histories st
      /\ source_info st' = source_info st
  end.
Proof.
  unfold queue_object, convert_batch_and_push_to_input_thread.
  by repeat case_match; simplify_eq.
Qed.

(** X23: in asynchronous mode the streaming thread attaches the cached
    classification of a tracked object only when it submits the object
    again: the classification of the record is attached at once, before
    the new result is there, and the record is marked as accessed and
    under inference.  An object that is not to be inferred on again is
    left alone: nothing is attached for it in this buffer, and its
    record is not touched, not even marked as accessed. *)
Theorem async_mode_attaches_on_submission nvinfer inbuf frame_meta pad
    object_meta env loc st :
  classifier_async_mode nvinfer = true ->
  object_id object_meta <> UNTRACKED_OBJECT_ID ->
  (should_infer_object nvinfer object_meta (u64 (fm_frame_num frame_meta))
     (snd <$> find_object_history st pad (object_id object_meta))
   = Some false ->
   process_object nvinfer inbuf frame_meta pad (object_meta, env) loc st
   = Continue loc st)
  /\ (should_infer_object nvinfer object_meta (u64 (fm_frame_num frame_meta))
        (snd <$> find_object_history st pad (object_id object_meta))
      = Some true ->
      match process_object nvinfer inbuf frame_meta pad (object_meta, env)
              loc st with
      | Continue _ st' | Return _ st' =>
          attached st'
          = attached st
            ++ match find_object_history st pad (object_id object_meta) with
               | Some (_, h) =>
                   [Attach_classifier (Some object_meta) (cached_info h)]
               | None => []
               end
          /\ (forall l h,
                find_object_history st pad (object_id object_meta)
                  = Some (l, h) ->
                histories st' !! l
                = Some (set_submitted (u64 (fm_frame_num frame_meta))
                          (rect_params object_meta) h))
      end).
Proof.
  intros Hasync Htracked. unfold process_object.
  destruct (Z.eqb_spec (object_id object_meta) UNTRACKED_OBJECT_ID); [done|].
  rewrite andb_false_r. split; intros ->.
  - unfold defer_object. rewrite Hasync, andb_false_r.
    by destruct (find_object_history _ _ _) as [[]|].
  - destruct (find_object_history st pad (object_id object_meta))
      as [[l h]|] eqn:Hfound.
    + apply find_object_history_Some in Hfound as [Hmap Hh].
      unfold record_submission. rewrite Hasync.
      match goal with
      | |- context [queue_object nvinfer inbuf frame_meta ?f object_meta env
                      ?o loc ?s] =>
          pose proof (queue_object_attached nvinfer inbuf frame_meta f
                        object_meta env o loc s) as Hq;
          destruct (queue_object nvinfer inbuf frame_meta f object_meta env
                      o loc s) as [loc' st'|r st']
      end; destruct Hq as (-> & -> & _); simpl;
        (split; [done|]); intros l0 h0 [= <- <-];
        by rewrite !lookup_alter_eq, Hh.
    + unfold record_submission.
      destruct (Z.eqb_spec (object_id object_meta) UNTRACKED_OBJECT_ID);
        [done|].
      unfold emplace_history. cbn [fst snd].
      match goal with
      | |- context [queue_object nvinfer inbuf frame_meta ?f object_meta env
                      ?o loc ?s] =>
          pose proof (queue_object_attached nvinfer inbuf frame_meta f
                        object_meta env o loc s) as Hq;
          destruct (queue_object nvinfer inbuf frame_meta f object_meta env
                      o loc s) as [loc' st'|r st']
      end; destruct Hq as (-> & _ & _); simpl; by rewrite app_nil_r.
Qed.

Lemma async_mode_attaches_on_submission_witness :
  process_object async_nvinfer three_objects_buffer plain_frame_meta 0
    (tracked_object 7, calls_succeed) no_locals stale_state
  = Continue no_locals stale_state.
Proof.
  apply (async_mode_attaches_on_submission async_nvinfer three_objects_buffer
           plain_frame_meta 0 (tracked_object 7) calls_succeed no_locals
           stale_state);
    [reflexivity | vm_compute; discriminate | reflexivity].
Defined.

(** ** Synchronous mode: who attaches the metadata *)

Lemma for_each_attached {A} (body : A -> Locals -> State -> LoopStep) l :
  (forall x loc st,
     match body x loc st with
     | Continue _ st' | Return _ st' => attached st' = attached st
     end) ->
  forall loc st,
    match for_each body l loc st with
    | Continue _ st' | Return _ st' => attached st' = attached st
    end.
Proof.
  intros Hbody. induction l as [|x l IH]; intros loc st; simpl; [done|].
  specialize (Hbody x loc st).
  destruct (body x loc st) as [loc1 st1|r st1]; [|done].
  specialize (IH loc1 st1).
  destruct (for_each body l loc1 st1); congruence.
Qed.

Lemma process_object_attached_sync nvinfer inbuf frame_meta pad item loc st :
  classifier_async_mode nvinfer = false ->
  match process_object nvinfer inbuf frame_meta pad item loc st with
  | Continue _ st' | Return _ st' => attached st' = attached st
  end.
Proof.
  intros Hsync. unfold process_object. destruct item as [object_meta env].
  rewrite Hsync. simpl.
  set (found := if object_id object_meta =? UNTRACKED_OBJECT_ID then None
                else find_object_history st pad (object_id object_meta)).
  destruct (should_infer_object nvinfer object_meta _ (snd <$> found))
    as [[]|]; [| |done].
  - assert (Hrec : attached
                     (record_submission nvinfer pad
                        (u64 (fm_frame_num frame_meta)) object_meta found
                        st).2 = attached st).
    { unfold record_submission. rewrite Hsync.
      destruct found as [[l h]|]; [done|]. by destruct (_ =? _). }
    destruct (record_submission nvinfer pad _ object_meta found st)
      as [obj_history st1].
    simpl in Hrec.
    pose proof (queue_object_attached nvinfer inbuf frame_meta
                  (u64 (fm_frame_num frame_meta)) object_meta env obj_history
                  loc st1) as Hq.
    destruct (queue_object nvinfer inbuf frame_meta _ object_meta env
                obj_history loc st1); destruct Hq as (Hq & _); congruence.
  - unfold defer_object. clearbody found.
    destruct found as [[l h]|]; [|done].
    destruct (_ && _); [|done].
    by destruct (ensure_batch _ env st (batch loc)).
Qed.

Lemma process_frame_attached_sync nvinfer inbuf frame_meta loc st :
  classifier_async_mode nvinfer = false ->
  match process_frame nvinfer inbuf frame_meta loc st with
  | Continue _ st' | Return _ st' => attached st' = attached st
  end.
Proof.
  intros Hsync. unfold process_frame.
  destruct (source_info st !! s32 (pad_index frame_meta)) as [s|]; [|done].
  match goal with
  | |- context [for_each ?body ?l loc ?s] =>
      pose proof (for_each_attached body l
                    (fun x loc0 st0 =>
                       process_object_attached_sync nvinfer inbuf frame_meta
                         _ x loc0 st0 Hsync)
                    loc s) as Hloop;
      destruct (for_each body l loc s)
  end; done.
Qed.

Lemma process_objects_attached_sync nvinfer inbuf st :
  classifier_async_mode nvinfer = false ->
  attached (gst_nvinfer_process_objects nvinfer inbuf st).2 = attached st.
Proof.
  intros Hsync. unfold gst_nvinfer_process_objects.
  destruct (batch_meta inbuf) as [metas|]; [|done].
  pose proof (for_each_attached (process_frame nvinfer inbuf) metas
                (fun x loc0 st0 =>
                   process_frame_attached_sync nvinfer inbuf x loc0 st0 Hsync)
                {| batch := None; warn_untracked_object := false |} st)
    as Hloop.
  destruct (for_each _ metas _ st) as [loc st1|r st1]; [|done].
  rewrite <- Hloop. unfold convert_batch_and_push_to_input_thread.
  by repeat case_match; simplify_eq.
Qed.

(** X24: in synchronous mode all the metadata is attached by the output
    thread.  [gst_nvinfer_submit_input_buffer] attaches nothing, whatever
    becomes of the buffer, and an iteration of the input queue thread
    attaches nothing in either mode. *)
Theorem sync_mode_attaches_in_output_thread nvinfer env inbuf st :
  classifier_async_mode nvinfer = false ->
  attached (gst_nvinfer_submit_input_buffer nvinfer env inbuf st).2
  = attached st
  /\ (forall status,
        attached (input_queue_loop_iteration status st) = attached st).
Proof.
  intros Hsync. split.
  - unfold gst_nvinfer_submit_input_buffer. rewrite Hsync.
    destruct (replace_context_ok env); [|done].
    destruct (buffer_map_ok env); [|done]. simpl.
    match goal with
    | |- context [gst_nvinfer_process_objects nvinfer inbuf ?s] =>
        pose proof (process_objects_attached_sync nvinfer inbuf s Hsync)
          as Hproc;
        destruct (gst_nvinfer_process_objects nvinfer inbuf s) as [r st1]
    end.
    simpl in Hproc. by destruct r as [[]|].
  - intros status.
    unfold input_queue_loop_iteration, input_queue_loop_pop,
      input_queue_loop_queued.
    by repeat case_match; simplify_eq.
Qed.

Lemma sync_mode_attaches_in_output_thread_witness :
  attached (gst_nvinfer_submit_input_buffer scenario_nvinfer submit_succeeds
              three_objects_buffer stale_state).2 = []
  /\ length (input_queue
               (gst_nvinfer_submit_input_buffer scenario_nvinfer
                  submit_succeeds three_objects_buffer stale_state).2)
     = 2%nat.
Proof.
  split; [|reflexivity].
  apply (sync_mode_attaches_in_output_thread scenario_nvinfer submit_succeeds
           three_objects_buffer stale_state eq_refl).
Defined.

(** ** Frame numbers that fall back *)

Lemma u64_sub_wraps a b :
  0 <= a < b -> b < 2 ^ 64 -> u64_sub a b = a - b + 2 ^ 64.
Proof.
  intros Hab Hb. unfold u64_sub, u64.
  rewrite <- (Z.mod_add (a - b) 1 (2 ^ 64)) by lia.
  apply Z.mod_small. lia.
Qed.

(** X25: the frame numbers are unsigned, and the test of the
    reinference interval subtracts them as such.  When the frame number
    of an object is smaller than the one recorded at its last inference,
    as after a restart of the stream, by at most 2^64 - 2^32, the
    difference wraps around to a value above every interval, and a
    classifier infers on the object again whatever its size. *)
Theorem frame_number_fall_back_reinfers nvinfer obj_meta frame_num h :
  IS_CLASSIFIER_INSTANCE nvinfer = true ->
  passes_filters nvinfer obj_meta ->
  is_guint (secondary_reinfer_interval nvinfer) ->
  is_u64 (last_inferred_frame_num h) ->
  0 <= frame_num < last_inferred_frame_num h ->
  last_inferred_frame_num h - frame_num <= 2 ^ 64 - 2 ^ 32 ->
  reinfer_interval_elapsed nvinfer frame_num h = true
  /\ should_infer_object nvinfer obj_meta frame_num (Some h) = Some true.
Proof.
  intros Hcls Hpass [Hi0 Hi1] [Hl0 Hl1] Hback Hgap.
  assert (Helapsed : reinfer_interval_elapsed nvinfer frame_num h = true).
  { unfold reinfer_interval_elapsed. rewrite u64_sub_wraps by lia.
    apply Z.ltb_lt. lia. }
  split; [done|].
  rewrite (should_infer_object_filters_passed nvinfer obj_meta frame_num
             (Some h) Hpass), Hcls, Helapsed.
  by rewrite orb_true_r.
Qed.

Lemma frame_number_fall_back_reinfers_witness :
  should_infer_object scenario_nvinfer (scenario_object 10 10) 3
    (Some scenario_history) = Some true.
Proof.
  apply (frame_number_fall_back_reinfers scenario_nvinfer
           (scenario_object 10 10) 3 scenario_history);
    [reflexivity | reflexivity | unfold is_guint; simpl; lia
    | unfold is_u64; simpl; lia | simpl; lia | simpl; lia].
Defined.

(** X26: the same holds for the trimming of the history maps.  When the
    last frame number of a source is smaller than the one at its last
    cleanup, by at most 2^64 - [MAP_CLEANUP_INTERVAL], the source is due
    for a pass, and the pass removes every record that is not under
    inference and was accessed at a frame number greater than the last
    one, by less than 2^64 - [CLEANUP_ACCESS_CRITERIA]: after a restart
    of the stream the records of the objects seen before it are dropped
    at the next pass. *)
Theorem frame_number_fall_back_evicts st pad s oid l h :
  source_info st !! pad = Some s ->
  object_history_map s !! oid = Some l ->
  histories st !! l = Some h ->
  under_inference h = false ->
  is_u64 (last_cleanup_frame_num s) ->
  is_u64 (last_accessed_frame_num h) ->
  0 <= last_seen_frame_num s < last_cleanup_frame_num s ->
  last_cleanup_frame_num s - last_seen_frame_num s
    <= 2 ^ 64 - MAP_CLEANUP_INTERVAL ->
  last_seen_frame_num s < last_accessed_frame_num h ->
  last_accessed_frame_num h - last_seen_frame_num s
    < 2 ^ 64 - CLEANUP_ACCESS_CRITERIA ->
  find_history (cleanup_history_map st) pad oid = None
  /\ last_cleanup_frame_num
       <$> source_info (cleanup_history_map st) !! pad
     = Some (last_seen_frame_num s).
Proof.
  intros Hs Hoid Hh Hu [Hc0 Hc1] [Ha0 Ha1] Hback Hgap Hlater Hgap'.
  assert (Hdue : MAP_CLEANUP_INTERVAL
                 <= u64_sub (last_seen_frame_num s)
                      (last_cleanup_frame_num s)).
  { rewrite u64_sub_wraps by lia. lia. }
  split.
  - rewrite find_history_cleanup_history_map, Hs. simpl.
    rewrite cleanup_source_lookup by done. rewrite Hoid.
    unfold cleanup_criteria. rewrite Hh, Hu. simpl.
    rewrite u64_sub_wraps by lia.
    by destruct (Z.ltb_spec CLEANUP_ACCESS_CRITERIA
                   (last_seen_frame_num s - last_accessed_frame_num h
                    + 2 ^ 64)); [|lia].
  - unfold cleanup_history_map.
    rewrite source_info_update_source_info, lookup_fmap, Hs. simpl.
    unfold cleanup_source.
    by destruct (Z.ltb_spec
                   (u64_sub (last_seen_frame_num s)
                      (last_cleanup_frame_num s)) MAP_CLEANUP_INTERVAL);
      [lia|].
Qed.

Lemma frame_number_fall_back_evicts_witness :
  find_history (cleanup_history_map restarted_state) 0 7 = None.
Proof.
  apply (frame_number_fall_back_evicts restarted_state 0 restarted_source 7
           0%nat (idle_history false));
    try reflexivity;
    try (unfold is_u64; simpl; lia);
    unfold MAP_CLEANUP_INTERVAL, CLEANUP_ACCESS_CRITERIA; simpl; lia.
Defined.

(** ** Output thread: the classification that is attached *)

(** X27: for a classifier in synchronous mode, the output thread
    attaches one classification to the object of each frame.  For a
    frame whose history record is alive it is the classification that
    the record holds from then on, the new result merged into the cached
    one; for a frame without a record, as that of an untracked object,
    it is the new result as it is, and no record is changed. *)
Theorem collect_frame_attaches_cached nvinfer frame frame_output st :
  IS_CLASSIFIER_INSTANCE nvinfer = true ->
  classifier_async_mode nvinfer = false ->
  (forall l h,
     history frame = Some l ->
     histories st !! l = Some h ->
     exists h',
       histories (collect_frame nvinfer frame frame_output st) !! l = Some h'
       /\ attached (collect_frame nvinfer frame frame_output st)
          = attached st ++ [Attach_classifier (obj_meta frame)
                              (cached_info h')])
  /\ (lock st (history frame) = None ->
      attached (collect_frame nvinfer frame frame_output st)
      = attached st
        ++ [Attach_classifier (obj_meta frame)
              (classificationOutput frame_output)]
      /\ histories (collect_frame nvinfer frame frame_output st)
         = histories st).
Proof.
  intros Hcls Hsync.
  assert (Hdet : IS_DETECTOR_INSTANCE nvinfer = false).
  { unfold IS_DETECTOR_INSTANCE, IS_CLASSIFIER_INSTANCE in *.
    apply bool_decide_eq_true_1 in Hcls. by rewrite Hcls. }
  split.
  - intros l h Hl Hh.
    rewrite collect_frame_attached, Hdet, Hcls, Hsync.
    unfold lock. rewrite Hl. simpl. rewrite Hh.
    unfold collect_frame. rewrite Hl, Hh, Hdet, Hcls, Hsync. simpl.
    rewrite !lookup_alter_eq, Hh. simpl.
    eexists. split; [reflexivity|]. by destruct (_ =? _).
  - intros Hlock. split; [|by apply collect_frame_expired].
    by rewrite collect_frame_attached, Hdet, Hcls, Hsync, Hlock.
Qed.

Lemma collect_frame_attaches_cached_witness :
  exists h',
    histories (collect_frame scenario_nvinfer frame_of_object_8 cat_output
                 stale_state) !! 1%nat = Some h'
    /\ attached (collect_frame scenario_nvinfer frame_of_object_8 cat_output
                   stale_state)
       = [Attach_classifier (Some (tracked_object 8)) (cached_info h')].
Proof.
  apply (proj1 (collect_frame_attaches_cached scenario_nvinfer
                  frame_of_object_8 cat_output stale_state eq_refl eq_refl)
           1%nat (idle_history true) eq_refl eq_refl).
Defined.

(** ** The filter-out class ids property *)

Lemma elem_of_set_insert x s y :
  y ∈ set_insert x s <-> y = x \/ y ∈ s.
Proof.
  induction s as [|z s IH]; simpl.
  - rewrite list_elem_of_singleton, elem_of_nil. tauto.
  - destruct (Z.ltb_spec x z); [by rewrite elem_of_cons|].
    destruct (Z.eqb_spec x z) as [->|Hne].
    + rewrite elem_of_cons. tauto.
    + rewrite !elem_of_cons, IH. tauto.
Qed.

Lemma set_insert_sorted x s :
  StronglySorted Z.lt s -> StronglySorted Z.lt (set_insert x s).
Proof.
  induction s as [|z s IH]; simpl; intros Hs.
  - by repeat constructor.
  - apply StronglySorted_inv in Hs as [Hs Hz].
    destruct (Z.ltb_spec x z) as [Hlt|Hge].
    + constructor; [by constructor|].
      constructor; [done|].
      eapply Forall_impl; [exact Hz|]. simpl. lia.
    + destruct (Z.eqb_spec x z) as [->|Hne]; [by constructor|].
      constructor; [by apply IH|].
      apply Forall_forall. intros y [->|Hy]%elem_of_set_insert; [lia|].
      rewrite Forall_forall in Hz. by apply Hz.
Qed.

Lemma foldl_set_insert_spec class_ids s :
  StronglySorted Z.lt s ->
  StronglySorted Z.lt
    (foldl (fun s cid => set_insert (u32 cid) s) s class_ids)
  /\ forall y,
       y ∈ foldl (fun s cid => set_insert (u32 cid) s) s class_ids
       <-> y ∈ s \/ exists cid, cid ∈ class_ids /\ y = u32 cid.
Proof.
  revert s. induction class_ids as [|c class_ids IH]; intros s Hs; simpl.
  - split; [done|]. intros y. split; [by left|].
    by intros [Hy|(cid & ?%not_elem_of_nil & _)].
  - destruct (IH (set_insert (u32 c) s) (set_insert_sorted _ _ Hs))
      as [Hsorted Hin].
    split; [done|]. intros y. rewrite Hin, elem_of_set_insert. split.
    + intros [[->|Hy]|(cid & Hcid & ->)].
      * right. exists c. split; [apply list_elem_of_here | done].
      * by left.
      * right. exists cid. split; [by apply list_elem_of_further | done].
    + intros [Hy|(cid & [->|Hcid]%elem_of_cons & ->)]; [tauto|tauto|].
      right. by exists cid.
Qed.

(** X28: the filter-out class ids property reads back the ids it was
    set from, converted to [uint], in increasing order and each once,
    whatever the order and the repetitions in the string, and whatever
    it held before; a negative id [c] reads back as [c + 2^32]. *)
Theorem filter_out_class_ids_round_trip class_ids :
  StronglySorted Z.lt
    (get_filter_out_class_ids (set_filter_out_class_ids class_ids))
  /\ (forall y,
        y ∈ get_filter_out_class_ids (set_filter_out_class_ids class_ids)
        <-> exists cid, cid ∈ class_ids /\ y = u32 cid)
  /\ (forall cid,
        cid ∈ class_ids -> - 2 ^ 31 <= cid < 0 ->
        cid + 2 ^ 32
          ∈ get_filter_out_class_ids (set_filter_out_class_ids class_ids)).
Proof.
  unfold get_filter_out_class_ids, set_filter_out_class_ids.
  destruct (foldl_set_insert_spec class_ids [] ltac:(constructor))
    as [Hsorted Hin].
  split; [done|]. split.
  - intros y. rewrite Hin. split; [|by right].
    by intros [?%not_elem_of_nil|?].
  - intros cid Hcid Hneg. apply Hin. right. exists cid. split; [done|].
    unfold u32. rewrite <- (Z.mod_add cid 1 (2 ^ 32)) by lia.
    symmetry. apply Z.mod_small. lia.
Qed.

(** ** Failure of the engine, from the buffer to the pad *)















(** An object that is deferred in a batch which also holds frames goes
    with the batch: when [queueInputBatch] fails for the batch of
    [three_objects_buffer], the buffer is pushed downstream and neither
    object 7 nor object 8 has its cached classification attached. *)
Example deferred_objects_go_with_the_batch :
  (fun st => (attached st, downstream st))
    <$> output_loop_run scenario_nvinfer [engine_answers]
          (input_queue_loop_run [NVDSINFER_ERROR 1; NVDSINFER_SUCCESS]
             (gst_nvinfer_submit_input_buffer scenario_nvinfer
                submit_succeeds three_objects_buffer stale_state).2)
  = Some ([], [PushedBuffer (Some 42)]).
Proof. vm_compute. reflexivity. Qed.
